(** * chi-tieu: the expense tracker of [src/app/page.tsx]

    A shallow embedding of the transaction store, the date filter and the
    aggregator of the page component, together with the parts of the
    JavaScript runtime they call (string primitives, [parseInt], the [Date]
    arithmetic of ECMA-262, [JSON] and [localStorage]).

    Conventions.
    - A JavaScript string is its sequence of UTF-16 code units ([jsstring]).
    - A JavaScript number that holds an integer is the [Z] it holds.  A
      result of [parseInt], of [+] or of [JSON.parse] is rounded to the
      nearest double ([round_double]: 53 significant bits, ties to even),
      and a number is printed with the shortest digits that read back as
      it ([shortest]).  [NaN] and the two infinities are separate
      constructors of [number].  Numbers with a fractional part do not
      occur in what the page computes and are not represented.
    - The local time zone is a fixed offset [LocalTZA] (milliseconds east of
      UTC), as in Asia/Ho_Chi_Minh; zones with daylight saving are not
      covered. *)

From Stdlib Require Import ZArith List Bool Lia String Ascii.
From Stdlib Require Import DecimalFacts DecimalPos DecimalN.
From stdpp Require Import gmap.
Import ListNotations.
Local Open Scope Z_scope.
Set Warnings "-register-all".

(** ** JavaScript strings *)

Module JSString.

(** A string is a list of UTF-16 code units. *)
Definition jsstring := list N.

Definition code (a : ascii) : N := N_of_ascii a.

(** [str "abc"] is the JavaScript literal ["abc"] (ASCII only). *)
Definition str (s : string) : jsstring := List.map code (list_ascii_of_string s).

(** [\d] of a regular expression without the [u] flag: 0-9. *)
Definition is_digit (c : N) : bool := (48 <=? c)%N && (c <=? 57)%N.

Definition digit_value (c : N) : Z := Z.of_N c - 48.

(** WhiteSpace and LineTerminator of ECMA-262, the code units that
    [String.prototype.trim] and [parseInt] skip. *)
Definition is_whitespace (c : N) : bool :=
  (existsb (N.eqb c)
     [9; 10; 11; 12; 13; 32; 160; 5760; 8232; 8233; 8239; 8287; 12288; 65279]
   || ((8192 <=? c) && (c <=? 8202)))%N.

Fixpoint trimStart (s : jsstring) : jsstring :=
  match s with
  | c :: s' => if is_whitespace c then trimStart s' else s
  | [] => []
  end.

Definition trimEnd (s : jsstring) : jsstring := rev (trimStart (rev s)).

(** [s.trim()] *)
Definition trim (s : jsstring) : jsstring := trimEnd (trimStart s).

(** [s.replace(/\D/g, "")] *)
Definition remove_non_digits (s : jsstring) : jsstring := List.filter is_digit s.

(** [s.slice(n)] for [n >= 0]. *)
Definition slice_from (n : nat) (s : jsstring) : jsstring := skipn n s.

(** [s.split(sep)] for a one-unit separator: the pieces between the
    occurrences of [sep]; a string without [sep] is its own single piece. *)
Fixpoint split_on (sep : N) (s : jsstring) : list jsstring :=
  match s with
  | [] => [[]]
  | c :: s' =>
      if (c =? sep)%N then [] :: split_on sep s'
      else match split_on sep s' with
           | p :: ps => (c :: p) :: ps
           | [] => [[c]]
           end
  end.

(** Truthiness of a string: the empty string is the only falsy one. *)
Definition nonempty (s : jsstring) : bool :=
  match s with [] => false | _ => true end.

End JSString.
Export JSString.

(** ** JavaScript numbers *)

Module JSNumber.

(** The values of type Number that the page computes with: integers, the
    two infinities and NaN. *)
Inductive number : Type :=
  | NaN
  | NegInfinity
  | Num (z : Z)
  | PosInfinity.

(** [isNaN(x)] on a number. *)
Definition isNaN (x : number) : bool :=
  match x with NaN => true | _ => false end.

(** [a <= b]; every comparison with NaN is false. *)
Definition num_le (a b : number) : bool :=
  match a, b with
  | NaN, _ | _, NaN => false
  | NegInfinity, _ => true
  | _, PosInfinity => true
  | Num x, Num y => x <=? y
  | _, _ => false
  end.

(** [a >= b] *)
Definition num_ge (a b : number) : bool := num_le b a.

(** [!x] on a number: NaN and zero are the falsy numbers. *)
Definition num_not (x : number) : bool :=
  match x with
  | NaN => true
  | Num z => z =? 0
  | _ => false
  end.

(** [!x] where [x] may be [undefined] (a missing array element). *)
Definition not_opt (x : option number) : bool :=
  match x with
  | None => true
  | Some n => num_not n
  end.

(** The double nearest to a natural number: the integer is kept when it
    fits in 53 bits, and otherwise cut to its 53 leading bits [q], rounded
    to nearest on the remainder [r], a tie going to the even [q]. *)
Definition round_nat (n : Z) : Z :=
  let e := Z.log2 n - 52 in
  if e <=? 0 then n
  else
    let q := n / 2 ^ e in
    let r := n mod 2 ^ e in
    let half := 2 ^ (e - 1) in
    if r <? half then q * 2 ^ e
    else if half <? r then (q + 1) * 2 ^ e
    else if Z.even q then q * 2 ^ e
    else (q + 1) * 2 ^ e.

Definition round_double (z : Z) : Z := Z.sgn z * round_nat (Z.abs z).

(** The Number value of a mathematical integer: rounding that reaches
    2^1024 gives an infinity. *)
Definition to_double (z : Z) : number :=
  let r := round_double z in
  if 2 ^ 1024 <=? r then PosInfinity
  else if r <=? - 2 ^ 1024 then NegInfinity
  else Num r.

(** [a + b] on two doubles that hold integers: the exact sum, rounded.
    (A sum that reaches 2^1024 is Infinity in JavaScript; amounts are
    finite here and so are their sums.) *)
Definition double_add (a b : Z) : Z := round_double (a + b).

(** [a - b], likewise. *)
Definition double_sub (a b : Z) : Z := round_double (a - b).

(** The value of a run of decimal digits, most significant first. *)
Definition digits_value (ds : jsstring) : Z :=
  fold_left (fun acc c => 10 * acc + digit_value c) ds 0.

(** The longest prefix of decimal digits. *)
Fixpoint digit_prefix (s : jsstring) : jsstring :=
  match s with
  | c :: s' => if is_digit c then c :: digit_prefix s' else []
  | [] => []
  end.

(** [parseInt(s, 10)]: leading white space is skipped, one sign is read,
    then the longest run of digits; no digit gives NaN.  The result is
    the Number value of the integer read (ECMA-262 lets an implementation
    read the digits after the 20th as zeros; the exact integer is taken
    here). *)
Definition parseInt10 (s : jsstring) : number :=
  let s1 := trimStart s in
  let negative := match s1 with c :: _ => (c =? 45)%N | [] => false end in
  let s2 :=
    match s1 with
    | c :: r => if (c =? 45)%N || (c =? 43)%N then r else s1
    | [] => []
    end in
  match digit_prefix s2 with
  | [] => NaN
  | ds => to_double ((if negative then -1 else 1) * digits_value ds)
  end.

(** Decimal digits of a natural number, as code units. *)
Fixpoint uint_units (d : Decimal.uint) : jsstring :=
  match d with
  | Decimal.Nil => []
  | Decimal.D0 d => 48%N :: uint_units d
  | Decimal.D1 d => 49%N :: uint_units d
  | Decimal.D2 d => 50%N :: uint_units d
  | Decimal.D3 d => 51%N :: uint_units d
  | Decimal.D4 d => 52%N :: uint_units d
  | Decimal.D5 d => 53%N :: uint_units d
  | Decimal.D6 d => 54%N :: uint_units d
  | Decimal.D7 d => 55%N :: uint_units d
  | Decimal.D8 d => 56%N :: uint_units d
  | Decimal.D9 d => 57%N :: uint_units d
  end.

Definition decimal_of_N (n : N) : jsstring := uint_units (N.to_uint n).

(** The decimal digits of an integer [z], all of them. *)
Definition decimal_of_Z (z : Z) : jsstring :=
  if z <? 0 then 45%N :: decimal_of_N (Z.to_N (- z))
  else decimal_of_N (Z.to_N z).

(** The number of decimal digits of a natural number. *)
Fixpoint count_digits (fuel : nat) (x : Z) : nat :=
  match fuel with
  | O => O
  | S f => if x <? 10 then 1%nat else S (count_digits f (x / 10))
  end.

Definition ndigits (x : Z) : nat := count_digits (S (Z.to_nat (Z.log2 x))) x.

(** The integers on [k] significant digits next to [x], when they read
    back as the double [x]: the one below, the one above, or of the two
    the closer, and at the same distance the one with the even last
    digit. *)
Definition closest (x : Z) (k d : nat) : option Z :=
  let p := 10 ^ Z.of_nat (d - k) in
  let lo := x / p * p in
  let hi := lo + p in
  let ok_lo := round_double lo =? x in
  let ok_hi := round_double hi =? x in
  if ok_lo && ok_hi then
    (if x - lo <? hi - x then Some lo
     else if hi - x <? x - lo then Some hi
     else if Z.even (x / p) then Some lo else Some hi)
  else if ok_lo then Some lo
  else if ok_hi then Some hi
  else None.

Fixpoint first_some {A : Type} (f : nat -> option A) (ks : list nat) : option A :=
  match ks with
  | [] => None
  | k :: ks' => match f k with Some v => Some v | None => first_some f ks' end
  end.

(** The integer that Number::toString prints for the double [x >= 0]:
    the one with the fewest significant digits that reads back as [x]. *)
Definition shortest (x : Z) : Z :=
  let d := ndigits x in
  match first_some (fun k => closest x k d) (seq 1 d) with
  | Some v => v
  | None => x
  end.

Fixpoint drop_leading_zeros (s : jsstring) : jsstring :=
  match s with
  | c :: r => if (c =? 48)%N then drop_leading_zeros r else s
  | [] => []
  end.

(** [d.ddde+n], the form of a number from 10^21 on. *)
Definition exponent_form (v : Z) : jsstring :=
  let ds := decimal_of_N (Z.to_N v) in
  match rev (drop_leading_zeros (rev ds)) with
  | [] => []
  | d :: more =>
      d :: (if nonempty more then 46%N :: more else [])
      ++ 101%N :: 43%N :: decimal_of_N (N.of_nat (length ds - 1))
  end.

(** [String(z)] for a double [z] that holds an integer. *)
Definition Number_toString (z : Z) : jsstring :=
  let v := shortest (Z.abs z) in
  (if z <? 0 then [45%N] else [])
  ++ (if v <? 10 ^ 21 then decimal_of_N (Z.to_N v) else exponent_form v).

(** [n] printed in decimal on at least [w] digits, padded with zeros. *)
Definition pad (w : nat) (n : N) : jsstring :=
  let ds := decimal_of_N n in
  repeat 48%N (w - length ds) ++ ds.

End JSNumber.
Export JSNumber.


(** ** Dates: the time values and calendar arithmetic of ECMA-262, 21.4.1 *)

Module JSDate.

Definition msPerSecond : Z := 1000.
Definition msPerMinute : Z := 60000.
Definition msPerHour : Z := 3600000.
Definition msPerDay : Z := 86400000.

(** What the host contributes to [Date]: the offset of local time from UTC
    in milliseconds, and the answer of [Date.parse] on a string that is not
    in the Date Time String Format (ECMA-262 leaves it to the engine);
    [None] is a string the engine does not recognise. *)
Record Runtime : Type := {
  LocalTZA : Z;
  legacy_parse : jsstring -> option Z
}.

Definition Day (t : Z) : Z := t / msPerDay.
Definition TimeWithinDay (t : Z) : Z := t mod msPerDay.

Definition leap (y : Z) : bool :=
  (y mod 4 =? 0) && (negb (y mod 100 =? 0) || (y mod 400 =? 0)).

Definition DaysInYear (y : Z) : Z := if leap y then 366 else 365.

Definition DayFromYear (y : Z) : Z :=
  365 * (y - 1970) + (y - 1969) / 4 - (y - 1901) / 100 + (y - 1601) / 400.

(** The largest year [y] with [DayFromYear y <= d]: an estimate from the
    mean year length, corrected by one step. *)
Definition YearFromDay (d : Z) : Z :=
  let y0 := 1970 + (d * 400) / 146097 in
  if d <? DayFromYear y0 then y0 - 1
  else if DayFromYear (y0 + 1) <=? d then y0 + 1
  else y0.

Definition YearFromTime (t : Z) : Z := YearFromDay (Day t).
Definition InLeapYear (t : Z) : bool := leap (YearFromTime t).
Definition DayWithinYear (t : Z) : Z := Day t - DayFromYear (YearFromTime t).

(** Days of the year before month [mn] (0 = January). *)
Definition days_before_month (lp : bool) (mn : Z) : Z :=
  let L := if lp then 1 else 0 in
  match mn with
  | 0 => 0
  | 1 => 31
  | 2 => 59 + L
  | 3 => 90 + L
  | 4 => 120 + L
  | 5 => 151 + L
  | 6 => 181 + L
  | 7 => 212 + L
  | 8 => 243 + L
  | 9 => 273 + L
  | 10 => 304 + L
  | _ => 334 + L
  end.

Definition month_of_yday (lp : bool) (d : Z) : Z :=
  let L := if lp then 1 else 0 in
  if d <? 31 then 0
  else if d <? 59 + L then 1
  else if d <? 90 + L then 2
  else if d <? 120 + L then 3
  else if d <? 151 + L then 4
  else if d <? 181 + L then 5
  else if d <? 212 + L then 6
  else if d <? 243 + L then 7
  else if d <? 273 + L then 8
  else if d <? 304 + L then 9
  else if d <? 334 + L then 10
  else 11.

Definition MonthFromTime (t : Z) : Z :=
  month_of_yday (InLeapYear t) (DayWithinYear t).

Definition DateFromTime (t : Z) : Z :=
  DayWithinYear t - days_before_month (InLeapYear t) (MonthFromTime t) + 1.

Definition HourFromTime (t : Z) : Z := (t / msPerHour) mod 24.
Definition MinFromTime (t : Z) : Z := (t / msPerMinute) mod 60.
Definition SecFromTime (t : Z) : Z := (t / msPerSecond) mod 60.
Definition msFromTime (t : Z) : Z := t mod msPerSecond.

Definition MakeTime (hour min sec ms : Z) : Z :=
  hour * msPerHour + min * msPerMinute + sec * msPerSecond + ms.

(** [MakeDay]: months beyond 0..11 carry into the year, and the day of the
    month is an offset from day 1, so that day 0 is the last day of the
    month before. *)
Definition MakeDay (year month date : Z) : Z :=
  let ym := year + month / 12 in
  let mn := month mod 12 in
  DayFromYear ym + days_before_month (leap ym) mn + date - 1.

Definition MakeDate (day time : Z) : Z := day * msPerDay + time.

Definition maxTime : Z := 8640000000000000.

Definition TimeClip (t : Z) : number :=
  if Z.abs t >? maxTime then NaN else Num t.

Section WithRuntime.

Variable R : Runtime.

Definition LocalTime (t : Z) : Z := t + LocalTZA R.
Definition UTC (t : Z) : Z := t - LocalTZA R.

(** [new Date(year, month, date, hours, minutes, seconds, ms)].  A Date
    object is represented by its time value, [NaN] for an invalid date.
    Years 0 to 99 stand for 1900 to 1999. *)
Definition Date_of_fields (year month date hours minutes seconds ms : number)
  : number :=
  match year, month, date, hours, minutes, seconds, ms with
  | Num y, Num m, Num dt, Num h, Num mi, Num s, Num milli =>
      let yr := if (0 <=? y) && (y <=? 99) then 1900 + y else y in
      TimeClip (UTC (MakeDate (MakeDay yr m dt) (MakeTime h mi s milli)))
  | _, _, _, _, _, _, _ => NaN
  end.

(** [d.getTime()] *)
Definition getTime (d : number) : number := d.

(** [d.getFullYear()], [d.getMonth()], [d.getDate()]: fields of the local
    time. *)
Definition getFullYear (d : number) : number :=
  match d with Num t => Num (YearFromTime (LocalTime t)) | _ => NaN end.
Definition getMonth (d : number) : number :=
  match d with Num t => Num (MonthFromTime (LocalTime t)) | _ => NaN end.
Definition getDate (d : number) : number :=
  match d with Num t => Num (DateFromTime (LocalTime t)) | _ => NaN end.

(** *** The Date Time String Format (ECMA-262, 21.4.1.32) *)

(** Reads exactly [n] decimal digits. *)
Fixpoint read_digits (n : nat) (acc : Z) (s : jsstring)
  : option (Z * jsstring) :=
  match n with
  | O => Some (acc, s)
  | S n' =>
      match s with
      | c :: s' =>
          if is_digit c then read_digits n' (10 * acc + digit_value c) s'
          else None
      | [] => None
      end
  end.

(** [YYYY], or a sign and six digits; [-000000] is not a year. *)
Definition read_year (s : jsstring) : option (Z * jsstring) :=
  match s with
  | 43%N :: r => read_digits 6 0 r
  | 45%N :: r =>
      '(y, r') ← read_digits 6 0 r;
      if y =? 0 then None else Some (- y, r')
  | _ => read_digits 4 0 s
  end.

Definition days_in_month (y m : Z) : Z :=
  days_before_month (leap y) m - days_before_month (leap y) (m - 1)
  + (if m =? 12 then 31 else 0).

(** The date part: [YYYY], [YYYY-MM] or [YYYY-MM-DD], month 1-based. *)
Definition read_date (s : jsstring) : option (Z * Z * Z * jsstring) :=
  '(y, r) ← read_year s;
  match r with
  | 45%N :: r1 =>
      '(m, r2) ← read_digits 2 0 r1;
      if (1 <=? m) && (m <=? 12) then
        match r2 with
        | 45%N :: r3 =>
            '(d, r4) ← read_digits 2 0 r3;
            if (1 <=? d) && (d <=? days_in_month y m)
            then Some (y, m, d, r4) else None
        | _ => Some (y, m, 1, r2)
        end
      else None
  | _ => Some (y, 1, 1, r)
  end.

(** The time part after [T]: [HH:mm], [HH:mm:ss] or [HH:mm:ss.sss], as
    milliseconds within the day. *)
Definition read_time (s : jsstring) : option (Z * jsstring) :=
  '(h, r1) ← read_digits 2 0 s;
  match r1 with
  | 58%N :: r2 =>
      '(mi, r3) ← read_digits 2 0 r2;
      if (h <=? 23) && (mi <=? 59) then
        match r3 with
        | 58%N :: r4 =>
            '(sec, r5) ← read_digits 2 0 r4;
            if sec <=? 59 then
              match r5 with
              | 46%N :: r6 =>
                  '(ms, r7) ← read_digits 3 0 r6;
                  Some (MakeTime h mi sec ms, r7)
              | _ => Some (MakeTime h mi sec 0, r5)
              end
            else None
        | _ => Some (MakeTime h mi 0 0, r3)
        end
      else None
  | _ => None
  end.

(** The offset that ends a date-time: [Z], [+HH:mm], [-HH:mm], or nothing
    (local time).  The result is what to subtract to reach UTC. *)
Definition read_offset (s : jsstring) : option Z :=
  match s with
  | [] => Some (LocalTZA R)
  | [90%N] => Some 0
  | sg :: r =>
      if (sg =? 43)%N || (sg =? 45)%N then
        '(h, r1) ← read_digits 2 0 r;
        match r1 with
        | 58%N :: r2 =>
            '(mi, r3) ← read_digits 2 0 r2;
            match r3 with
            | [] =>
                if (h <=? 23) && (mi <=? 59) then
                  let off := h * msPerHour + mi * msPerMinute in
                  Some (if (sg =? 43)%N then off else - off)
                else None
            | _ => None
            end
        | _ => None
        end
      else None
  end.

(** A string in the format, as a time value; a date without a time is
    UTC, a date-time without an offset is local time. *)
Definition parse_iso (s : jsstring) : option number :=
  '(y, m, d, r) ← read_date s;
  let day := MakeDay y (m - 1) d in
  match r with
  | [] => Some (TimeClip (MakeDate day 0))
  | 84%N :: r1 =>
      '(time, r2) ← read_time r1;
      off ← read_offset r2;
      Some (TimeClip (MakeDate day time - off))
  | _ => None
  end.

(** [Date.parse(s)], which is also the time value of [new Date(s)]. *)
Definition Date_parse (s : jsstring) : number :=
  match parse_iso s with
  | Some t => t
  | None =>
      match legacy_parse R s with
      | Some t => TimeClip t
      | None => NaN
      end
  end.

End WithRuntime.

(** [d.toISOString()] for a valid date with time value [t]. *)
Definition toISOString (t : Z) : jsstring :=
  let y := YearFromTime t in
  let year :=
    if (0 <=? y) && (y <=? 9999) then pad 4 (Z.to_N y)
    else (if y <? 0 then 45%N else 43%N) :: pad 6 (Z.to_N (Z.abs y)) in
  year ++ str "-" ++ pad 2 (Z.to_N (MonthFromTime t + 1))
       ++ str "-" ++ pad 2 (Z.to_N (DateFromTime t))
       ++ str "T" ++ pad 2 (Z.to_N (HourFromTime t))
       ++ str ":" ++ pad 2 (Z.to_N (MinFromTime t))
       ++ str ":" ++ pad 2 (Z.to_N (SecFromTime t))
       ++ str "." ++ pad 3 (Z.to_N (msFromTime t))
       ++ str "Z".

(** Two hosts used in the examples: one at the offset of Asia/Ho_Chi_Minh
    today (UTC+7; the zone had other offsets before 1975) and one five
    hours west of UTC.  Their engine reads the standard format only; the
    examples that use them parse standard strings, the empty string, or
    text without a digit, which the engines in use do not read as a date
    either. *)
Definition ho_chi_minh : Runtime :=
  {| LocalTZA := 7 * msPerHour; legacy_parse := fun _ => None |}.
Definition utc_minus_5 : Runtime :=
  {| LocalTZA := -5 * msPerHour; legacy_parse := fun _ => None |}.

End JSDate.
Export JSDate.

(** ** [Math.random] and the hexadecimal form of its result *)

Module JSMath.

Definition hex_digit (d : N) : N := (if d <? 10 then 48 + d else 87 + d)%N.

(** [n] on [w] hexadecimal digits, lower case. *)
Fixpoint hex_fixed (w : nat) (n : N) : jsstring :=
  match w with
  | O => []
  | S w' => hex_fixed w' (n / 16) ++ [hex_digit (n mod 16)]
  end.

Fixpoint drop_zeros (s : jsstring) : jsstring :=
  match s with
  | 48%N :: s' => drop_zeros s'
  | _ => s
  end.

(** [x.toString(16)] for a result [x = k / 2^53] of [Math.random()],
    [0 <= k < 2^53]: the fraction has at most 14 hexadecimal digits and is
    printed exactly, without trailing zeros; zero prints as ["0"]. *)
Definition random_toString16 (k : N) : jsstring :=
  if (k =? 0)%N then str "0"
  else str "0." ++ rev (drop_zeros (rev (hex_fixed 14 (8 * k)))).

End JSMath.
Export JSMath.

(** ** JSON: values, [JSON.stringify] and [JSON.parse] *)

Module JSONText.

(** A JSON value.  A number is [mant * 10 ^ exp10], which is what a JSON
    number literal denotes; an object keeps its members in textual
    order. *)
Inductive JSON : Type :=
  | JNull
  | JBool (b : bool)
  | JNumber (mant exp10 : Z)
  | JString (s : jsstring)
  | JArray (elems : list JSON)
  | JObject (members : list (jsstring * JSON)).

(** [Array.isArray(v)] *)
Definition Array_isArray (v : JSON) : bool :=
  match v with JArray _ => true | _ => false end.

(** [o[key]] on a parsed object: of two members with one key the later
    one wins; [None] is [undefined]. *)
Fixpoint member (key : jsstring) (ms : list (jsstring * JSON)) : option JSON :=
  match ms with
  | [] => None
  | (k, v) :: ms' =>
      match member key ms' with
      | Some v' => Some v'
      | None => if bool_decide (k = key) then Some v else None
      end
  end.

(** *** Printing *)

Definition is_high_surrogate (c : N) : bool := (55296 <=? c)%N && (c <=? 56319)%N.
Definition is_low_surrogate (c : N) : bool := (56320 <=? c)%N && (c <=? 57343)%N.

(** [\uXXXX] with lower-case digits. *)
Definition unicode_escape (c : N) : jsstring := 92%N :: 117%N :: hex_fixed 4 c.

(** One code unit inside a string literal (QuoteJSONString), surrogates
    apart. *)
Definition quote_unit (c : N) : jsstring :=
  if (c =? 8)%N then str "\b"
  else if (c =? 9)%N then str "\t"
  else if (c =? 10)%N then str "\n"
  else if (c =? 12)%N then str "\f"
  else if (c =? 13)%N then str "\r"
  else if (c =? 34)%N then [92; 34]%N
  else if (c =? 92)%N then [92; 92]%N
  else if (c <? 32)%N then unicode_escape c
  else [c].

(** The body of a string literal: a surrogate pair is kept, a lone
    surrogate is escaped. *)
Fixpoint quote_body (s : jsstring) : jsstring :=
  match s with
  | [] => []
  | c :: s' =>
      if is_high_surrogate c then
        match s' with
        | d :: s'' =>
            if is_low_surrogate d then c :: d :: quote_body s''
            else unicode_escape c ++ quote_body s'
        | [] => unicode_escape c
        end
      else if is_low_surrogate c then unicode_escape c ++ quote_body s'
      else quote_unit c ++ quote_body s'
  end.

Definition quote (s : jsstring) : jsstring := 34%N :: quote_body s ++ [34%N].

(** The integer that the literal [mant * 10^exp10] denotes, if it is one. *)
Definition literal_integer (mant exp10 : Z) : option Z :=
  if 0 <=? exp10 then Some (mant * 10 ^ exp10)
  else if mant mod 10 ^ (- exp10) =? 0 then Some (mant / 10 ^ (- exp10))
  else None.

(** A finite number prints as [String] prints it and a number that is
    not finite prints as [null].  (A number with a fractional part, which
    the page never writes, is left as mantissa and exponent.) *)
Definition stringify_number (mant exp10 : Z) : jsstring :=
  match literal_integer mant exp10 with
  | Some z =>
      match to_double z with
      | Num d => Number_toString d
      | _ => str "null"
      end
  | None => decimal_of_Z mant ++ 101%N :: decimal_of_Z exp10
  end.

(** The literal that the text of the double [z] is read back as: its
    mantissa and its decimal exponent. *)
Definition literal_of (z : Z) : Z * Z :=
  let v := shortest (Z.abs z) in
  let sign := if z <? 0 then -1 else 1 in
  if v <? 10 ^ 21 then (sign * v, 0)
  else
    let ds := decimal_of_N (Z.to_N v) in
    let significant := rev (drop_leading_zeros (rev ds)) in
    (sign * digits_value significant,
     Z.of_nat (length ds - 1) - Z.of_nat (length significant - 1)).

(** [texts] joined by the code unit [sep]. *)
Fixpoint join (sep : N) (texts : list jsstring) : jsstring :=
  match texts with
  | [] => []
  | [x] => x
  | x :: more => x ++ sep :: join sep more
  end.

(** [JSON.stringify(v)], without indentation. *)
Fixpoint JSON_stringify (v : JSON) : jsstring :=
  match v with
  | JNull => str "null"
  | JBool true => str "true"
  | JBool false => str "false"
  | JNumber m e => stringify_number m e
  | JString s => quote s
  | JArray l => 91%N :: join 44 (List.map JSON_stringify l) ++ [93%N]
  | JObject ms =>
      123%N
      :: join 44 (List.map (fun kv => quote (fst kv) ++ 58%N :: JSON_stringify (snd kv)) ms)
      ++ [125%N]
  end.

(** *** Parsing *)

Definition is_json_space (c : N) : bool :=
  (c =? 9)%N || (c =? 10)%N || (c =? 13)%N || (c =? 32)%N.

Fixpoint skip_space (s : jsstring) : jsstring :=
  match s with
  | c :: s' => if is_json_space c then skip_space s' else s
  | [] => []
  end.

Definition hex_value (c : N) : option N :=
  if (48 <=? c)%N && (c <=? 57)%N then Some (c - 48)%N
  else if (97 <=? c)%N && (c <=? 102)%N then Some (c - 87)%N
  else if (65 <=? c)%N && (c <=? 70)%N then Some (c - 55)%N
  else None.

Definition hex4_value (a b c d : N) : option N :=
  x1 ← hex_value a; x2 ← hex_value b; x3 ← hex_value c; x4 ← hex_value d;
  Some (((x1 * 16 + x2) * 16 + x3) * 16 + x4)%N.

(** The code unit that a one-letter escape stands for. *)
Definition unescape (e : N) : option N :=
  (if e =? 34 then Some 34
   else if e =? 92 then Some 92
   else if e =? 47 then Some 47
   else if e =? 98 then Some 8
   else if e =? 102 then Some 12
   else if e =? 110 then Some 10
   else if e =? 114 then Some 13
   else if e =? 116 then Some 9
   else None)%N.

(** The rest of a string literal after its opening quote: the code units
    up to the closing quote, and what follows it. *)
Fixpoint parse_string_body (s : jsstring) : option (jsstring * jsstring) :=
  match s with
  | [] => None
  | c :: r =>
      if (c =? 34)%N then Some ([], r)
      else if (c =? 92)%N then
        match r with
        | [] => None
        | e :: r' =>
            if (e =? 117)%N then
              match r' with
              | h1 :: h2 :: h3 :: h4 :: r'' =>
                  u ← hex4_value h1 h2 h3 h4;
                  '(body, rest) ← parse_string_body r'';
                  Some (u :: body, rest)
              | _ => None
              end
            else
              u ← unescape e;
              '(body, rest) ← parse_string_body r';
              Some (u :: body, rest)
        end
      else if (c <? 32)%N then None
      else '(body, rest) ← parse_string_body r; Some (c :: body, rest)
  end.

(** [s] without the prefix [p], if it starts with it. *)
Fixpoint strip_prefix (p s : jsstring) : option jsstring :=
  match p, s with
  | [], _ => Some s
  | a :: p', b :: s' => if (a =? b)%N then strip_prefix p' s' else None
  | _ :: _, [] => None
  end.

(** A number literal after its sign: int frac? exp?, with no leading
    zero. *)
Definition parse_unsigned (negative : bool) (s1 : jsstring)
  : option (JSON * jsstring) :=
  let int := digit_prefix s1 in
  let s2 := skipn (length int) s1 in
  match int with
  | [] => None
  | d :: more =>
      if (d =? 48)%N && nonempty more then None
      else
        '(frac, s3) ←
          match s2 with
          | c :: r =>
              if (c =? 46)%N then
                match digit_prefix r with
                | [] => None
                | ds => Some (ds, skipn (length ds) r)
                end
              else Some ([], s2)
          | [] => Some ([], s2)
          end;
        '(e, s4) ←
          match s3 with
          | c :: r =>
              if (c =? 101)%N || (c =? 69)%N then
                let minus := match r with c' :: _ => (c' =? 45)%N | [] => false end in
                let plus := match r with c' :: _ => (c' =? 43)%N | [] => false end in
                let r1 := if minus || plus then tl r else r in
                match digit_prefix r1 with
                | [] => None
                | ds =>
                    Some ((if minus then -1 else 1) * digits_value ds,
                          skipn (length ds) r1)
                end
              else Some (0, s3)
          | [] => Some (0, s3)
          end;
        let m := digits_value (int ++ frac) in
        Some (JNumber (if negative then - m else m) (e - Z.of_nat (length frac)), s4)
  end.

(** A number literal: [-]? int frac? exp?. *)
Definition parse_number (s : jsstring) : option (JSON * jsstring) :=
  match s with
  | c :: r => if (c =? 45)%N then parse_unsigned true r else parse_unsigned false s
  | [] => None
  end.

(** One value and the text after it.  [fuel] bounds the depth of the
    calls; every second call at the latest consumes a code unit, and
    [JSON_parse] starts with twice the length of the text. *)
Fixpoint parse_value (fuel : nat) (s : jsstring) : option (JSON * jsstring) :=
  match fuel with
  | O => None
  | S fuel' =>
      match skip_space s with
      | [] => None
      | c :: r =>
          if (c =? 34)%N then
            '(body, rest) ← parse_string_body r; Some (JString body, rest)
          else if (c =? 91)%N then
            match skip_space r with
            | [] => None
            | c' :: r' =>
                if (c' =? 93)%N then Some (JArray [], r')
                else '(l, rest) ← parse_elements fuel' r; Some (JArray l, rest)
            end
          else if (c =? 123)%N then
            match skip_space r with
            | [] => None
            | c' :: r' =>
                if (c' =? 125)%N then Some (JObject [], r')
                else '(ms, rest) ← parse_members fuel' r; Some (JObject ms, rest)
            end
          else if (c =? 110)%N then
            rest ← strip_prefix (str "ull") r; Some (JNull, rest)
          else if (c =? 116)%N then
            rest ← strip_prefix (str "rue") r; Some (JBool true, rest)
          else if (c =? 102)%N then
            rest ← strip_prefix (str "alse") r; Some (JBool false, rest)
          else parse_number (c :: r)
      end
  end
with parse_elements (fuel : nat) (s : jsstring) : option (list JSON * jsstring) :=
  match fuel with
  | O => None
  | S fuel' =>
      '(v, r) ← parse_value fuel' s;
      match skip_space r with
      | [] => None
      | c :: r' =>
          if (c =? 44)%N then
            '(l, rest) ← parse_elements fuel' r'; Some (v :: l, rest)
          else if (c =? 93)%N then Some ([v], r')
          else None
      end
  end
with parse_members (fuel : nat) (s : jsstring)
  : option (list (jsstring * JSON) * jsstring) :=
  match fuel with
  | O => None
  | S fuel' =>
      match skip_space s with
      | [] => None
      | q :: r =>
          if (q =? 34)%N then
            '(k, r1) ← parse_string_body r;
            match skip_space r1 with
            | [] => None
            | c :: r2 =>
                if (c =? 58)%N then
                  '(v, r3) ← parse_value fuel' r2;
                  match skip_space r3 with
                  | [] => None
                  | c' :: r4 =>
                      if (c' =? 44)%N then
                        '(ms, rest) ← parse_members fuel' r4;
                        Some ((k, v) :: ms, rest)
                      else if (c' =? 125)%N then Some ([(k, v)], r4)
                      else None
                  end
                else None
            end
          else None
      end
  end.

(** [JSON.parse(text)]; [None] stands for the SyntaxError it throws. *)
Definition JSON_parse (text : jsstring) : option JSON :=
  '(v, rest) ← parse_value (2 * length text + 2) text;
  match skip_space rest with
  | [] => Some v
  | _ => None
  end.

End JSONText.
Export JSONText.

(** ** [localStorage] *)

Module WebStorage.

Inductive DOMException : Type := SecurityError | QuotaExceededError.

(** The outcome of a call that may throw. *)
Inductive completion (A : Type) : Type :=
  | Normal (a : A)
  | Throw (e : DOMException).
Arguments Normal {A} a.
Arguments Throw {A} e.

(** A storage area: its entries, the room it has (in code units, keys and
    values together), and whether the browser denies access to it. *)
Record Storage : Type := {
  items : gmap jsstring jsstring;
  quota : N;
  blocked : bool
}.

Definition used (m : gmap jsstring jsstring) : N :=
  map_fold (fun k v n => N.of_nat (length k) + N.of_nat (length v) + n)%N 0%N m.

(** [localStorage.getItem(key)]; [None] is [null]. *)
Definition getItem (ls : Storage) (key : jsstring) : completion (option jsstring) :=
  if blocked ls then Throw SecurityError else Normal (items ls !! key).

(** [localStorage.setItem(key, value)] *)
Definition setItem (ls : Storage) (key value : jsstring) : completion Storage :=
  if blocked ls then Throw SecurityError
  else
    let items' := <[key := value]> (items ls) in
    if (quota ls <? used items')%N then Throw QuotaExceededError
    else Normal {| items := items'; quota := quota ls; blocked := blocked ls |}.

End WebStorage.
Export WebStorage.

(** ** The page component

    The component [Home] is a record of its state variables.  An event
    handler is a function from the state (and from what it reads from the
    host) to the next state; a memoised value is a function of its
    dependency list; the two effects are functions over the storage
    area. *)

Module Page.

(** ["Chi tiêu" | "Thu nhập"] *)
Inductive TransactionType : Type := ChiTieu | ThuNhap.

Definition TransactionType_eqb (a b : TransactionType) : bool :=
  match a, b with
  | ChiTieu, ChiTieu | ThuNhap, ThuNhap => true
  | _, _ => false
  end.

(** The two literals as code units (ê is U+00EA, ậ is U+1EAD). *)
Definition TransactionType_literal (t : TransactionType) : jsstring :=
  match t with
  | ChiTieu => [67; 104; 105; 32; 116; 105; 234; 117]%N
  | ThuNhap => [84; 104; 117; 32; 110; 104; 7853; 112]%N
  end.

Record Transaction : Type := {
  id : jsstring;
  name : jsstring;
  amount : Z;
  type : TransactionType;
  createdAt : jsstring
}.

Definition STORAGE_KEY : jsstring := str "expense-tracker-transactions".

(** [n.toLocaleString("vi-VN")] for a natural number: groups of three
    digits separated by a full stop.  The digits are those of
    [shortest], followed by zeros, also from 10^21 on. *)
Fixpoint group_thousands (rev_digits : jsstring) : jsstring :=
  match rev_digits with
  | a :: b :: c :: ((_ :: _) as more) => a :: b :: c :: 46%N :: group_thousands more
  | _ => rev_digits
  end.

Definition toLocaleString_viVN (n : N) : jsstring :=
  rev (group_thousands (rev (decimal_of_N n))).

Definition formatCurrencyInput (value : jsstring) : jsstring :=
  let digitsOnly := remove_non_digits value in
  if negb (nonempty digitsOnly) then []
  else
    match parseInt10 digitsOnly with
    | NaN => []
    | Num number => toLocaleString_viVN (Z.to_N (shortest number))
    | PosInfinity => [8734%N]                     (* the sign of infinity *)
    | NegInfinity => [45%N; 8734%N]
    end.

(** ["all" | "range" | "month"] *)
Inductive FilterMode : Type := all | range | month.

(** ["all" | TransactionType] *)
Inductive ListFilterType : Type :=
  | list_all
  | list_type (t : TransactionType).

(** The state of the component [Home]: the collection, the three form
    fields ([name], [amount], [type] in the source) and the filter
    settings. *)
Record Home : Type := {
  transactions : list Transaction;
  form_name : jsstring;
  form_amount : jsstring;
  form_type : TransactionType;
  filterMode : FilterMode;
  filterStart : jsstring;
  filterEnd : jsstring;
  filterMonth : jsstring;
  listFilter : ListFilterType
}.

(** The state of the first render. *)
Definition initial : Home :=
  {| transactions := []; form_name := []; form_amount := [];
     form_type := ChiTieu; filterMode := all; filterStart := [];
     filterEnd := []; filterMonth := []; listFilter := list_all |}.

Definition setTransactions (f : list Transaction -> list Transaction) (st : Home) : Home :=
  {| transactions := f (transactions st);
     form_name := form_name st; form_amount := form_amount st;
     form_type := form_type st; filterMode := filterMode st;
     filterStart := filterStart st; filterEnd := filterEnd st;
     filterMonth := filterMonth st; listFilter := listFilter st |}.

Definition resetForm (st : Home) : Home :=
  {| transactions := transactions st;
     form_name := []; form_amount := []; form_type := ChiTieu;
     filterMode := filterMode st;
     filterStart := filterStart st; filterEnd := filterEnd st;
     filterMonth := filterMonth st; listFilter := listFilter st |}.

(** *** Persistence *)

Definition transaction_to_JSON (t : Transaction) : JSON :=
  JObject [ (str "id", JString (id t));
            (str "name", JString (name t));
            (str "amount", JNumber (amount t) 0);
            (str "type", JString (TransactionType_literal (type t)));
            (str "createdAt", JString (createdAt t)) ].

(** The object that [JSON.parse] makes of the text of one record: the
    amount comes back as the literal that was printed. *)
Definition transaction_as_read (t : Transaction) : JSON :=
  JObject [ (str "id", JString (id t));
            (str "name", JString (name t));
            (str "amount", JNumber (fst (literal_of (amount t))) (snd (literal_of (amount t))));
            (str "type", JString (TransactionType_literal (type t)));
            (str "createdAt", JString (createdAt t)) ].

Definition transactions_to_JSON (l : list Transaction) : JSON :=
  JArray (List.map transaction_to_JSON l).

(** The text of one record inside the stored array. *)
Definition transaction_text (t : Transaction) : jsstring :=
  JSON_stringify (transaction_to_JSON t).

(** The amount that a JSON number is read as: the double nearest to the
    integer it denotes.  An amount that is not an integer, or that reads as
    an infinity (from 1.8e308 on), is not one that [Transaction] holds
    here. *)
Definition integer_of (mant exp10 : Z) : option Z :=
  z ← literal_integer mant exp10;
  match to_double z with
  | Num d => Some d
  | _ => None
  end.

Definition TransactionType_of_literal (s : jsstring) : option TransactionType :=
  if bool_decide (s = TransactionType_literal ChiTieu) then Some ChiTieu
  else if bool_decide (s = TransactionType_literal ThuNhap) then Some ThuNhap
  else None.

(** The cast [as Transaction[]] is unchecked in the source.  The embedding
    keeps the declared types: a parsed element is read as a [Transaction]
    when its five properties have the declared types, and an array with
    any other element has no counterpart here ([None]). *)
Definition transaction_of_JSON (v : JSON) : option Transaction :=
  match v with
  | JObject ms =>
      match member (str "id") ms, member (str "name") ms,
            member (str "amount") ms, member (str "type") ms,
            member (str "createdAt") ms with
      | Some (JString i), Some (JString n), Some (JNumber m e),
        Some (JString ty), Some (JString c) =>
          a ← integer_of m e;
          ty' ← TransactionType_of_literal ty;
          Some {| id := i; name := n; amount := a; type := ty'; createdAt := c |}
      | _, _, _, _, _ => None
      end
  | _ => None
  end.

Definition transactions_of_JSON (v : JSON) : option (list Transaction) :=
  match v with
  | JArray l => mapM transaction_of_JSON l
  | _ => None
  end.

(** The effect that runs on mount.  The result is [None] only when the
    stored array is not one of [Transaction]s (see above); reading fails
    open: every failure leaves the state as it was. *)
Definition hydrate (ls : Storage) (st : Home) : option Home :=
  match getItem ls STORAGE_KEY with
  | Throw _ => Some st
  | Normal None => Some st
  | Normal (Some raw) =>
      if nonempty raw then
        match JSON_parse raw with
        | None => Some st
        | Some parsed =>
            if Array_isArray parsed then
              l ← transactions_of_JSON parsed;
              Some (setTransactions (fun _ => l) st)
            else Some st
        end
      else Some st
  end.

(** The effect that runs after every change of [transactions]. *)
Definition persist (ls : Storage) (st : Home) : Storage :=
  match setItem ls STORAGE_KEY (JSON_stringify (transactions_to_JSON (transactions st))) with
  | Normal ls' => ls'
  | Throw _ => ls
  end.

(** *** Adding and deleting *)

(** What one submission reads from the host: [Date.now()], the numerator
    [k < 2^53] of [Math.random() = k / 2^53], and the time value of
    [new Date()]. *)
Record Submission : Type := {
  Date_now : Z;
  Math_random : N;
  new_Date : Z
}.

Definition new_id (ev : Submission) : jsstring :=
  decimal_of_Z (Date_now ev) ++ str "-"
  ++ slice_from 2 (random_toString16 (Math_random ev)).

Definition handleAddTransaction (ev : Submission) (st : Home) : Home :=
  let rawDigits := remove_non_digits (form_amount st) in
  let numericAmount := parseInt10 rawDigits in
  if negb (nonempty (trim (form_name st)))
     || isNaN numericAmount || num_le numericAmount (Num 0)
  then st
  else
    match numericAmount with
    (* NaN has just been excluded.  Infinity needs 309 digits or more,
       which [formatCurrencyInput] never leaves in the amount field. *)
    | Num n =>
        let newTransaction :=
          {| id := new_id ev;
             name := trim (form_name st);
             amount := n;
             type := form_type st;
             createdAt := toISOString (new_Date ev) |} in
        resetForm (setTransactions (fun prev => newTransaction :: prev) st)
    | _ => st
    end.

Definition handleDeleteTransaction (i : jsstring) (st : Home) : Home :=
  setTransactions
    (fun prev => List.filter (fun t => negb (bool_decide (id t = i))) prev) st.

(** *** Filtering and totals *)

Section WithRuntime.

Variable R : Runtime.

Definition startOfDay (d : number) : number :=
  Date_of_fields R (getFullYear R d) (getMonth R d) (getDate R d)
    (Num 0) (Num 0) (Num 0) (Num 0).

Definition endOfDay (d : number) : number :=
  Date_of_fields R (getFullYear R d) (getMonth R d) (getDate R d)
    (Num 23) (Num 59) (Num 59) (Num 999).

(** ToNumber of an array element that may be missing. *)
Definition ToNumber (x : option number) : number :=
  match x with Some n => n | None => NaN end.

Definition num_sub (a : number) (b : Z) : number :=
  match a with Num z => Num (z - b) | other => other end.

(** The test of both filters: [ms >= startMs && ms <= endMs] with
    [ms = new Date(t.createdAt).getTime()]. *)
Definition in_window (startMs endMs : number) (t : Transaction) : bool :=
  let ms := getTime (Date_parse R (createdAt t)) in
  num_ge ms startMs && num_le ms endMs.

Definition filteredTransactions (st : Home) : list Transaction :=
  match filterMode st with
  | all => transactions st
  | month =>
      if negb (nonempty (filterMonth st)) then transactions st
      else
        let parts := List.map parseInt10 (split_on 45 (filterMonth st)) in
        let y := nth_error parts 0 in
        let m := nth_error parts 1 in
        if not_opt y || not_opt m then transactions st
        else
          let start :=
            Date_of_fields R (ToNumber y) (num_sub (ToNumber m) 1) (Num 1)
              (Num 0) (Num 0) (Num 0) (Num 0) in
          let end_ :=
            Date_of_fields R (ToNumber y) (ToNumber m) (Num 0)
              (Num 23) (Num 59) (Num 59) (Num 999) in
          let startMs := getTime start in
          let endMs := getTime end_ in
          List.filter (in_window startMs endMs) (transactions st)
  | range =>
      let start :=
        if nonempty (filterStart st)
        then Some (startOfDay (Date_parse R (filterStart st))) else None in
      let end_ :=
        if nonempty (filterEnd st)
        then Some (endOfDay (Date_parse R (filterEnd st))) else None in
      let startMs := match start with Some d => getTime d | None => NegInfinity end in
      let endMs := match end_ with Some d => getTime d | None => PosInfinity end in
      List.filter (in_window startMs endMs) (transactions st)
  end.

End WithRuntime.

(** The memoised totals, each a function of its dependency list. *)
Definition sum_amounts (l : list Transaction) : Z :=
  fold_left (fun sum t => double_add sum (amount t)) l 0.

Definition totalExpense (filteredTransactions : list Transaction) : Z :=
  sum_amounts
    (List.filter (fun t => TransactionType_eqb (type t) ChiTieu) filteredTransactions).

Definition totalIncome (filteredTransactions : list Transaction) : Z :=
  sum_amounts
    (List.filter (fun t => TransactionType_eqb (type t) ThuNhap) filteredTransactions).

Definition balance (totalIncome totalExpense : Z) : Z :=
  double_sub totalIncome totalExpense.

Definition hasChartData (totalExpense totalIncome : Z) : bool :=
  (totalExpense >? 0) || (totalIncome >? 0).

Definition visibleListTransactions
  (filteredTransactions : list Transaction) (listFilter : ListFilterType)
  : list Transaction :=
  match listFilter with
  | list_all => filteredTransactions
  | list_type ty =>
      List.filter (fun t => TransactionType_eqb (type t) ty) filteredTransactions
  end.

End Page.
Export Page.

(** ** The vocabulary of the specification *)

Module Spec.

#[global] Instance TransactionType_eq_dec : EqDecision TransactionType.
Proof. solve_decision. Defined.

(** Sum of [amount] over the records of one type, in exact arithmetic. *)
Fixpoint spec_total (ty : TransactionType) (l : list Transaction) : Z :=
  match l with
  | [] => 0
  | t :: l' =>
      (if decide (type t = ty) then amount t else 0) + spec_total ty l'
  end.

(** The size of a collection: the sum of the absolute values of its
    amounts. *)
Definition magnitude (l : list Transaction) : Z :=
  foldr (fun t s => Z.abs (amount t) + s) 0 l.

(** A Number value that holds an integer. *)
Definition is_double (z : Z) : Prop := to_double z = Num z.

(** "Every stored Transaction has amount > 0 and non-empty name." *)
Definition well_formed (t : Transaction) : Prop :=
  0 < amount t /\ name t <> [].

(** "id values are unique within the collection." *)
Definition distinct_ids (l : list Transaction) : Prop :=
  List.NoDup (List.map id l).

Definition store_invariant (l : list Transaction) : Prop :=
  Forall well_formed l /\ distinct_ids l.

(** The number of records that carry the id [i]. *)
Definition occurrences (i : jsstring) (l : list Transaction) : nat :=
  length (List.filter (fun t => bool_decide (id t = i)) l).

(** One event of the running page: a submission of the form, a click on a
    delete button, or any event that leaves the collection alone (typing
    in the form, changing the filter). *)
Inductive step : Home -> Home -> Prop :=
  | step_add ev st : step st (handleAddTransaction ev st)
  | step_delete i st : step st (handleDeleteTransaction i st)
  | step_other st st' : transactions st' = transactions st -> step st st'.

(** The same, where every submission draws an id that is not in use. *)
Inductive fresh_step : Home -> Home -> Prop :=
  | fresh_add ev st :
      ~ In (new_id ev) (List.map id (transactions st)) ->
      fresh_step st (handleAddTransaction ev st)
  | fresh_delete i st : fresh_step st (handleDeleteTransaction i st)
  | fresh_other st st' : transactions st' = transactions st -> fresh_step st st'.

(** The year and month fields of a month filter, as the filter reads
    them: the first two pieces between hyphens. *)
Definition year_field (filterMonth : jsstring) : option jsstring :=
  nth_error (split_on 45 filterMonth) 0.
Definition month_field (filterMonth : jsstring) : option jsstring :=
  nth_error (split_on 45 filterMonth) 1.

(** "absent or invalid (non-positive / not parseable)" *)
Definition absent_or_invalid (field : option jsstring) : Prop :=
  match field with
  | None => True
  | Some s => parseInt10 s = NaN \/ exists z, parseInt10 s = Num z /\ z <= 0
  end.

(** A field that reads as the positive integer [z]. *)
Definition reads_as (field : option jsstring) (z : Z) : Prop :=
  exists s, field = Some s /\ parseInt10 s = Num z /\ 0 < z.

(** The day number (days since 1970-01-01) of the calendar date
    [y]-[m]-[d] of the proleptic Gregorian calendar, [m] from 1 to 12. *)
Definition civil_day (y m d : Z) : Z :=
  DayFromYear y + days_before_month (leap y) (m - 1) + d - 1.

Definition month_length (y m : Z) : Z :=
  if m =? 2 then (if leap y then 29 else 28)
  else if (m =? 4) || (m =? 6) || (m =? 9) || (m =? 11) then 30
  else 31.

Definition is_calendar_date (y m d : Z) : Prop :=
  1 <= m <= 12 /\ 1 <= d <= month_length y m.

(** The years for which every instant of the year is a time value, and
    which [new Date(y, ...)] does not read as 1900 + y. *)
Definition plain_year (y : Z) : Prop := 100 <= y <= 275000.

Section WithRuntime.

Variable R : Runtime.

(** A zone at or east of Greenwich, less than a day ahead of UTC. *)
Definition east_of_utc : Prop := 0 <= LocalTZA R < msPerDay.

(** A fixed offset of less than a day either way. *)
Definition fixed_zone : Prop := - msPerDay < LocalTZA R < msPerDay.

(** The string [s] is the date [y]-[m]-[d]: it parses, as a date without
    a time does, to midnight UTC of that day. *)
Definition denotes_day (s : jsstring) (y m d : Z) : Prop :=
  s <> [] /\ is_calendar_date y m d /\ plain_year y
  /\ Date_parse R s = Num (civil_day y m d * msPerDay).

(** The instant at which the local clock shows [ms] milliseconds past
    midnight on the calendar date [y]-[m]-[d]. *)
Definition local_instant (y m d ms : Z) : Z :=
  civil_day y m d * msPerDay + ms - LocalTZA R.

Definition first_instant_of_day (y m d : Z) : Z := local_instant y m d 0.
Definition last_instant_of_day (y m d : Z) : Z := local_instant y m d 86399999.
Definition first_instant_of_month (y m : Z) : Z := first_instant_of_day y m 1.
Definition last_instant_of_month (y m : Z) : Z :=
  last_instant_of_day y m (month_length y m).

(** [createdAt] lies in the window from [lo] to [hi], both ends
    included. *)
Definition created_within (lo hi : Z) (t : Transaction) : bool :=
  match Date_parse R (createdAt t) with
  | Num ms => (lo <=? ms) && (ms <=? hi)
  | _ => false
  end.

(** The bounds of the date range, from the days that the two fields
    denote; [None] is an empty field. *)
Definition lower_bound (start : option (Z * Z * Z)) : number :=
  match start with
  | Some (y, m, d) => Num (first_instant_of_day y m d)
  | None => NegInfinity
  end.

Definition upper_bound (end_ : option (Z * Z * Z)) : number :=
  match end_ with
  | Some (y, m, d) => Num (last_instant_of_day y m d)
  | None => PosInfinity
  end.

Definition field_denotes (s : jsstring) (day : option (Z * Z * Z)) : Prop :=
  match day with
  | Some (y, m, d) => denotes_day s y m d
  | None => s = []
  end.

(** "start <= createdAt <= end", both bounds included. *)
Definition created_between (lo hi : number) (t : Transaction) : bool :=
  match Date_parse R (createdAt t) with
  | Num ms =>
      match lo with Num a => a <=? ms | NegInfinity => true | _ => false end
      && match hi with Num b => ms <=? b | PosInfinity => true | _ => false end
  | _ => false
  end.

(** [createdAt] is a valid timestamp. *)
Definition has_timestamp (t : Transaction) : bool :=
  negb (isNaN (Date_parse R (createdAt t))).

End WithRuntime.

End Spec.
Export Spec.

(** ** Concrete data for the examples *)

Module Examples.

Definition record (i n : jsstring) (a : Z) (ty : TransactionType) (c : jsstring)
  : Transaction :=
  {| id := i; name := n; amount := a; type := ty; createdAt := c |}.

(** A page that shows the collection [l]. *)
Definition page (l : list Transaction) (mode : FilterMode)
  (filterStart filterEnd filterMonth : jsstring) : Home :=
  {| transactions := l; form_name := []; form_amount := [];
     form_type := ChiTieu; filterMode := mode; filterStart := filterStart;
     filterEnd := filterEnd; filterMonth := filterMonth;
     listFilter := list_all |}.

(** A page whose form holds [n] and [a]. *)
Definition form (l : list Transaction) (n a : jsstring) (ty : TransactionType)
  : Home :=
  {| transactions := l; form_name := n; form_amount := a;
     form_type := ty; filterMode := all; filterStart := [];
     filterEnd := []; filterMonth := []; listFilter := list_all |}.

(** A storage area that holds the text [blob] under the key of the page. *)
Definition storage_with (blob : jsstring) : Storage :=
  {| items := {[ STORAGE_KEY := blob ]}; quota := 5000000; blocked := false |}.

Definition empty_storage : Storage :=
  {| items := ∅; quota := 5000000; blocked := false |}.

Definition coffee : Transaction :=
  record (str "1773100800000-8") (str "Coffee") 50000 ChiTieu
         (str "2026-03-10T00:00:00.000Z").
Definition salary : Transaction :=
  record (str "1773100800001-4") (str "Salary") 2000000 ThuNhap
         (str "2026-03-10T00:00:00.001Z").

(** A submission at 2026-03-10T00:00:00.000Z that draws 0.5. *)
Definition at_midnight : Submission :=
  {| Date_now := 1773100800000; Math_random := 2 ^ 52; new_Date := 1773100800000 |}.

(** A submission one millisecond later that draws 0.25. *)
Definition a_moment_later : Submission :=
  {| Date_now := 1773100800001; Math_random := 2 ^ 51; new_Date := 1773100800001 |}.

(** Two records that share an id, as a stored text may hold them. *)
Definition twin_a : Transaction :=
  record (str "a") (str "Tea") 10 ChiTieu (str "2026-03-10T00:00:00.000Z").
Definition twin_b : Transaction :=
  record (str "a") (str "Rice") 20 ChiTieu (str "2026-03-11T00:00:00.000Z").
Definition twins_blob : jsstring :=
  JSON_stringify (transactions_to_JSON [twin_a; twin_b]).

(** A stored record with no name and a zero amount. *)
Definition nameless : Transaction :=
  record (str "n") [] 0 ChiTieu (str "2026-03-10T00:00:00.000Z").
Definition nameless_blob : jsstring :=
  JSON_stringify (transactions_to_JSON [nameless]).

(** A record of December 1999 and one of December of the year 99. *)
Definition of_1999 : Transaction :=
  record (str "p") (str "Party") 99 ChiTieu (str "1999-12-15T12:00:00.000Z").
Definition of_year_99 : Transaction :=
  record (str "q") (str "Bread") 1 ChiTieu (str "0099-12-15T12:00:00.000Z").

(** The two records of the month boundary, in local time. *)
Definition last_of_january : Transaction :=
  record (str "j") (str "Rent") 100 ChiTieu (str "2026-01-31T23:59:59.999").
Definition first_of_february : Transaction :=
  record (str "f") (str "Wage") 200 ThuNhap (str "2026-02-01T00:00:00.000").

(** Two records made five hours west of UTC, at 23:59:59.999 local time on
    9 March 2026 and at 00:00:00.000 on 10 March; [createdAt] is what
    [toISOString] gives, in UTC. *)
Definition late_on_9_march : Transaction :=
  record (str "l") (str "Taxi") 30 ChiTieu (toISOString 1773118799999).
Definition early_on_10_march : Transaction :=
  record (str "e") (str "Milk") 40 ChiTieu (toISOString 1773118800000).

(** A stored record whose [createdAt] is not a date. *)
Definition undated : Transaction :=
  record (str "u") (str "Bread") 5 ChiTieu (str "yesterday").

End Examples.
Export Examples.

(** ** The input handlers of the form and of the filter panel *)

Module Controls.

(** [onChange] of the amount field: [setAmount(formatCurrencyInput(e.target.value))]. *)
Definition changeAmount (value : jsstring) (st : Home) : Home :=
  {| transactions := transactions st;
     form_name := form_name st; form_amount := formatCurrencyInput value;
     form_type := form_type st; filterMode := filterMode st;
     filterStart := filterStart st; filterEnd := filterEnd st;
     filterMonth := filterMonth st; listFilter := listFilter st |}.

(** [onChange] of the name field: [setName(e.target.value)]. *)
Definition changeName (value : jsstring) (st : Home) : Home :=
  {| transactions := transactions st;
     form_name := value; form_amount := form_amount st;
     form_type := form_type st; filterMode := filterMode st;
     filterStart := filterStart st; filterEnd := filterEnd st;
     filterMonth := filterMonth st; listFilter := listFilter st |}.

End Controls.
Export Controls.

(** ** Startup

    The two effects of the component run after the first render, in the
    order of their declaration: the first reads the stored text and, if it
    is an array, sets the collection; the second writes the collection of
    the first render, which is empty.  Setting the collection renders the
    page again, and the second effect then writes the collection that was
    read.  (Where the first effect sets nothing there is no second write;
    it would write the empty collection once more.) *)

Module Startup.

Definition mount (ls : Storage) : option (Home * Storage) :=
  st ← hydrate ls initial;
  Some (st, persist (persist ls initial) st).

(** The text of the empty collection. *)
Definition empty_text : jsstring := JSON_stringify (transactions_to_JSON []).

End Startup.
Export Startup.

(** ** Reading texts back *)

Module Readback.

(** The value of a run of hexadecimal digits, most significant first; a
    code unit that is no digit counts as zero. *)
Definition hex_digits_value (s : jsstring) : N :=
  fold_left (fun acc c => 16 * acc + default 0 (hex_value c))%N s 0%N.

(** The numerator [8 * k] of the fraction [k / 2^53 = 8 * k / 16^14] that
    the digits after ["0."] stand for. *)
Definition fraction_of_digits (s : jsstring) : N :=
  (hex_digits_value s * 16 ^ (14 - N.of_nat (length s)))%N.

(** The integer that a decimal numeral with an optional minus sign stands
    for. *)
Definition integer_of_decimal (s : jsstring) : Z :=
  match s with
  | c :: r => if (c =? 45)%N then - digits_value r else digits_value s
  | [] => 0
  end.

(** The value of the month field of a month input and of the date field of
    a date input: ["yyyy-mm"] and ["yyyy-mm-dd"]. *)
Definition month_input (y m : Z) : jsstring :=
  pad 4 (Z.to_N y) ++ str "-" ++ pad 2 (Z.to_N m).

Definition date_input (y m d : Z) : jsstring :=
  pad 4 (Z.to_N y) ++ str "-" ++ pad 2 (Z.to_N m) ++ str "-" ++ pad 2 (Z.to_N d).

(** The value of a range field: the value of a date input, or nothing. *)
Definition range_field (day : option (Z * Z * Z)) : jsstring :=
  match day with
  | Some (y, m, d) => date_input y m d
  | None => []
  end.

Definition day_of_years (lo hi : Z) (day : option (Z * Z * Z)) : Prop :=
  match day with
  | Some (y, m, d) => lo <= y <= hi /\ is_calendar_date y m d
  | None => True
  end.

(** A bound moved one day back; an absent bound stays absent. *)
Definition a_day_earlier (bound : number) : number :=
  match bound with
  | Num z => Num (z - msPerDay)
  | other => other
  end.

(** A zone west of Greenwich, less than a day behind UTC. *)
Definition west_of_utc (R : Runtime) : Prop := - msPerDay < LocalTZA R < 0.

(** One event of the running page, where the clock of every submission
    shows a year from 0 to 9999. *)
Inductive dated_step : Home -> Home -> Prop :=
  | dated_add ev st :
      0 <= YearFromTime (new_Date ev) <= 9999 ->
      dated_step st (handleAddTransaction ev st)
  | dated_delete i st : dated_step st (handleDeleteTransaction i st)
  | dated_other st st' : transactions st' = transactions st -> dated_step st st'.

(** One event of the page as the interface allows it: the amount field
    changes only through its [onChange] handler and through the reset
    after a submission. *)
Inductive typed_step : Home -> Home -> Prop :=
  | typed_add ev st : typed_step st (handleAddTransaction ev st)
  | typed_delete i st : typed_step st (handleDeleteTransaction i st)
  | typed_amount value st : typed_step st (changeAmount value st)
  | typed_other st st' :
      transactions st' = transactions st -> form_amount st' = form_amount st ->
      typed_step st st'.

End Readback.
Export Readback.

(** * Doubles that hold integers *)

Lemma pow2_split (e : Z) : 0 < e -> 2 ^ e = 2 * 2 ^ (e - 1).
Proof. intros H. rewrite <- Z.pow_succ_r by lia. f_equal. lia. Qed.

(** The shape of a rounded integer from 2^53 on. *)
Lemma round_nat_large (n : Z) :
  2 ^ 53 <= n ->
  exists e q r h,
    e = Z.log2 n - 52 /\ 0 < e /\ 0 < h /\ 2 ^ e = 2 * h
    /\ n = q * (2 * h) + r /\ 0 <= r < 2 * h /\ 2 ^ 52 <= q < 2 ^ 53
    /\ (round_nat n = q * (2 * h) /\ (r < h \/ (r = h /\ Z.even q = true))
        \/ round_nat n = (q + 1) * (2 * h) /\ (h < r \/ (r = h /\ Z.even q = false))).
Proof.
  intros Hn.
  assert (Hpos : 0 < n) by (assert (0 < 2 ^ 53) by (apply Z.pow_pos_nonneg; lia); lia).
  destruct (Z.log2_spec n Hpos) as [Hlo Hhi].
  assert (Hl : 53 <= Z.log2 n) by (apply Z.log2_le_pow2; lia).
  set (e := Z.log2 n - 52) in *.
  assert (He : 0 < e) by (unfold e; lia).
  assert (Hh : 0 < 2 ^ (e - 1)) by (apply Z.pow_pos_nonneg; lia).
  pose proof (pow2_split e He) as HP.
  assert (H52 : 2 ^ Z.log2 n = 2 ^ 52 * 2 ^ e)
    by (rewrite <- Z.pow_add_r by lia; f_equal; unfold e; lia).
  assert (H53 : 2 ^ Z.succ (Z.log2 n) = 2 ^ 53 * 2 ^ e)
    by (rewrite <- Z.pow_add_r by lia; f_equal; unfold e; lia).
  pose proof (Z.div_mod n (2 ^ e) ltac:(lia)) as Hdm.
  pose proof (Z.mod_pos_bound n (2 ^ e) ltac:(lia)) as Hr.
  exists e, (n / 2 ^ e), (n mod 2 ^ e), (2 ^ (e - 1)).
  repeat (split; [first [reflexivity | lia | exact HP]|]).
  split.
  { rewrite H52 in Hlo. rewrite H53 in Hhi. rewrite HP in *.
    set (h := 2 ^ (e - 1)) in *. set (q := n / (2 * h)) in *. 
    set (r := n mod (2 * h)) in *. clearbody h q r. nia. }
  unfold round_nat. fold e. rewrite <- HP.
  destruct (Z.leb_spec e 0); [lia|].
  destruct (Z.ltb_spec (n mod 2 ^ e) (2 ^ (e - 1))); [left; split; [reflexivity | lia]|].
  destruct (Z.ltb_spec (2 ^ (e - 1)) (n mod 2 ^ e)); [right; split; [reflexivity | lia]|].
  destruct (Z.even (n / 2 ^ e)) eqn:Ev.
  - left. split; [reflexivity | right; split; [lia | reflexivity]].
  - right. split; [reflexivity | right; split; [lia | reflexivity]].
Qed.

Lemma round_nat_small (n : Z) : n < 2 ^ 53 -> round_nat n = n.
Proof.
  intros Hn. unfold round_nat.
  destruct (Z.leb_spec (Z.log2 n - 52) 0) as [_|H]; [reflexivity|].
  exfalso. destruct (Z.le_gt_cases n 0) as [H0|H0].
  - rewrite Z.log2_nonpos in H by exact H0. lia.
  - assert (Z.log2 n < 53) by (apply Z.log2_lt_pow2; lia). lia.
Qed.

Lemma log2_pow2_mul (q e : Z) :
  0 <= e -> 2 ^ 52 <= q < 2 ^ 53 -> Z.log2 (q * 2 ^ e) = 52 + e.
Proof.
  intros He Hq. apply Z.log2_unique; [lia|].
  rewrite Z.pow_add_r, Z.pow_succ_r by lia. rewrite Z.pow_add_r by lia.
  assert (0 < 2 ^ e) by (apply Z.pow_pos_nonneg; lia). nia.
Qed.

Lemma round_nat_exact (q e : Z) :
  0 <= e -> 2 ^ 52 <= q < 2 ^ 53 -> round_nat (q * 2 ^ e) = q * 2 ^ e.
Proof.
  intros He Hq. unfold round_nat. rewrite (log2_pow2_mul q e He Hq).
  replace (52 + e - 52) with e by lia.
  destruct (Z.leb_spec e 0); [reflexivity|].
  assert (0 < 2 ^ e) by (apply Z.pow_pos_nonneg; lia).
  assert (0 < 2 ^ (e - 1)) by (apply Z.pow_pos_nonneg; lia).
  rewrite Z.mod_mul, Z.div_mul by lia.
  destruct (Z.ltb_spec 0 (2 ^ (e - 1))); [reflexivity | lia].
Qed.

Lemma round_nat_idempotent (n : Z) : round_nat (round_nat n) = round_nat n.
Proof.
  destruct (Z.lt_ge_cases n (2 ^ 53)) as [Hs|Hl].
  - rewrite (round_nat_small n Hs). apply round_nat_small. exact Hs.
  - destruct (round_nat_large n Hl)
      as (e & q & r & h & He & Hpos & Hh & HP & Hn & Hr & Hq & [[-> _]|[-> _]]);
      rewrite <- HP.
    + apply round_nat_exact; lia.
    + destruct (Z.eq_dec (q + 1) (2 ^ 53)) as [E|E].
      * rewrite E. replace (2 ^ 53 * 2 ^ e) with (2 ^ 52 * 2 ^ (e + 1)).
        -- apply round_nat_exact; [lia|]. split; [lia|]. apply Z.pow_lt_mono_r; lia.
        -- rewrite Z.pow_add_r by lia. change (2 ^ 53) with (2 ^ 52 * 2). 
           change (2 ^ 1) with 2. ring.
      * apply round_nat_exact; lia.
Qed.

Lemma round_nat_ge_53 (n : Z) : 2 ^ 53 <= n -> 2 ^ 53 <= round_nat n.
Proof.
  intros Hl.
  destruct (round_nat_large n Hl)
    as (e & q & r & h & He & Hpos & Hh & HP & Hn & Hr & Hq & [[-> _]|[-> _]]).
  - change (2 ^ 53) with (2 ^ 52 * 2). nia.
  - change (2 ^ 53) with (2 ^ 52 * 2). nia.
Qed.

Lemma round_nat_monotone (a b : Z) : a <= b -> round_nat a <= round_nat b.
Proof.
  intros Hab.
  destruct (Z.lt_ge_cases a (2 ^ 53)) as [Ha|Ha].
  { rewrite (round_nat_small a Ha).
    destruct (Z.lt_ge_cases b (2 ^ 53)) as [Hb|Hb].
    - rewrite (round_nat_small b Hb). exact Hab.
    - pose proof (round_nat_ge_53 b Hb). lia. }
  assert (Hb : 2 ^ 53 <= b) by lia.
  destruct (round_nat_large a Ha)
    as (ea & qa & ra & ha & Hea & Hposa & Hha & HPa & Hna & Hra & Hqa & Hca).
  destruct (round_nat_large b Hb)
    as (eb & qb & rb & hb & Heb & Hposb & Hhb & HPb & Hnb & Hrb & Hqb & Hcb).
  assert (Hle : ea <= eb).
  { subst ea eb. pose proof (Z.log2_le_mono a b Hab). lia. }
  destruct (Z.eq_dec ea eb) as [E|E].
  - assert (ha = hb) by (rewrite E in HPa; lia). subst hb.
    assert (qa <= qb) by nia.
    destruct (Z.eq_dec qa qb) as [Eq|Eq].
    + subst qb. assert (ra <= rb) by nia.
      destruct Hca as [[-> Hca]|[-> Hca]], Hcb as [[-> Hcb]|[-> Hcb]]; try nia.
      destruct Hca as [?|[? Hev]], Hcb as [?|[? Hev']]; try lia. congruence.
    + assert (qa + 1 <= qb) by lia.
      destruct Hca as [[-> _]|[-> _]], Hcb as [[-> _]|[-> _]]; nia.
  - assert (2 * (2 * ha) <= 2 * hb).
    { rewrite <- HPa, <- HPb. replace eb with (ea + (eb - ea)) by lia.
      rewrite Z.pow_add_r by lia.
      assert (2 ^ 1 <= 2 ^ (eb - ea)) by (apply Z.pow_le_mono_r; lia).
      change (2 ^ 1) with 2 in *. assert (0 < 2 ^ ea) by (apply Z.pow_pos_nonneg; lia).
      nia. }
    assert (round_nat a <= (qa + 1) * (2 * ha))
      by (destruct Hca as [[-> _]|[-> _]]; nia).
    assert (qb * (2 * hb) <= round_nat b)
      by (destruct Hcb as [[-> _]|[-> _]]; nia).
    assert (0 < ha) by lia.
    assert ((qa + 1) * (2 * ha) <= 2 ^ 53 * (2 * ha))
      by (apply Z.mul_le_mono_nonneg_r; lia).
    assert (2 ^ 52 * (2 * hb) <= qb * (2 * hb))
      by (apply Z.mul_le_mono_nonneg_r; lia).
    assert (2 ^ 52 * (2 * (2 * ha)) <= 2 ^ 52 * (2 * hb))
      by (apply Z.mul_le_mono_nonneg_l; lia).
    change (2 ^ 53) with (2 ^ 52 * 2) in *. lia.
Qed.

Lemma round_nat_nonneg (n : Z) : 0 <= n -> 0 <= round_nat n.
Proof.
  intros H. pose proof (round_nat_monotone 0 n H) as M.
  rewrite (round_nat_small 0) in M by reflexivity. exact M.
Qed.

Lemma round_nat_pos (n : Z) : 0 < n -> 0 < round_nat n.
Proof.
  intros H. pose proof (round_nat_monotone 1 n ltac:(lia)) as M.
  rewrite (round_nat_small 1) in M by reflexivity. lia.
Qed.

Lemma round_nat_53 : round_nat (2 ^ 53) = 2 ^ 53.
Proof. reflexivity. Qed.

Lemma round_nat_safe (n : Z) : n <= 2 ^ 53 -> round_nat n = n.
Proof.
  intros H. destruct (Z.eq_dec n (2 ^ 53)) as [->|E].
  - exact round_nat_53.
  - apply round_nat_small. lia.
Qed.

Lemma round_double_nonneg (z : Z) : 0 <= z -> round_double z = round_nat z.
Proof.
  intros H. unfold round_double. destruct (Z.eq_dec z 0) as [->|E]; [reflexivity|].
  rewrite Z.sgn_pos, Z.abs_eq by lia. lia.
Qed.

Lemma round_double_opp (z : Z) : round_double (- z) = - round_double z.
Proof. unfold round_double. rewrite Z.sgn_opp, Z.abs_opp. ring. Qed.

Lemma round_double_safe (z : Z) : Z.abs z <= 2 ^ 53 -> round_double z = z.
Proof.
  intros H. unfold round_double. rewrite round_nat_safe by exact H.
  rewrite Z.mul_comm. apply Z.abs_sgn.
Qed.

Lemma round_double_idempotent (z : Z) :
  round_double (round_double z) = round_double z.
Proof.
  destruct (Z.le_gt_cases 0 z) as [H|H].
  - rewrite (round_double_nonneg z H).
    rewrite round_double_nonneg by (apply round_nat_nonneg; exact H).
    apply round_nat_idempotent.
  - assert (E : z = - (- z)) by lia. set (w := - z) in *. assert (0 <= w) by lia.
    clearbody w. subst z. rewrite (round_double_opp w), (round_double_opp (round_double w)).
    rewrite (round_double_nonneg w) by lia.
    rewrite round_double_nonneg by (apply round_nat_nonneg; lia).
    rewrite round_nat_idempotent. reflexivity.
Qed.

Lemma round_double_monotone (a b : Z) :
  a <= b -> round_double a <= round_double b.
Proof.
  intros Hab.
  destruct (Z.le_gt_cases 0 a) as [Ha|Ha].
  - rewrite !round_double_nonneg by lia. apply round_nat_monotone. exact Hab.
  - destruct (Z.le_gt_cases 0 b) as [Hb|Hb].
    + pose proof (round_double_opp (- a)) as Oa. rewrite Z.opp_involutive in Oa.
      rewrite Oa, (round_double_nonneg (- a)), (round_double_nonneg b) by lia.
      pose proof (round_nat_nonneg (- a) ltac:(lia)).
      pose proof (round_nat_nonneg b Hb). lia.
    + pose proof (round_double_opp (- a)) as Oa. rewrite Z.opp_involutive in Oa.
      pose proof (round_double_opp (- b)) as Ob. rewrite Z.opp_involutive in Ob.
      rewrite Oa, Ob.
      rewrite (round_double_nonneg (- a)), (round_double_nonneg (- b)) by lia.
      pose proof (round_nat_monotone (- b) (- a) ltac:(lia)). lia.
Qed.

Lemma pow2_53_lt_1024 : 2 ^ 53 < 2 ^ 1024.
Proof. apply Z.pow_lt_mono_r; lia. Qed.

Lemma to_double_of_finite (z : Z) :
  - 2 ^ 1024 < round_double z < 2 ^ 1024 -> to_double z = Num (round_double z).
Proof.
  intros H. unfold to_double.
  destruct (Z.leb_spec (2 ^ 1024) (round_double z)); [lia|].
  destruct (Z.leb_spec (round_double z) (- 2 ^ 1024)); [lia|]. reflexivity.
Qed.

Lemma to_double_safe (z : Z) : Z.abs z <= 2 ^ 53 -> to_double z = Num z.
Proof.
  intros H. pose proof pow2_53_lt_1024.
  rewrite to_double_of_finite; rewrite (round_double_safe z H); [reflexivity | lia].
Qed.

(** What [to_double] returns as a number is itself a double. *)
Lemma to_double_Num (z d : Z) : to_double z = Num d -> to_double d = Num d.
Proof.
  unfold to_double at 1. cbv zeta.
  destruct (Z.leb_spec (2 ^ 1024) (round_double z)); [discriminate|].
  destruct (Z.leb_spec (round_double z) (- 2 ^ 1024)); [discriminate|].
  intros [= <-]. rewrite to_double_of_finite; rewrite round_double_idempotent;
    [reflexivity | lia].
Qed.

Lemma to_double_Num_eq (z d : Z) : to_double z = Num d -> d = round_double z.
Proof.
  unfold to_double. cbv zeta.
  destruct (2 ^ 1024 <=? round_double z); [discriminate|].
  destruct (round_double z <=? - 2 ^ 1024); [discriminate|].
  intros [= <-]. reflexivity.
Qed.

(** ** Printing *)

Lemma closest_reads_back (x : Z) (k d : nat) (v : Z) :
  closest x k d = Some v -> round_double v = x.
Proof.
  unfold closest. cbv zeta.
  destruct (Z.eqb_spec (round_double (x / 10 ^ Z.of_nat (d - k) * 10 ^ Z.of_nat (d - k))) x)
    as [Elo|Elo];
  destruct (Z.eqb_spec
              (round_double (x / 10 ^ Z.of_nat (d - k) * 10 ^ Z.of_nat (d - k)
                             + 10 ^ Z.of_nat (d - k))) x) as [Ehi|Ehi];
  cbn [andb]; repeat match goal with |- context [if ?b then _ else _] => destruct b end;
  intros [= <-]; assumption.
Qed.

Lemma closest_nonneg (x : Z) (k d : nat) (v : Z) :
  0 <= x -> closest x k d = Some v -> 0 <= v.
Proof.
  intros Hx. unfold closest. cbv zeta.
  assert (Hp : 0 < 10 ^ Z.of_nat (d - k)) by (apply Z.pow_pos_nonneg; lia).
  assert (0 <= x / 10 ^ Z.of_nat (d - k)) by (apply Z.div_pos; lia).
  repeat match goal with |- context [if ?b then _ else _] => destruct b end;
  intros [= <-]; nia.
Qed.

Lemma first_some_found {A : Type} (f : nat -> option A) (ks : list nat) (v : A) :
  first_some f ks = Some v -> exists k, f k = Some v.
Proof.
  induction ks as [|k ks IH]; simpl; [discriminate|].
  destruct (f k) eqn:E; [intros [= <-]; exists k; exact E | exact IH].
Qed.

Lemma shortest_reads_back (x : Z) :
  round_double x = x -> round_double (shortest x) = x.
Proof.
  intros Hx. unfold shortest.
  destruct (first_some _ _) as [v|] eqn:E; [|exact Hx].
  destruct (first_some_found _ _ _ E) as [k Hk].
  exact (closest_reads_back _ _ _ _ Hk).
Qed.

Lemma shortest_nonneg (x : Z) : 0 <= x -> 0 <= shortest x.
Proof.
  intros Hx. unfold shortest.
  destruct (first_some _ _) as [v|] eqn:E; [|exact Hx].
  destruct (first_some_found _ _ _ E) as [k Hk].
  exact (closest_nonneg _ _ _ _ Hx Hk).
Qed.

(** Below 2^53 a double reads back from one integer only, itself. *)
Lemma round_double_safe_inv (v x : Z) :
  0 <= v -> x < 2 ^ 53 -> round_double v = x -> v = x.
Proof.
  intros Hv Hx E. rewrite round_double_nonneg in E by exact Hv.
  destruct (Z.lt_ge_cases v (2 ^ 53)) as [Hs|Hl].
  - rewrite round_nat_small in E by exact Hs. exact E.
  - pose proof (round_nat_ge_53 v Hl). lia.
Qed.

Lemma shortest_safe (x : Z) : 0 <= x < 2 ^ 53 -> shortest x = x.
Proof.
  intros [H0 Hx].
  apply round_double_safe_inv; [apply shortest_nonneg; exact H0 | exact Hx |].
  apply shortest_reads_back. apply round_double_safe. lia.
Qed.

Lemma pow2_53_lt_10_21 : 2 ^ 53 < 10 ^ 21.
Proof. reflexivity. Qed.

Lemma Number_toString_safe (z : Z) :
  Z.abs z < 2 ^ 53 -> Number_toString z = decimal_of_Z z.
Proof.
  intros H. unfold Number_toString, decimal_of_Z. cbv zeta.
  rewrite shortest_safe by lia.
  pose proof pow2_53_lt_10_21.
  destruct (Z.ltb_spec (Z.abs z) (10 ^ 21)); [|lia].
  destruct (Z.ltb_spec z 0).
  - rewrite Z.abs_neq by lia. reflexivity.
  - rewrite Z.abs_eq by lia. reflexivity.
Qed.

Example parseInt10_year : parseInt10 (str "2026") = Num 2026.
Proof. reflexivity. Qed.
Example parseInt10_pad : parseInt10 (str "03") = Num 3.
Proof. reflexivity. Qed.
Example parseInt10_empty : parseInt10 (str "") = NaN.
Proof. reflexivity. Qed.
Example split_month : split_on 45 (str "2026-03") = [str "2026"; str "03"].
Proof. reflexivity. Qed.
Example pad_ms : pad 3 7 = str "007".
Proof. reflexivity. Qed.
Example decimal_zero : decimal_of_Z 0 = str "0".
Proof. reflexivity. Qed.

Example parse_epoch : Date_parse ho_chi_minh (str "1970-01-01T00:00:00.000Z") = Num 0.
Proof. reflexivity. Qed.
Example parse_2026 :
  Date_parse ho_chi_minh (str "2026-03-10") = Num 1773100800000.
Proof. reflexivity. Qed.
Example parse_local :
  Date_parse ho_chi_minh (str "2026-03-10T00:00:00.000") = Num (1773100800000 - 25200000).
Proof. reflexivity. Qed.
Example iso_2026 : toISOString 1773100800000 = str "2026-03-10T00:00:00.000Z".
Proof. reflexivity. Qed.
Example iso_leap : toISOString 1709164799999 = str "2024-02-28T23:59:59.999Z".
Proof. reflexivity. Qed.
Example iso_leap2 : toISOString 1709251199999 = str "2024-02-29T23:59:59.999Z".
Proof. reflexivity. Qed.
Example iso_neg : toISOString (-1) = str "1969-12-31T23:59:59.999Z".
Proof. reflexivity. Qed.
Example parse_bad : Date_parse ho_chi_minh (str "yesterday") = NaN.
Proof. reflexivity. Qed.
Example parse_dec : Date_parse ho_chi_minh (str "2026-12-31T23:59:59.999Z") = Num 1798761599999.
Proof. reflexivity. Qed.

Example random_half : random_toString16 (2 ^ 52) = str "0.8".
Proof. reflexivity. Qed.
Example random_small : random_toString16 1 = str "0.00000000000008".
Proof. reflexivity. Qed.
Example random_mixed : random_toString16 (2 ^ 53 - 1) = str "0.fffffffffffff8".
Proof. reflexivity. Qed.

Example json_parse_nested :
  JSON_parse (str "[ {" ++ quote (str "a") ++ str ": [1, -2.50e3], "
              ++ 34%N :: str "b\n" ++ 34%N :: str ": null}, true ,"
              ++ quote (str "xA") ++ str "]")
  = Some (JArray [JObject [(str "a", JArray [JNumber 1 0; JNumber (-250) 1]);
                           ([98; 10]%N, JNull)];
                  JBool true; JString (str "xA")]).
Proof. vm_compute. reflexivity. Qed.
Example json_parse_bad : JSON_parse (str "[1,]") = None.
Proof. reflexivity. Qed.
Example json_parse_leading_zero : JSON_parse (str "01") = None.
Proof. reflexivity. Qed.
Example json_stringify_ex :
  JSON_stringify
    (JArray [JObject [(str "a", JNumber 12 0); (str "b", JString [34; 10; 97]%N)];
             JNull])
  = str "[{" ++ quote (str "a") ++ str ":12," ++ quote (str "b") ++ str ":"
    ++ 34%N :: str "\" ++ 34%N :: str "\na" ++ 34%N :: str "},null]".
Proof. vm_compute. reflexivity. Qed.

Example format_amount : formatCurrencyInput (str "1234567") = str "1.234.567".
Proof. reflexivity. Qed.
Example format_amount_letters : formatCurrencyInput (str "12a3") = str "123".
Proof. reflexivity. Qed.
Example format_amount_empty : formatCurrencyInput (str "abc") = [].
Proof. reflexivity. Qed.

(** Numbers beyond 2^53: [parseInt] rounds to the nearest double, 309
    nines are Infinity, and printing uses the shortest digits. *)
Example parseInt10_rounds :
  parseInt10 (str "9007199254740993") = Num 9007199254740992
  /\ parseInt10 (str "9007199254740995") = Num 9007199254740996.
Proof. vm_compute. split; reflexivity. Qed.

Example parseInt10_overflows :
  match parseInt10 (repeat 57%N 308) with
  | Num n => Number_toString n = str "1e+308"
  | _ => False
  end
  /\ parseInt10 (repeat 57%N 309) = PosInfinity.
Proof. vm_compute. split; reflexivity. Qed.

Example format_amount_large :
  formatCurrencyInput (str "18446744073709551616") = str "18.446.744.073.709.552.000"
  /\ formatCurrencyInput (repeat 57%N 309) = [8734%N]
  /\ formatCurrencyInput [8734%N] = [].
Proof. vm_compute. repeat split; reflexivity. Qed.

Example Number_toString_large :
  Number_toString (2 ^ 53) = str "9007199254740992"
  /\ Number_toString (2 ^ 64) = str "18446744073709552000"
  /\ Number_toString (10 ^ 21) = str "1e+21"
  /\ Number_toString (2 ^ 70) = str "1.1805916207174113e+21"
  /\ Number_toString (- 2 ^ 100) = str "-1.2676506002282294e+30"
  /\ Number_toString (2 ^ 1024 - 2 ^ 971) = str "1.7976931348623157e+308".
Proof. vm_compute. repeat split; reflexivity. Qed.

Example stored_number_read :
  integer_of 1 21 = Some (10 ^ 21)
  /\ integer_of 9007199254740993 0 = Some 9007199254740992
  /\ integer_of 1 400 = None
  /\ integer_of 15 (-1) = None
  /\ integer_of 150 (-1) = Some 15.
Proof. vm_compute. repeat split; reflexivity. Qed.

(** * The aggregator *)

Lemma TransactionType_eqb_eq (a b : TransactionType) :
  TransactionType_eqb a b = true <-> a = b.
Proof. destruct a, b; simpl; split; intros H; congruence. Qed.


Lemma spec_totals_magnitude (l : list Transaction) :
  Z.abs (spec_total ChiTieu l) + Z.abs (spec_total ThuNhap l) <= magnitude l.
Proof.
  induction l as [|t l IH]; simpl; [lia|].
  destruct (type t); simpl; lia.
Qed.

Lemma spec_total_magnitude (ty : TransactionType) (l : list Transaction) :
  Z.abs (spec_total ty l) <= magnitude l.
Proof. pose proof (spec_totals_magnitude l). destruct ty; lia. Qed.










(** * Deleting *)

Lemma setTransactions_same (st : Home) (f : list Transaction -> list Transaction) :
  f (transactions st) = transactions st -> setTransactions f st = st.
Proof. destruct st; unfold setTransactions; simpl; intros ->; reflexivity. Qed.

Lemma keep_others_absent (i : jsstring) (l : list Transaction) :
  ~ In i (List.map id l) ->
  List.filter (fun t => negb (bool_decide (id t = i))) l = l.
Proof.
  induction l as [|t l IH]; simpl; intros Hn; [reflexivity|].
  destruct (bool_decide_reflect (id t = i)) as [E|E]; simpl.
  - exfalso. apply Hn. left. exact E.
  - f_equal. apply IH. intros H. apply Hn. right. exact H.
Qed.

Lemma keep_others_twice (i : jsstring) (l : list Transaction) :
  let keep := List.filter (fun t => negb (bool_decide (id t = i))) in
  keep (keep l) = keep l.
Proof.
  simpl. induction l as [|t l IH]; simpl; [reflexivity|].
  destruct (bool_decide (id t = i)) eqn:E; simpl; [exact IH|].
  rewrite E. simpl. f_equal. exact IH.
Qed.

Lemma keep_others_length (i : jsstring) (l : list Transaction) :
  length l
  = (length (List.filter (fun t => negb (bool_decide (id t = i))) l)
     + occurrences i l)%nat.
Proof.
  unfold occurrences. induction l as [|t l IH]; simpl; [reflexivity|].
  destruct (bool_decide (id t = i)); simpl; lia.
Qed.

Lemma occurrences_absent (i : jsstring) (l : list Transaction) :
  ~ In i (List.map id l) -> occurrences i l = 0%nat.
Proof.
  unfold occurrences. induction l as [|t l IH]; simpl; intros Hn; [reflexivity|].
  destruct (bool_decide_reflect (id t = i)) as [E|E].
  - exfalso. apply Hn. left. exact E.
  - apply IH. intros H. apply Hn. right. exact H.
Qed.

Lemma occurrences_distinct (i : jsstring) (l : list Transaction) :
  distinct_ids l -> (occurrences i l <= 1)%nat.
Proof.
  unfold distinct_ids.
  induction l as [|t l IH]; simpl; intros Hd.
  - unfold occurrences. simpl. lia.
  - apply List.NoDup_cons_iff in Hd. destruct Hd as [Hn Hd].
    unfold occurrences in *. simpl.
    destruct (bool_decide_reflect (id t = i)) as [E|E]; simpl.
    + subst i. fold (occurrences (id t) l). rewrite occurrences_absent by exact Hn. lia.
    + apply IH. exact Hd.
Qed.

Lemma keep_others_sublist (i : jsstring) (l : list Transaction) :
  sublist (List.filter (fun t => negb (bool_decide (id t = i))) l) l.
Proof.
  induction l as [|t l IH]; simpl.
  - constructor.
  - destruct (negb (bool_decide (id t = i))); constructor; exact IH.
Qed.

(** C6, as amended: deleting by id keeps exactly the records with another
    id, in their order; it changes nothing when no record has the id; doing
    it twice is doing it once; and the length drops by the number of
    records that carry the id, which is at most 1 when ids are distinct. *)
Theorem delete_removes_every_match (i : jsstring) (st : Home) :
  let l := transactions st in
  let l' := transactions (handleDeleteTransaction i st) in
  (forall t, In t l' <-> In t l /\ id t <> i)
  /\ (~ In i (List.map id l) -> handleDeleteTransaction i st = st)
  /\ handleDeleteTransaction i (handleDeleteTransaction i st)
     = handleDeleteTransaction i st
  /\ length l = (length l' + occurrences i l)%nat
  /\ (distinct_ids l -> (length l <= length l' + 1)%nat)
  /\ sublist l' l.
Proof.
  simpl. split; [|split; [|split; [|split; [|split]]]].
  - intros t. rewrite filter_In, negb_true_iff, bool_decide_eq_false. tauto.
  - intros H. apply setTransactions_same. apply keep_others_absent. exact H.
  - unfold handleDeleteTransaction, setTransactions. simpl.
    rewrite (keep_others_twice i). reflexivity.
  - apply keep_others_length.
  - intros Hd. pose proof (occurrences_distinct i _ Hd).
    pose proof (keep_others_length i (transactions st)). lia.
  - apply keep_others_sublist.
Qed.

(** The part of C6 that holds under distinct ids, at the two-record
    collection of the end-to-end scenario. *)
Lemma delete_removes_every_match_witness :
  distinct_ids [salary; coffee]
  /\ (length [salary; coffee]
      <= length (transactions
                   (handleDeleteTransaction (id coffee) (page [salary; coffee] all [] [] [])))
         + 1)%nat.
Proof.
  assert (Hd : distinct_ids [salary; coffee]).
  { unfold distinct_ids. simpl. repeat constructor; simpl; [|tauto].
    intros [H|[]]. vm_compute in H. discriminate H. }
  split; [exact Hd|].
  apply (delete_removes_every_match (id coffee) (page [salary; coffee] all [] [] [])).
  exact Hd.
Defined.

(** C6 as stated fails: a stored text may hold two records with one id;
    the page loads them, and one delete removes both. *)
Lemma delete_drops_two_records :
  hydrate (storage_with twins_blob) initial
  = Some (page [twin_a; twin_b] all [] [] [])
  /\ length (transactions (page [twin_a; twin_b] all [] [] [])) = 2%nat
  /\ length (transactions
               (handleDeleteTransaction (str "a") (page [twin_a; twin_b] all [] [] [])))
     = 0%nat.
Proof. vm_compute. repeat split; reflexivity. Qed.

(** * Adding *)

Lemma add_guard_rejects (ev : Submission) (st : Home) :
  negb (nonempty (trim (form_name st)))
  || isNaN (parseInt10 (remove_non_digits (form_amount st)))
  || num_le (parseInt10 (remove_non_digits (form_amount st))) (Num 0) = true ->
  handleAddTransaction ev st = st.
Proof. unfold handleAddTransaction. intros ->. reflexivity. Qed.

Lemma add_guard_accepts (ev : Submission) (st : Home) (n : Z) :
  trim (form_name st) <> [] ->
  parseInt10 (remove_non_digits (form_amount st)) = Num n ->
  0 < n ->
  handleAddTransaction ev st
  = resetForm
      (setTransactions
         (fun prev =>
            {| id := new_id ev; name := trim (form_name st); amount := n;
               type := form_type st; createdAt := toISOString (new_Date ev) |}
            :: prev) st).
Proof.
  intros Hname Hnum Hpos. unfold handleAddTransaction. rewrite Hnum.
  destruct (trim (form_name st)) as [|c s] eqn:E; [congruence|].
  simpl. destruct (Z.leb_spec n 0); [lia|]. reflexivity.
Qed.

(** C4: with an empty trimmed name, an amount without digits, or an
    amount that is not positive, a submission changes nothing: the
    collection and the form are as before, and nothing is thrown (the
    handler is a total function of the state). *)
Theorem add_rejects_invalid_input (ev : Submission) (st : Home) :
  trim (form_name st) = []
  \/ parseInt10 (remove_non_digits (form_amount st)) = NaN
  \/ (exists z, parseInt10 (remove_non_digits (form_amount st)) = Num z /\ z <= 0) ->
  handleAddTransaction ev st = st.
Proof.
  intros H. apply add_guard_rejects.
  destruct H as [H|[H|[z [H Hz]]]]; rewrite H; simpl.
  - reflexivity.
  - rewrite orb_true_r. reflexivity.
  - destruct (Z.leb_spec z 0); [|lia]. apply orb_true_r.
Qed.

Lemma add_rejects_invalid_input_witness :
  handleAddTransaction at_midnight (form [coffee] (str "  ") (str "50.000") ThuNhap)
  = form [coffee] (str "  ") (str "50.000") ThuNhap.
Proof.
  apply (add_rejects_invalid_input at_midnight
           (form [coffee] (str "  ") (str "50.000") ThuNhap)).
  left. reflexivity.
Defined.

(** C3, as amended: a submission with a non-empty trimmed name and a
    positive amount puts one new record in front of the collection; the
    record carries the trimmed name, the amount, the type of the form, the
    current time as an ISO string, and an id made of [Date.now()] and the
    hexadecimal digits of [Math.random()].  The ids stay distinct exactly
    when that id is not in use yet; the handler does not look. *)
Theorem add_prepends_new_record (ev : Submission) (st : Home) (n : Z) :
  trim (form_name st) <> [] ->
  parseInt10 (remove_non_digits (form_amount st)) = Num n ->
  0 < n ->
  let t := {| id := new_id ev; name := trim (form_name st); amount := n;
              type := form_type st; createdAt := toISOString (new_Date ev) |} in
  transactions (handleAddTransaction ev st) = t :: transactions st
  /\ length (transactions (handleAddTransaction ev st))
     = S (length (transactions st))
  /\ (distinct_ids (transactions (handleAddTransaction ev st))
      <-> ~ In (new_id ev) (List.map id (transactions st))
          /\ distinct_ids (transactions st)).
Proof.
  intros Hname Hnum Hpos t.
  rewrite (add_guard_accepts ev st n Hname Hnum Hpos). simpl.
  fold t. split; [reflexivity|]. split; [reflexivity|].
  unfold distinct_ids. simpl. apply List.NoDup_cons_iff.
Qed.

Lemma add_prepends_new_record_witness :
  transactions
    (handleAddTransaction at_midnight (form [salary] (str " Coffee ") (str "50.000") ChiTieu))
  = [coffee; salary].
Proof.
  apply (add_prepends_new_record at_midnight
           (form [salary] (str " Coffee ") (str "50.000") ChiTieu) 50000).
  - vm_compute. discriminate.
  - vm_compute. reflexivity.
  - lia.
Defined.

(** C3 as stated fails on "fresh unique id": the id is the clock reading
    and the random digits, so a submission at the clock reading and with
    the draw of a record that is already stored repeats its id. *)
Lemma add_repeats_an_id :
  let st := form [coffee] (str "Tea") (str "7.000") ChiTieu in
  trim (form_name st) <> []
  /\ parseInt10 (remove_non_digits (form_amount st)) = Num 7000
  /\ List.map id (transactions (handleAddTransaction at_midnight st))
     = [id coffee; id coffee]
  /\ ~ distinct_ids (transactions (handleAddTransaction at_midnight st)).
Proof.
  cbv zeta. split; [vm_compute; discriminate|]. split; [vm_compute; reflexivity|].
  split; [vm_compute; reflexivity|].
  intros H. unfold distinct_ids in H.
  change (List.map id (transactions (handleAddTransaction at_midnight
            (form [coffee] (str "Tea") (str "7.000") ChiTieu))))
    with (List.map id [record (new_id at_midnight) (str "Tea") 7000 ChiTieu
                         (toISOString 1773100800000); coffee]) in H.
  apply List.NoDup_cons_iff in H. destruct H as [H _]. apply H.
  left. vm_compute. reflexivity.
Qed.

(** The end-to-end scenario of the specification: Coffee, then Salary,
    then Coffee deleted by its id. *)
Example coffee_then_salary :
  let s1 := handleAddTransaction at_midnight
              (form [] (str "Coffee") (str "50.000") ChiTieu) in
  let s2 := handleAddTransaction a_moment_later
              (form (transactions s1) (str "Salary") (str "2.000.000") ThuNhap) in
  let s3 := handleDeleteTransaction (id coffee) s2 in
  let shown := filteredTransactions ho_chi_minh s2 in
  let left := filteredTransactions ho_chi_minh s3 in
  transactions s2 = [salary; coffee]
  /\ (totalExpense shown, totalIncome shown,
      balance (totalIncome shown) (totalExpense shown))
     = (50000, 2000000, 1950000)
  /\ (totalExpense left, totalIncome left,
      balance (totalIncome left) (totalExpense left))
     = (0, 2000000, 2000000).
Proof. vm_compute. repeat split; reflexivity. Qed.

(** * The invariants of the store *)

Lemma delete_keeps_invariant (i : jsstring) (l : list Transaction) :
  let l' := List.filter (fun t => negb (bool_decide (id t = i))) l in
  (Forall well_formed l -> Forall well_formed l')
  /\ (distinct_ids l -> distinct_ids l').
Proof.
  simpl. split.
  - intros H. apply List.Forall_forall. intros t Ht.
    apply filter_In in Ht. destruct Ht as [Ht _].
    rewrite List.Forall_forall in H. apply H. exact Ht.
  - unfold distinct_ids. induction l as [|t l IH]; simpl; intros Hd; [constructor|].
    apply List.NoDup_cons_iff in Hd. destruct Hd as [Hn Hd].
    destruct (negb (bool_decide (id t = i))); simpl.
    + constructor; [|apply IH; exact Hd].
      intros Hin. apply Hn. apply in_map_iff in Hin.
      destruct Hin as [u [Hu Hin]]. apply filter_In in Hin.
      apply in_map_iff. exists u. tauto.
    + apply IH. exact Hd.
Qed.

Lemma add_keeps_well_formed (ev : Submission) (st : Home) :
  Forall well_formed (transactions st) ->
  Forall well_formed (transactions (handleAddTransaction ev st)).
Proof.
  intros H. unfold handleAddTransaction.
  destruct (negb (nonempty (trim (form_name st)))) eqn:E1; simpl; [exact H|].
  destruct (parseInt10 (remove_non_digits (form_amount st))) as [| |n|] eqn:E2;
    simpl; try exact H.
  destruct (Z.leb_spec n 0); simpl; [exact H|].
  constructor; [|exact H]. split; simpl; [assumption|].
  intros E. rewrite E in E1. discriminate E1.
Qed.

Lemma add_keeps_distinct (ev : Submission) (st : Home) :
  ~ In (new_id ev) (List.map id (transactions st)) ->
  distinct_ids (transactions st) ->
  distinct_ids (transactions (handleAddTransaction ev st)).
Proof.
  intros Hn H. unfold handleAddTransaction.
  destruct (negb (nonempty (trim (form_name st)))) eqn:E1; simpl; [exact H|].
  destruct (parseInt10 (remove_non_digits (form_amount st))) as [| |n|] eqn:E2;
    simpl; try exact H.
  destruct (Z.leb_spec n 0); simpl; [exact H|].
  unfold distinct_ids. simpl. constructor; assumption.
Qed.

(** C8, as amended: the page starts with the empty collection, which
    satisfies the invariant, and it stays empty when nothing is stored;
    every event keeps "amount > 0 and non-empty name"; every event keeps
    the ids distinct as long as each submission draws an id that is not in
    use.  (What a stored text brings in is not checked.) *)
Theorem events_keep_store_invariant :
  store_invariant (transactions initial)
  /\ hydrate empty_storage initial = Some initial
  /\ (forall st st', rtc step st st' ->
        Forall well_formed (transactions st) ->
        Forall well_formed (transactions st'))
  /\ (forall st st', rtc fresh_step st st' ->
        store_invariant (transactions st) ->
        store_invariant (transactions st')).
Proof.
  split; [split; constructor|]. split; [reflexivity|]. split.
  - intros st st' Hrtc. induction Hrtc as [st|st st1 st' Hstep _ IH]; [tauto|].
    intros H. apply IH. destruct Hstep as [ev st|i st|st st1 E].
    + apply add_keeps_well_formed. exact H.
    + apply (delete_keeps_invariant i (transactions st)). exact H.
    + rewrite E. exact H.
  - intros st st' Hrtc. induction Hrtc as [st|st st1 st' Hstep _ IH]; [tauto|].
    intros [Hw Hd]. apply IH. destruct Hstep as [ev st Hfresh|i st|st st1 E].
    + split; [apply add_keeps_well_formed; exact Hw|].
      apply add_keeps_distinct; assumption.
    + split; apply (delete_keeps_invariant i (transactions st)); assumption.
    + rewrite E. split; assumption.
Qed.

Lemma events_keep_store_invariant_witness :
  store_invariant
    (transactions
       (handleAddTransaction at_midnight (form [] (str "Coffee") (str "50.000") ChiTieu))).
Proof.
  destruct events_keep_store_invariant as [Hinit [_ [_ Hrun]]].
  apply (Hrun (form [] (str "Coffee") (str "50.000") ChiTieu)).
  - apply rtc_once. apply fresh_add. simpl. tauto.
  - exact Hinit.
Defined.

(** C8 as stated fails at startup: the stored array is installed as it is.
    A record without a name and with amount 0 comes in, and so do two
    records with one id. *)
Lemma hydration_installs_invalid_records :
  hydrate (storage_with nameless_blob) initial
  = Some (page [nameless] all [] [] [])
  /\ ~ well_formed nameless
  /\ hydrate (storage_with twins_blob) initial
     = Some (page [twin_a; twin_b] all [] [] [])
  /\ ~ distinct_ids [twin_a; twin_b].
Proof.
  split; [vm_compute; reflexivity|]. split.
  - intros [H _]. vm_compute in H. discriminate H.
  - split; [vm_compute; reflexivity|].
    unfold distinct_ids. simpl. intros H.
    apply List.NoDup_cons_iff in H. destruct H as [H _]. apply H. left. reflexivity.
Qed.

(** * The filter *)

Lemma TimeClip_value (t : Z) : TimeClip t = NaN \/ TimeClip t = Num t.
Proof. unfold TimeClip. destruct (Z.abs t >? maxTime); tauto. Qed.

Lemma parse_iso_value (R : Runtime) (s : jsstring) (v : number) :
  parse_iso R s = Some v -> v = NaN \/ exists t, v = Num t.
Proof.
  unfold parse_iso.
  destruct (read_date s) as [[[[y m] d] r]|]; simpl; [|discriminate].
  destruct r as [|c r].
  - intros [= <-]. destruct (TimeClip_value (MakeDate (MakeDay y (m - 1) d) 0)) as [E|E];
      rewrite E; eauto.
  - intros H.
    assert (Ec : c = 84%N).
    { destruct c as [|p]; [discriminate H|].
      repeat (destruct p as [p|p|]; try discriminate H); reflexivity. }
    subst c.
    destruct (read_time r) as [[time r2]|]; simpl in H; [|discriminate H].
    destruct (read_offset R r2) as [off|]; simpl in H; [|discriminate H].
    injection H as <-.
    destruct (TimeClip_value (MakeDate (MakeDay y (m - 1) d) time - off)) as [E'|E'];
      rewrite E'; eauto.
Qed.

(** A time value is a number of milliseconds or NaN, never infinite. *)
Lemma Date_parse_value (R : Runtime) (s : jsstring) :
  Date_parse R s = NaN \/ exists t, Date_parse R s = Num t.
Proof.
  unfold Date_parse. destruct (parse_iso R s) as [v|] eqn:E.
  - apply (parse_iso_value R s v E).
  - destruct (legacy_parse R s) as [t|]; [|tauto].
    destruct (TimeClip_value t) as [E'|E']; rewrite E'; eauto.
Qed.

Lemma in_window_NaN (R : Runtime) (lo hi : number) (t : Transaction) :
  Date_parse R (createdAt t) = NaN -> in_window R lo hi t = false.
Proof. unfold in_window, getTime, num_ge. intros ->. destruct lo; reflexivity. Qed.

Lemma in_window_unbounded (R : Runtime) (t : Transaction) :
  in_window R NegInfinity PosInfinity t = has_timestamp R t.
Proof.
  unfold in_window, has_timestamp, getTime.
  destruct (Date_parse_value R (createdAt t)) as [E|[ms E]]; rewrite E; reflexivity.
Qed.

Lemma in_window_finite (R : Runtime) (lo hi : Z) (t : Transaction) :
  in_window R (Num lo) (Num hi) t = created_within R lo hi t.
Proof.
  unfold in_window, created_within, getTime, num_ge.
  destruct (Date_parse R (createdAt t)); reflexivity.
Qed.

Lemma filter_all_true {A : Type} (f : A -> bool) (l : list A) :
  Forall (fun x => f x = true) l -> List.filter f l = l.
Proof.
  induction 1 as [|x l Hx _ IH]; simpl; [reflexivity|].
  rewrite Hx, IH. reflexivity.
Qed.

(** C7, as amended: in range mode with neither bound set the result is the
    collection without the records whose [createdAt] is not a valid
    timestamp, in order; it is the whole collection when every
    [createdAt] is valid. *)
Theorem unbounded_range_keeps_dated_records (R : Runtime) (st : Home) :
  filterMode st = range ->
  filterStart st = [] ->
  filterEnd st = [] ->
  filteredTransactions R st = List.filter (has_timestamp R) (transactions st)
  /\ (Forall (fun t => has_timestamp R t = true) (transactions st) ->
      filteredTransactions R st = transactions st).
Proof.
  intros Hmode Hs He. unfold filteredTransactions. rewrite Hmode, Hs, He. simpl.
  assert (E : List.filter (in_window R NegInfinity PosInfinity) (transactions st)
              = List.filter (has_timestamp R) (transactions st)).
  { apply filter_ext. intros t. apply in_window_unbounded. }
  split; [exact E|].
  intros H. rewrite E. apply filter_all_true. exact H.
Qed.

Lemma unbounded_range_keeps_dated_records_witness :
  filteredTransactions ho_chi_minh (page [salary; coffee] range [] [] [])
  = [salary; coffee].
Proof.
  apply (unbounded_range_keeps_dated_records ho_chi_minh
           (page [salary; coffee] range [] [] [])); try reflexivity.
  repeat constructor.
Defined.

(** C7 as stated fails: with both bounds absent, a record whose
    [createdAt] is not a date is still filtered out. *)
Lemma unbounded_range_drops_undated_record :
  filteredTransactions ho_chi_minh (page [salary; undated; coffee] range [] [] [])
  = [salary; coffee]
  /\ filteredTransactions ho_chi_minh (page [salary; undated; coffee] range [] [] [])
     <> transactions (page [salary; undated; coffee] range [] [] []).
Proof. split; [vm_compute; reflexivity|vm_compute; discriminate]. Qed.

(** ** The fields of a month filter *)

Lemma split_on_nonempty (sep : N) (s : jsstring) : split_on sep s <> [].
Proof.
  destruct s as [|c s]; simpl; [discriminate|].
  destruct (c =? sep)%N; [discriminate|].
  destruct (split_on sep s); discriminate.
Qed.

(** No piece of a split contains the separator. *)
Lemma split_on_pieces (sep : N) (s p : jsstring) :
  In p (split_on sep s) -> ~ In sep p.
Proof.
  revert p. induction s as [|c s IH]; simpl; intros p Hp.
  - destruct Hp as [<-|[]]. intros [].
  - destruct (N.eqb_spec c sep) as [E|E].
    + destruct Hp as [<-|Hp]; [intros []|]. apply IH. exact Hp.
    + destruct (split_on sep s) as [|q qs] eqn:Es.
      * destruct Hp as [<-|[]]. intros [H|[]]. congruence.
      * destruct Hp as [<-|Hp].
        -- intros [H|H]; [congruence|]. apply (IH q); [left; reflexivity|exact H].
        -- apply IH. right. exact Hp.
Qed.

Lemma trimStart_incl (s : jsstring) (c : N) : In c (trimStart s) -> In c s.
Proof.
  induction s as [|d s IH]; simpl; [tauto|].
  destruct (is_whitespace d); simpl; tauto.
Qed.

Lemma digit_prefix_digits (s : jsstring) :
  Forall (fun c => is_digit c = true) (digit_prefix s).
Proof.
  induction s as [|c s IH]; simpl; [constructor|].
  destruct (is_digit c) eqn:E; constructor; assumption.
Qed.

Lemma digit_value_range (c : N) : is_digit c = true -> 0 <= digit_value c <= 9.
Proof.
  unfold is_digit, digit_value. rewrite andb_true_iff, !N.leb_le. lia.
Qed.

Lemma digits_value_from (ds : jsstring) (acc : Z) :
  Forall (fun c => is_digit c = true) ds ->
  0 <= acc ->
  0 <= fold_left (fun a c => 10 * a + digit_value c) ds acc.
Proof.
  intros H. revert acc. induction H as [|c ds Hc _ IH]; simpl; intros acc Hacc.
  - exact Hacc.
  - apply IH. apply digit_value_range in Hc. lia.
Qed.

(** Without a minus sign [parseInt] gives no negative number. *)
Lemma parseInt10_nonneg (s : jsstring) (z : Z) :
  ~ In 45%N s -> parseInt10 s = Num z -> 0 <= z.
Proof.
  intros Hminus. unfold parseInt10.
  assert (Hneg : match trimStart s with c :: _ => (c =? 45)%N | [] => false end = false).
  { destruct (trimStart s) as [|c r] eqn:E; [reflexivity|].
    apply N.eqb_neq. intros ->. apply Hminus. apply trimStart_incl.
    rewrite E. left. reflexivity. }
  rewrite Hneg.
  set (s2 := match trimStart s with
             | c :: r => if (c =? 45)%N || (c =? 43)%N then r else trimStart s
             | [] => []
             end).
  pose proof (digit_prefix_digits s2) as Hd.
  destruct (digit_prefix s2) as [|c ds]; [discriminate|].
  intros E. apply to_double_Num_eq in E. subst z.
  assert (0 <= digits_value (c :: ds))
    by (unfold digits_value; apply digits_value_from; [exact Hd | lia]).
  rewrite round_double_nonneg by lia. apply round_nat_nonneg. lia.
Qed.

Lemma field_nonneg (filterMonth s : jsstring) (k : nat) (z : Z) :
  nth_error (split_on 45 filterMonth) k = Some s ->
  parseInt10 s = Num z -> 0 <= z.
Proof.
  intros Hk. apply parseInt10_nonneg.
  apply (split_on_pieces 45 filterMonth). apply (nth_error_In _ k). exact Hk.
Qed.

Lemma not_opt_field (filterMonth : jsstring) (k : nat) :
  absent_or_invalid (nth_error (split_on 45 filterMonth) k) ->
  not_opt (nth_error (List.map parseInt10 (split_on 45 filterMonth)) k) = true.
Proof.
  rewrite nth_error_map.
  destruct (nth_error (split_on 45 filterMonth) k) as [s|] eqn:E; simpl; [|reflexivity].
  intros [H|[z [H Hz]]]; rewrite H; simpl; [reflexivity|].
  pose proof (field_nonneg filterMonth s k z E H). apply Z.eqb_eq. lia.
Qed.

Lemma ToNumber_field (filterMonth : jsstring) (k : nat) (z : Z) :
  reads_as (nth_error (split_on 45 filterMonth) k) z ->
  nth_error (List.map parseInt10 (split_on 45 filterMonth)) k = Some (Num z)
  /\ z <> 0.
Proof.
  intros [s [E [H Hz]]]. rewrite nth_error_map, E. simpl. rewrite H.
  split; [reflexivity|lia].
Qed.

(** Month mode with an absent or invalid year or month is no filter. *)
Lemma month_filter_fails_open (R : Runtime) (st : Home) :
  filterMode st = month ->
  absent_or_invalid (year_field (filterMonth st))
  \/ absent_or_invalid (month_field (filterMonth st)) ->
  filteredTransactions R st = transactions st.
Proof.
  intros Hmode H. unfold filteredTransactions. rewrite Hmode.
  destruct (negb (nonempty (filterMonth st))); [reflexivity|].
  destruct H as [H|H]; apply not_opt_field in H; rewrite H; simpl.
  - reflexivity.
  - rewrite orb_true_r. reflexivity.
Qed.

(** Month mode with a year [y] and a month [m] tests every record against
    the two dates that the filter builds. *)
Lemma month_filter_tests_window (R : Runtime) (st : Home) (y m : Z) :
  filterMode st = month ->
  reads_as (year_field (filterMonth st)) y ->
  reads_as (month_field (filterMonth st)) m ->
  filteredTransactions R st
  = List.filter
      (in_window R
         (Date_of_fields R (Num y) (Num (m - 1)) (Num 1) (Num 0) (Num 0) (Num 0) (Num 0))
         (Date_of_fields R (Num y) (Num m) (Num 0) (Num 23) (Num 59) (Num 59) (Num 999)))
      (transactions st).
Proof.
  intros Hmode Hy Hm. unfold filteredTransactions. rewrite Hmode.
  destruct (filterMonth st) as [|c fm] eqn:E.
  { destruct Hy as [s [Hs [Hp _]]]. injection Hs as <-. discriminate Hp. }
  change (negb (nonempty (c :: fm))) with false. cbv iota.
  apply ToNumber_field in Hy. apply ToNumber_field in Hm.
  destruct Hy as [Hy Hy0]. destruct Hm as [Hm Hm0].
  unfold year_field, month_field in *. rewrite Hy, Hm. simpl.
  apply Z.eqb_neq in Hy0. apply Z.eqb_neq in Hm0. rewrite Hy0, Hm0. reflexivity.
Qed.

(** C10: a record whose [createdAt] does not parse to a valid timestamp is
    left out in month mode with a valid year and month, and in range mode
    whatever the bounds are, absent ones included; mode [all] keeps it. *)
Theorem undated_record_is_filtered_out (R : Runtime) (st : Home) (t : Transaction) :
  In t (transactions st) ->
  Date_parse R (createdAt t) = NaN ->
  (forall y m,
     filterMode st = month ->
     reads_as (year_field (filterMonth st)) y ->
     reads_as (month_field (filterMonth st)) m ->
     ~ In t (filteredTransactions R st))
  /\ (filterMode st = range -> ~ In t (filteredTransactions R st))
  /\ (filterMode st = all -> In t (filteredTransactions R st)).
Proof.
  intros Hin Hnan. split; [|split].
  - intros y m Hmode Hy Hm. rewrite (month_filter_tests_window R st y m Hmode Hy Hm).
    rewrite filter_In, in_window_NaN by exact Hnan. intros [_ H]. discriminate H.
  - intros Hmode. unfold filteredTransactions. rewrite Hmode.
    rewrite filter_In, in_window_NaN by exact Hnan. intros [_ H]. discriminate H.
  - intros Hmode. unfold filteredTransactions. rewrite Hmode. exact Hin.
Qed.

Lemma undated_record_is_filtered_out_witness :
  ~ In undated
      (filteredTransactions ho_chi_minh (page [salary; undated; coffee] range [] [] [])).
Proof.
  destruct (undated_record_is_filtered_out ho_chi_minh
              (page [salary; undated; coffee] range [] [] []) undated)
    as [_ [H _]].
  - right. left. reflexivity.
  - vm_compute. reflexivity.
  - apply H. reflexivity.
Defined.

(** * The calendar *)

Lemma leap_spec (y : Z) :
  leap y = true <-> y mod 4 = 0 /\ (y mod 100 <> 0 \/ y mod 400 = 0).
Proof.
  unfold leap.
  rewrite andb_true_iff, orb_true_iff, negb_true_iff, !Z.eqb_eq, Z.eqb_neq. tauto.
Qed.

Lemma DayFromYear_succ (y : Z) : DayFromYear (y + 1) = DayFromYear y + DaysInYear y.
Proof.
  unfold DaysInYear. destruct (leap y) eqn:E.
  - apply leap_spec in E. unfold DayFromYear. Z.div_mod_to_equations. lia.
  - assert (~ (y mod 4 = 0 /\ (y mod 100 <> 0 \/ y mod 400 = 0)))
      by (rewrite <- leap_spec; congruence).
    unfold DayFromYear. Z.div_mod_to_equations. lia.
Qed.

Lemma DayFromYear_mono (a b : Z) : a <= b -> DayFromYear a <= DayFromYear b.
Proof. unfold DayFromYear. intros. Z.div_mod_to_equations. lia. Qed.

Lemma DayFromYear_strict (a b : Z) : a < b -> DayFromYear a < DayFromYear b.
Proof. unfold DayFromYear. intros. Z.div_mod_to_equations. lia. Qed.

(** [YearFromDay] is the year of ECMA-262: the one whose first day is the
    last first-of-January not after [d]. *)
Lemma YearFromDay_spec (d : Z) :
  DayFromYear (YearFromDay d) <= d < DayFromYear (YearFromDay d + 1).
Proof.
  unfold YearFromDay.
  set (y0 := 1970 + d * 400 / 146097).
  assert (H0 : 146097 * (y0 - 1970) <= d * 400 < 146097 * (y0 - 1970) + 146097).
  { unfold y0.
    generalize (Z.div_mod (d * 400) 146097 ltac:(lia))
               (Z.mod_pos_bound (d * 400) 146097 ltac:(lia)). lia. }
  clearbody y0.
  destruct (Z.ltb_spec d (DayFromYear y0));
    [|destruct (Z.leb_spec (DayFromYear (y0 + 1)) d)];
    unfold DayFromYear in *; Z.div_mod_to_equations; lia.
Qed.

Lemma YearFromDay_unique (y d : Z) :
  DayFromYear y <= d < DayFromYear (y + 1) -> YearFromDay d = y.
Proof.
  intros H. pose proof (YearFromDay_spec d) as S.
  destruct (Z.lt_trichotomy (YearFromDay d) y) as [L|[E|G]]; [|exact E|].
  - pose proof (DayFromYear_mono (YearFromDay d + 1) y ltac:(lia)). lia.
  - pose proof (DayFromYear_mono (y + 1) (YearFromDay d) ltac:(lia)). lia.
Qed.

Ltac month_cases m :=
  let H := fresh in
  assert (H : m = 1 \/ m = 2 \/ m = 3 \/ m = 4 \/ m = 5 \/ m = 6 \/ m = 7
              \/ m = 8 \/ m = 9 \/ m = 10 \/ m = 11 \/ m = 12) by lia;
  repeat (destruct H as [H|H]; [subst m|]); [..|subst m].

Ltac decide_comparisons :=
  repeat match goal with
         | |- context [?a <? ?b] => destruct (Z.ltb_spec a b)
         end.

Lemma civil_day_in_year (y m d : Z) :
  is_calendar_date y m d ->
  DayFromYear y <= civil_day y m d < DayFromYear (y + 1).
Proof.
  intros [Hm Hd]. rewrite DayFromYear_succ. unfold civil_day, DaysInYear.
  month_cases m; unfold month_length in Hd; simpl in *; destruct (leap y); simpl in *; lia.
Qed.

Lemma month_of_civil_day (y m d : Z) :
  is_calendar_date y m d ->
  month_of_yday (leap y) (civil_day y m d - DayFromYear y) = m - 1.
Proof.
  intros [Hm Hd]. unfold civil_day, month_of_yday.
  month_cases m; unfold month_length in Hd; simpl in *; destruct (leap y); simpl in *;
    decide_comparisons; lia.
Qed.

(** From a day number back to its calendar date. *)
Lemma fields_of_civil_day (y m d ms : Z) :
  is_calendar_date y m d ->
  0 <= ms < msPerDay ->
  let t := civil_day y m d * msPerDay + ms in
  YearFromTime t = y /\ MonthFromTime t = m - 1 /\ DateFromTime t = d.
Proof.
  intros Hc Hms t.
  assert (HD : Day t = civil_day y m d).
  { unfold Day, t, msPerDay in *. symmetry. apply (Z.div_unique _ _ _ ms); lia. }
  assert (HY : YearFromTime t = y).
  { unfold YearFromTime. rewrite HD. apply YearFromDay_unique.
    apply civil_day_in_year. exact Hc. }
  assert (HM : MonthFromTime t = m - 1).
  { unfold MonthFromTime, InLeapYear, DayWithinYear. rewrite HY, HD.
    apply month_of_civil_day. exact Hc. }
  split; [exact HY|]. split; [exact HM|].
  unfold DateFromTime, InLeapYear, DayWithinYear. rewrite HM, HY, HD.
  unfold civil_day. lia.
Qed.

Lemma MakeDay_civil (y m d : Z) :
  1 <= m <= 12 -> MakeDay y (m - 1) d = civil_day y m d.
Proof.
  intros Hm. unfold MakeDay, civil_day.
  replace ((m - 1) / 12) with 0 by (symmetry; apply Z.div_small; lia).
  rewrite Z.mod_small by lia. rewrite Z.add_0_r. reflexivity.
Qed.

(** Day 0 of the month after [m] is the last day of [m]. *)
Lemma MakeDay_day_zero (y m : Z) :
  1 <= m <= 12 -> MakeDay y m 0 = civil_day y m (month_length y m).
Proof.
  intros Hm. destruct (Z.eq_dec m 12) as [->|Hne].
  - unfold MakeDay, civil_day. change (12 / 12) with 1. change (12 mod 12) with 0.
    rewrite DayFromYear_succ. unfold DaysInYear, month_length. simpl.
    destruct (leap y), (leap (y + 1)); simpl; lia.
  - unfold MakeDay, civil_day.
    replace (m / 12) with 0 by (symmetry; apply Z.div_small; lia).
    rewrite Z.mod_small by lia. replace (y + 0) with y by lia.
    month_cases m; try lia; unfold month_length; simpl; destruct (leap y); simpl; lia.
Qed.

Lemma civil_day_bounds (y m d : Z) :
  plain_year y -> is_calendar_date y m d ->
  -683003 <= civil_day y m d < 99722525.
Proof.
  intros [Hlo Hhi] Hc. pose proof (civil_day_in_year y m d Hc) as H.
  pose proof (DayFromYear_mono 100 y Hlo) as H1.
  pose proof (DayFromYear_mono (y + 1) 275001 ltac:(lia)) as H2.
  change (DayFromYear 100) with (-683003) in H1.
  change (DayFromYear 275001) with 99722525 in H2. lia.
Qed.

Lemma TimeClip_local_instant (R : Runtime) (y m d ms : Z) :
  plain_year y -> is_calendar_date y m d -> fixed_zone R ->
  0 <= ms < msPerDay ->
  TimeClip (local_instant R y m d ms) = Num (local_instant R y m d ms).
Proof.
  intros Hy Hc Hz Hms. pose proof (civil_day_bounds y m d Hy Hc) as Hb.
  unfold TimeClip, local_instant, fixed_zone, maxTime, msPerDay in *.
  destruct (Z.gtb_spec (Z.abs (civil_day y m d * 86400000 + ms - LocalTZA R))
              8640000000000000); [lia|reflexivity].
Qed.

(** [new Date(y, m - 1, d, h, mi, s, ms)] for a calendar date of a plain
    year is that local date and time. *)
Lemma Date_of_fields_local (R : Runtime) (y m d h mi s ms : Z) :
  plain_year y -> is_calendar_date y m d -> fixed_zone R ->
  0 <= MakeTime h mi s ms < msPerDay ->
  Date_of_fields R (Num y) (Num (m - 1)) (Num d) (Num h) (Num mi) (Num s) (Num ms)
  = Num (local_instant R y m d (MakeTime h mi s ms)).
Proof.
  intros Hy Hc Hz Ht. unfold Date_of_fields.
  destruct Hy as [Hlo Hhi].
  replace ((0 <=? y) && (y <=? 99)) with false
    by (symmetry; apply andb_false_iff; right; apply Z.leb_gt; lia).
  rewrite MakeDay_civil by apply Hc.
  change (UTC R (MakeDate (civil_day y m d) (MakeTime h mi s ms)))
    with (local_instant R y m d (MakeTime h mi s ms)).
  apply TimeClip_local_instant; [split| | |]; assumption.
Qed.

(** * The month window *)

Lemma first_day_is_calendar_date (y m : Z) : 1 <= m <= 12 -> is_calendar_date y m 1.
Proof.
  intros Hm. split; [exact Hm|]. unfold month_length.
  destruct (m =? 2); [destruct (leap y); lia|].
  destruct ((m =? 4) || (m =? 6) || (m =? 9) || (m =? 11)); lia.
Qed.

Lemma last_day_is_calendar_date (y m : Z) :
  1 <= m <= 12 -> is_calendar_date y m (month_length y m).
Proof.
  intros Hm. pose proof (first_day_is_calendar_date y m Hm) as [_ H].
  split; [exact Hm|lia].
Qed.

(** The last instant of a month is the millisecond before the first
    instant of the next one. *)
Lemma last_instant_then_next_month (R : Runtime) (y m : Z) :
  1 <= m <= 12 ->
  last_instant_of_month R y m + 1
  = if m =? 12 then first_instant_of_month R (y + 1) 1
    else first_instant_of_month R y (m + 1).
Proof.
  intros Hm.
  unfold last_instant_of_month, last_instant_of_day, first_instant_of_month,
    first_instant_of_day, local_instant, msPerDay.
  rewrite <- (MakeDay_day_zero y m Hm).
  destruct (Z.eqb_spec m 12) as [->|Hne].
  - unfold MakeDay, civil_day. change (12 / 12) with 1. change (12 mod 12) with 0.
    simpl. destruct (leap (y + 1)); lia.
  - unfold MakeDay, civil_day.
    replace (m / 12) with 0 by (symmetry; apply Z.div_small; lia).
    rewrite Z.mod_small by lia. replace (m + 1 - 1) with m by lia.
    replace (y + 0) with y by lia. lia.
Qed.

(** The positive part of C1: for a year from 100 on and a month from 1 to
    12, month mode returns the records whose [createdAt] lies between the
    first and the last instant of that month of the local calendar, both
    included. *)
Lemma month_filter_is_calendar_month (R : Runtime) (st : Home) (y m : Z) :
  filterMode st = month ->
  reads_as (year_field (filterMonth st)) y ->
  reads_as (month_field (filterMonth st)) m ->
  plain_year y -> m <= 12 -> fixed_zone R ->
  filteredTransactions R st
  = List.filter
      (created_within R (first_instant_of_month R y m) (last_instant_of_month R y m))
      (transactions st).
Proof.
  intros Hmode Hy Hm Hplain Hm12 Hz.
  assert (Hm1 : 1 <= m <= 12) by (destruct Hm as [s [_ [_ H]]]; lia).
  rewrite (month_filter_tests_window R st y m Hmode Hy Hm).
  rewrite (Date_of_fields_local R y m 1 0 0 0 0 Hplain
             (first_day_is_calendar_date y m Hm1) Hz)
    by (unfold MakeTime, msPerDay, msPerHour, msPerMinute, msPerSecond; lia).
  assert (E : Date_of_fields R (Num y) (Num m) (Num 0) (Num 23) (Num 59) (Num 59) (Num 999)
              = Num (last_instant_of_month R y m)).
  { unfold Date_of_fields. destruct Hplain as [Hlo Hhi].
    replace ((0 <=? y) && (y <=? 99)) with false
      by (symmetry; apply andb_false_iff; right; apply Z.leb_gt; lia).
    rewrite (MakeDay_day_zero y m Hm1).
    change (UTC R (MakeDate (civil_day y m (month_length y m)) (MakeTime 23 59 59 999)))
      with (local_instant R y m (month_length y m) 86399999).
    apply TimeClip_local_instant;
      [split; assumption|apply last_day_is_calendar_date; exact Hm1|exact Hz|].
    unfold msPerDay. lia. }
  rewrite E. apply filter_ext. intros t. apply in_window_finite.
Qed.

Lemma month_filter_is_calendar_month_witness :
  filteredTransactions ho_chi_minh
    (page [last_of_january; first_of_february] month [] [] (str "2026-02"))
  = [first_of_february].
Proof.
  rewrite (month_filter_is_calendar_month ho_chi_minh
             (page [last_of_january; first_of_february] month [] [] (str "2026-02"))
             2026 2).
  - vm_compute. reflexivity.
  - reflexivity.
  - exists (str "2026"). split; [reflexivity|split; [reflexivity|lia]].
  - exists (str "02"). split; [reflexivity|split; [reflexivity|lia]].
  - unfold plain_year. lia.
  - lia.
  - unfold fixed_zone. vm_compute. split; reflexivity.
Defined.

(** The month boundary of the specification, in both directions. *)
Example month_boundary :
  filteredTransactions ho_chi_minh
    (page [last_of_january; first_of_february] month [] [] (str "2026-01"))
  = [last_of_january]
  /\ filteredTransactions ho_chi_minh
       (page [last_of_january; first_of_february] month [] [] (str "2026-02"))
     = [first_of_february].
Proof. split; vm_compute; reflexivity. Qed.

(** C1 at its failing input.  The filter "0099-12" has year 99 and month
    12, both valid; [new Date(99, 11, 1)] is 1 December 1999, so the record
    of December 1999 passes and the record of December 99 does not, while
    the window from the first to the last instant of (99, 12) holds the
    second record and not the first. *)
Theorem month_filter_reads_year_99_as_1999 :
  let st := page [of_1999; of_year_99] month [] [] (str "0099-12") in
  reads_as (year_field (filterMonth st)) 99
  /\ reads_as (month_field (filterMonth st)) 12
  /\ filteredTransactions ho_chi_minh st = [of_1999]
  /\ List.filter
       (created_within ho_chi_minh
          (first_instant_of_month ho_chi_minh 99 12)
          (last_instant_of_month ho_chi_minh 99 12))
       (transactions st)
     = [of_year_99].
Proof.
  cbv zeta. split; [|split].
  - exists (str "0099"). split; [reflexivity|split; [reflexivity|lia]].
  - exists (str "12"). split; [reflexivity|split; [reflexivity|lia]].
  - split; vm_compute; reflexivity.
Qed.

(** * The date range *)

Lemma in_window_between (R : Runtime) (lo hi : number) (t : Transaction) :
  in_window R lo hi t = created_between R lo hi t.
Proof.
  unfold in_window, created_between, getTime, num_ge.
  destruct (Date_parse_value R (createdAt t)) as [E|[ms E]]; rewrite E.
  - destruct lo; reflexivity.
  - destruct lo, hi; reflexivity.
Qed.

(** The local calendar fields of midnight UTC of a day, east of UTC. *)
Lemma local_fields_east (R : Runtime) (y m d : Z) :
  is_calendar_date y m d -> east_of_utc R ->
  let day := Num (civil_day y m d * msPerDay) in
  getFullYear R day = Num y /\ getMonth R day = Num (m - 1) /\ getDate R day = Num d.
Proof.
  intros Hc Hz. simpl. unfold getFullYear, getMonth, getDate, LocalTime.
  destruct (fields_of_civil_day y m d (LocalTZA R) Hc Hz) as [HY [HM HD]].
  rewrite HY, HM, HD. repeat split.
Qed.

Lemma east_is_fixed (R : Runtime) : east_of_utc R -> fixed_zone R.
Proof. unfold east_of_utc, fixed_zone, msPerDay. lia. Qed.

Lemma startOfDay_east (R : Runtime) (y m d : Z) :
  plain_year y -> is_calendar_date y m d -> east_of_utc R ->
  startOfDay R (Num (civil_day y m d * msPerDay)) = Num (first_instant_of_day R y m d).
Proof.
  intros Hy Hc Hz. unfold startOfDay.
  destruct (local_fields_east R y m d Hc Hz) as [-> [-> ->]].
  apply (Date_of_fields_local R y m d 0 0 0 0 Hy Hc (east_is_fixed R Hz)).
  unfold MakeTime, msPerDay, msPerHour, msPerMinute, msPerSecond. lia.
Qed.

Lemma endOfDay_east (R : Runtime) (y m d : Z) :
  plain_year y -> is_calendar_date y m d -> east_of_utc R ->
  endOfDay R (Num (civil_day y m d * msPerDay)) = Num (last_instant_of_day R y m d).
Proof.
  intros Hy Hc Hz. unfold endOfDay.
  destruct (local_fields_east R y m d Hc Hz) as [-> [-> ->]].
  apply (Date_of_fields_local R y m d 23 59 59 999 Hy Hc (east_is_fixed R Hz)).
  unfold MakeTime, msPerDay, msPerHour, msPerMinute, msPerSecond. lia.
Qed.

(** The positive part of C2: at or east of Greenwich, with each field
    empty or the date of a day of a year from 100 on, range mode returns
    the records with start <= createdAt <= end, where start is 00:00:00.000
    of the start day or minus infinity and end is 23:59:59.999 of the end
    day or plus infinity. *)
Lemma range_filter_east_of_utc (R : Runtime) (st : Home) (lo hi : option (Z * Z * Z)) :
  filterMode st = range ->
  east_of_utc R ->
  field_denotes R (filterStart st) lo ->
  field_denotes R (filterEnd st) hi ->
  filteredTransactions R st
  = List.filter (created_between R (lower_bound R lo) (upper_bound R hi))
      (transactions st).
Proof.
  intros Hmode Hz Hlo Hhi. unfold filteredTransactions. rewrite Hmode.
  assert (E1 : match (if nonempty (filterStart st)
                      then Some (startOfDay R (Date_parse R (filterStart st)))
                      else None) with
               | Some d => getTime d
               | None => NegInfinity
               end = lower_bound R lo).
  { destruct lo as [[[y m] d]|]; simpl in Hlo.
    - destruct Hlo as [Hne [Hc [Hy Hp]]].
      destruct (filterStart st) as [|c s]; [congruence|]. simpl nonempty. cbv iota.
      rewrite Hp. unfold getTime. apply startOfDay_east; assumption.
    - rewrite Hlo. reflexivity. }
  assert (E2 : match (if nonempty (filterEnd st)
                      then Some (endOfDay R (Date_parse R (filterEnd st)))
                      else None) with
               | Some d => getTime d
               | None => PosInfinity
               end = upper_bound R hi).
  { destruct hi as [[[y m] d]|]; simpl in Hhi.
    - destruct Hhi as [Hne [Hc [Hy Hp]]].
      destruct (filterEnd st) as [|c s]; [congruence|]. simpl nonempty. cbv iota.
      rewrite Hp. unfold getTime. apply endOfDay_east; assumption.
    - rewrite Hhi. reflexivity. }
  cbv zeta. rewrite E1, E2. apply filter_ext. intros t. apply in_window_between.
Qed.

Lemma range_filter_east_of_utc_witness :
  filteredTransactions ho_chi_minh
    (page [coffee; salary] range (str "2026-03-10") [] [])
  = [coffee; salary].
Proof.
  rewrite (range_filter_east_of_utc ho_chi_minh
             (page [coffee; salary] range (str "2026-03-10") [] [])
             (Some (2026, 3, 10)) None).
  - vm_compute. reflexivity.
  - reflexivity.
  - unfold east_of_utc. vm_compute. split; [discriminate|reflexivity].
  - split; [discriminate|]. split; [split; [lia|vm_compute; split; discriminate]|].
    split; [unfold plain_year; lia|]. vm_compute. reflexivity.
  - reflexivity.
Defined.

(** The range example of the specification, in Ho Chi Minh City: with
    start 2026-03-10 the record of 00:00:00.000 that day is in, the record
    of 23:59:59.999 the day before is out. *)
Example range_start_in_ho_chi_minh :
  filteredTransactions ho_chi_minh
    (page [record (str "a") (str "A") 1 ChiTieu (str "2026-03-10T00:00:00.000");
           record (str "b") (str "B") 1 ChiTieu (str "2026-03-09T23:59:59.999")]
       range (str "2026-03-10") [] [])
  = [record (str "a") (str "A") 1 ChiTieu (str "2026-03-10T00:00:00.000")].
Proof. vm_compute. reflexivity. Qed.

(** C2 at its failing input.  Five hours west of UTC the start date
    2026-03-10 parses to midnight UTC, which is 19:00 on 9 March local
    time; [startOfDay] then gives 00:00 local time of 9 March.  A record
    made at 23:59:59.999 local time on 9 March passes the filter, although
    it is before the first instant of the start day. *)
Theorem range_start_is_a_day_early_west_of_utc :
  let st := page [early_on_10_march; late_on_9_march] range (str "2026-03-10") [] [] in
  denotes_day utc_minus_5 (filterStart st) 2026 3 10
  /\ startOfDay utc_minus_5 (Date_parse utc_minus_5 (filterStart st))
     = Num (first_instant_of_day utc_minus_5 2026 3 9)
  /\ Date_parse utc_minus_5 (createdAt late_on_9_march)
     = Num (first_instant_of_day utc_minus_5 2026 3 10 - 1)
  /\ filteredTransactions utc_minus_5 st = [early_on_10_march; late_on_9_march]
  /\ List.filter
       (created_between utc_minus_5
          (lower_bound utc_minus_5 (Some (2026, 3, 10)))
          (upper_bound utc_minus_5 None))
       (transactions st)
     = [early_on_10_march].
Proof.
  cbv zeta. split.
  - split; [discriminate|]. split; [split; [lia|vm_compute; split; discriminate]|].
    split; [unfold plain_year; lia|]. vm_compute. reflexivity.
  - repeat split; vm_compute; reflexivity.
Qed.

(** * Persistence: the stored text is read back *)

(** ** Decimal numerals *)

Lemma uint_units_digits (d : Decimal.uint) :
  Forall (fun c => is_digit c = true) (uint_units d).
Proof. induction d; simpl; constructor; auto. Qed.

Lemma of_uint_acc_value (d : Decimal.uint) (acc : positive) :
  Z.pos (Pos.of_uint_acc d acc)
  = fold_left (fun a c => 10 * a + digit_value c) (uint_units d) (Z.pos acc).
Proof.
  revert acc. induction d; intros acc; simpl; try reflexivity;
    rewrite IHd; f_equal; unfold digit_value; simpl; lia.
Qed.

Lemma of_uint_value (d : Decimal.uint) :
  Z.of_N (Pos.of_uint d) = digits_value (uint_units d).
Proof.
  unfold digits_value. induction d; simpl; try reflexivity; try exact IHd;
    rewrite of_uint_acc_value; reflexivity.
Qed.

Lemma digits_value_decimal (n : N) : digits_value (decimal_of_N n) = Z.of_N n.
Proof.
  unfold decimal_of_N. rewrite <- of_uint_value.
  change (Pos.of_uint (N.to_uint n)) with (N.of_uint (N.to_uint n)).
  rewrite DecimalN.Unsigned.of_to. reflexivity.
Qed.

Lemma nzhead_not_D0 (d d' : Decimal.uint) : Decimal.nzhead d <> Decimal.D0 d'.
Proof. induction d; simpl; try discriminate. exact IHd. Qed.

Lemma to_uint_shape (n : N) :
  N.to_uint n = Decimal.D0 Decimal.Nil
  \/ (N.to_uint n <> Decimal.Nil /\ forall d', N.to_uint n <> Decimal.D0 d').
Proof.
  pose proof (DecimalN.Unsigned.to_of (N.to_uint n)) as H.
  rewrite DecimalN.Unsigned.of_to in H.
  unfold Decimal.unorm in H.
  destruct (Decimal.nzhead (N.to_uint n)) eqn:E; try (right; rewrite H; split; [discriminate|intros d'; discriminate]).
  - left. exact H.
  - exfalso. apply (nzhead_not_D0 _ _ E).
Qed.

(** A decimal numeral is not empty and has no leading zero, unless it is
    "0". *)
Lemma decimal_shape (n : N) :
  exists c more, decimal_of_N n = c :: more
                 /\ ((c =? 48)%N && nonempty more = false).
Proof.
  unfold decimal_of_N. destruct (to_uint_shape n) as [E|[Hn H0]].
  - rewrite E. exists 48%N, []. split; reflexivity.
  - destruct (N.to_uint n) as [|d|d|d|d|d|d|d|d|d|d]; try congruence;
      try (eexists _, _; split; [reflexivity|reflexivity]).
Qed.

Lemma digit_prefix_app (ds rest : jsstring) :
  Forall (fun c => is_digit c = true) ds ->
  match rest with c :: _ => is_digit c = false | [] => True end ->
  digit_prefix (ds ++ rest) = ds.
Proof.
  intros H Hrest. induction H as [|c ds Hc _ IH]; simpl.
  - destruct rest as [|c r]; [reflexivity|]. simpl. rewrite Hrest. reflexivity.
  - rewrite Hc, IH. reflexivity.
Qed.

Lemma decimal_digits (n : N) : Forall (fun c => is_digit c = true) (decimal_of_N n).
Proof. apply uint_units_digits. Qed.

Lemma skipn_app_length {A} (l r : list A) : skipn (length l) (l ++ r) = r.
Proof. induction l; simpl; auto. Qed.

Lemma parse_unsigned_decimal (n : N) (negative : bool) (rest : jsstring) :
  parse_unsigned negative (decimal_of_N n ++ 44%N :: rest)
  = Some (JNumber (if negative then - Z.of_N n else Z.of_N n) 0, 44%N :: rest).
Proof.
  unfold parse_unsigned.
  rewrite digit_prefix_app by (try apply decimal_digits; reflexivity).
  rewrite skipn_app_length.
  destruct (decimal_shape n) as [c [more [E Hz]]].
  pose proof (digits_value_decimal n) as Hv. rewrite E in *. rewrite Hz.
  simpl. rewrite app_nil_r, Hv. reflexivity.
Qed.

Lemma digit_is_no_sign (c : N) : is_digit c = true -> (c =? 45)%N = false.
Proof.
  unfold is_digit. rewrite andb_true_iff, !N.leb_le. intros H.
  apply N.eqb_neq. lia.
Qed.

(** The parser reads back an integer that is followed by a comma. *)
Lemma parse_number_decimal (z : Z) (rest : jsstring) :
  parse_number (decimal_of_Z z ++ 44%N :: rest) = Some (JNumber z 0, 44%N :: rest).
Proof.
  unfold decimal_of_Z. destruct (Z.ltb_spec z 0) as [Hneg|Hpos].
  - simpl. rewrite parse_unsigned_decimal, Z2N.id by lia.
    replace (- - z) with z by lia. reflexivity.
  - assert (E : parse_number (decimal_of_N (Z.to_N z) ++ 44%N :: rest)
                = parse_unsigned false (decimal_of_N (Z.to_N z) ++ 44%N :: rest)).
    { destruct (decimal_shape (Z.to_N z)) as [c [more [E _]]].
      pose proof (decimal_digits (Z.to_N z)) as Hd. rewrite E in *.
      apply Forall_inv in Hd. simpl. rewrite (digit_is_no_sign c Hd). reflexivity. }
    rewrite E, parse_unsigned_decimal, Z2N.id by lia. reflexivity.
Qed.

(** ** Numbers in exponent form *)

Lemma fold_digits_shift (ds : jsstring) (acc : Z) :
  fold_left (fun a c => 10 * a + digit_value c) ds acc
  = acc * 10 ^ Z.of_nat (length ds) + digits_value ds.
Proof.
  unfold digits_value. revert acc. induction ds as [|c ds IH]; intros acc.
  - simpl. lia.
  - cbn [fold_left length]. rewrite (IH (10 * acc + digit_value c)), (IH (10 * 0 + digit_value c)).
    rewrite Nat2Z.inj_succ, Z.pow_succ_r by lia. lia.
Qed.

Lemma digits_value_app (a b : jsstring) :
  digits_value (a ++ b) = digits_value a * 10 ^ Z.of_nat (length b) + digits_value b.
Proof.
  unfold digits_value at 1. rewrite fold_left_app.
  fold (digits_value a). apply fold_digits_shift.
Qed.

Lemma digits_value_zeros (k : nat) : digits_value (repeat 48%N k) = 0.
Proof.
  induction k as [|k IH]; [reflexivity|].
  change (repeat 48%N (S k)) with ([48%N] ++ repeat 48%N k).
  rewrite digits_value_app, IH. reflexivity.
Qed.

Lemma drop_leading_zeros_split (s : jsstring) :
  exists k, s = repeat 48%N k ++ drop_leading_zeros s.
Proof.
  induction s as [|c s [k IH]]; [exists 0%nat; reflexivity|].
  simpl. destruct (N.eqb_spec c 48) as [->|E].
  - exists (S k). simpl. f_equal. exact IH.
  - exists 0%nat. reflexivity.
Qed.

Lemma repeat_rev {A} (x : A) (k : nat) : rev (repeat x k) = repeat x k.
Proof.
  induction k as [|k IH]; [reflexivity|].
  simpl. rewrite IH. clear IH. induction k as [|k IH]; [reflexivity|].
  simpl. f_equal. exact IH.
Qed.

(** The digits of a numeral are its significant digits and then zeros. *)
Lemma significant_split (ds : jsstring) :
  exists k, ds = rev (drop_leading_zeros (rev ds)) ++ repeat 48%N k.
Proof.
  destruct (drop_leading_zeros_split (rev ds)) as [k H].
  exists k. rewrite <- (rev_involutive ds) at 1. rewrite H at 1.
  rewrite rev_app_distr, repeat_rev. reflexivity.
Qed.

Lemma significant_value (ds : jsstring) :
  let sig := rev (drop_leading_zeros (rev ds)) in
  digits_value ds = digits_value sig * 10 ^ (Z.of_nat (length ds) - Z.of_nat (length sig)).
Proof.
  intros sig. destruct (significant_split ds) as [k H]. fold sig in H.
  rewrite H at 1. rewrite digits_value_app, digits_value_zeros.
  rewrite H at 1. rewrite length_app, repeat_length.
  replace (Z.of_nat (length sig + k) - Z.of_nat (length sig)) with (Z.of_nat k) by lia.
  lia.
Qed.

Lemma not_digit_101 : is_digit 101 = false. Proof. reflexivity. Qed.
Lemma not_digit_44 : is_digit 44 = false. Proof. reflexivity. Qed.

Lemma Forall_app_l {A} (P : A -> Prop) (a b : list A) :
  List.Forall P (a ++ b) -> List.Forall P a.
Proof. intros H. apply List.Forall_app in H. tauto. Qed.

(** The parser reads a number in exponent form back as the digits and
    the exponent that were printed. *)
Lemma parse_unsigned_exponent (v : Z) (negative : bool) (rest : jsstring) :
  0 < v ->
  let ds := decimal_of_N (Z.to_N v) in
  let sig := rev (drop_leading_zeros (rev ds)) in
  parse_unsigned negative (exponent_form v ++ 44%N :: rest)
  = Some (JNumber (if negative then - digits_value sig else digits_value sig)
            (Z.of_nat (length ds - 1) - Z.of_nat (length sig - 1)),
          44%N :: rest).
Proof.
  intros Hv ds sig. unfold exponent_form. fold ds. fold sig.
  pose proof (decimal_digits (Z.to_N v)) as Hds. fold ds in Hds.
  destruct (significant_split ds) as [k Hk]. fold sig in Hk.
  assert (Hsig : List.Forall (fun c => is_digit c = true) sig)
    by (rewrite Hk in Hds; exact (Forall_app_l _ _ _ Hds)).
  destruct sig as [|d more] eqn:Esig.
  { exfalso. simpl in Hk. pose proof (digits_value_decimal (Z.to_N v)) as Hval.
    fold ds in Hval. rewrite Hk, digits_value_zeros in Hval. lia. }
  pose proof (List.Forall_inv Hsig) as Hd.
  pose proof (List.Forall_inv_tail Hsig) as Hmore.
  pose proof (decimal_digits (N.of_nat (length ds - 1))) as Hexp.
  pose proof (digits_value_decimal (N.of_nat (length ds - 1))) as Hexpv.
  set (ex := decimal_of_N (N.of_nat (length ds - 1))) in *.
  assert (Hexne : exists c r, ex = c :: r).
  { destruct (decimal_shape (N.of_nat (length ds - 1))) as [c [r [E _]]]. eauto. }
  destruct Hexne as [ec [er Eex]].
  unfold parse_unsigned.
  destruct more as [|m1 more'].
  - cbn [nonempty app]. 
    change (digit_prefix (d :: 101%N :: 43%N :: ex ++ 44%N :: rest))
      with (if is_digit d then d :: digit_prefix (101%N :: 43%N :: ex ++ 44%N :: rest) else []).
    rewrite Hd. cbn [digit_prefix is_digit N.leb N.compare Pos.compare Pos.compare_cont andb length skipn].
    cbn [nonempty andb]. rewrite andb_false_r.
    cbn [N.eqb Pos.eqb orb tl mbind option_bind].
    rewrite (digit_prefix_app ex (44%N :: rest) Hexp not_digit_44).
    clearbody ex. subst ex. cbv iota beta.
    change (S (length er)) with (length (ec :: er)). rewrite skipn_app_length.
    cbn [mbind option_bind mret option_ret app length].
    rewrite Hexpv. f_equal. f_equal. f_equal. simpl. lia.
  - cbn [nonempty].
    change ((d :: 46%N :: m1 :: more') ++ 101%N :: 43%N :: ex) 
      with (d :: 46%N :: (m1 :: more') ++ 101%N :: 43%N :: ex).
    rewrite <- !app_comm_cons. rewrite <- app_assoc. rewrite <- !app_comm_cons.
    change (digit_prefix (d :: 46%N :: m1 :: more' ++ 101%N :: 43%N :: ex ++ 44%N :: rest))
      with (if is_digit d then d :: digit_prefix (46%N :: m1 :: more' ++ 101%N :: 43%N :: ex ++ 44%N :: rest) else []).
    rewrite Hd. cbn [digit_prefix is_digit N.leb N.compare Pos.compare Pos.compare_cont andb length skipn].
    cbn [nonempty andb]. rewrite andb_false_r.
    cbn [N.eqb Pos.eqb].
    rewrite (List.Forall_inv Hmore : is_digit m1 = true).
    rewrite (digit_prefix_app more' (101%N :: 43%N :: ex ++ 44%N :: rest)
               (List.Forall_inv_tail Hmore) not_digit_101).
    rewrite skipn_app_length.
    cbn [mbind option_bind N.eqb Pos.eqb orb tl].
    rewrite (digit_prefix_app ex (44%N :: rest) Hexp not_digit_44).
    clearbody ex. subst ex. cbv iota beta.
    change (S (length er)) with (length (ec :: er)). rewrite skipn_app_length.
    cbn [mbind option_bind mret option_ret].
    rewrite Hexpv. cbn [length]. rewrite nat_N_Z.
    replace (S (S (length more')) - 1)%nat with (S (length more')) by lia.
    rewrite Z.mul_1_l. reflexivity.
Qed.

Lemma exponent_form_head (v : Z) :
  0 < v -> exists c more, exponent_form v = c :: more /\ is_digit c = true.
Proof.
  intros Hv. unfold exponent_form.
  set (ds := decimal_of_N (Z.to_N v)).
  pose proof (decimal_digits (Z.to_N v)) as Hds. fold ds in Hds.
  destruct (significant_split ds) as [k Hk].
  destruct (rev (drop_leading_zeros (rev ds))) as [|d more] eqn:E.
  - exfalso. simpl in Hk. pose proof (digits_value_decimal (Z.to_N v)) as Hval.
    fold ds in Hval. rewrite Hk, digits_value_zeros in Hval. lia.
  - rewrite Hk in Hds. apply Forall_app_l in Hds.
    eexists _, _. split; [reflexivity | exact (List.Forall_inv Hds)].
Qed.

Lemma parse_number_unsigned (c : N) (more : jsstring) :
  is_digit c = true -> parse_number (c :: more) = parse_unsigned false (c :: more).
Proof. intros H. simpl. rewrite (digit_is_no_sign c H). reflexivity. Qed.

(** The parser reads the text of a number back as the literal of
    [literal_of]. *)
Lemma parse_number_written (z : Z) (rest : jsstring) :
  parse_number (Number_toString z ++ 44%N :: rest)
  = Some (JNumber (fst (literal_of z)) (snd (literal_of z)), 44%N :: rest).
Proof.
  unfold Number_toString, literal_of. cbv zeta.
  pose proof (shortest_nonneg (Z.abs z) (Z.abs_nonneg z)) as Hv.
  set (v := shortest (Z.abs z)) in *.
  destruct (Z.ltb_spec v (10 ^ 21)) as [Hs|Hl]; cbn [fst snd].
  - destruct (Z.ltb_spec z 0) as [Hneg|Hpos]; cbn [app].
    + simpl. rewrite parse_unsigned_decimal, Z2N.id by lia.
      replace (-1 * v) with (- v) by lia. reflexivity.
    + destruct (decimal_shape (Z.to_N v)) as [c [more [E _]]].
      pose proof (decimal_digits (Z.to_N v)) as Hd. rewrite E in Hd.
      apply List.Forall_inv in Hd.
      rewrite E, <- app_comm_cons, (parse_number_unsigned c _ Hd), app_comm_cons, <- E.
      rewrite parse_unsigned_decimal, Z2N.id by lia.
      replace (1 * v) with v by lia. reflexivity.
  - assert (Hv0 : 0 < v) by (assert (0 < 10 ^ 21) by reflexivity; lia).
    destruct (Z.ltb_spec z 0) as [Hneg|Hpos]; cbn [app].
    + simpl. rewrite (parse_unsigned_exponent v true rest Hv0). cbv zeta.
      first [reflexivity | repeat f_equal; lia].
    + destruct (exponent_form_head v Hv0) as [c [more [E Hc]]].
      rewrite E, <- app_comm_cons, (parse_number_unsigned c _ Hc), app_comm_cons, <- E.
      rewrite (parse_unsigned_exponent v false rest Hv0). cbv zeta.
      first [reflexivity | repeat f_equal; lia].
Qed.

Lemma Number_toString_head (z : Z) :
  exists c more, Number_toString z = c :: more /\ (c = 45%N \/ is_digit c = true).
Proof.
  unfold Number_toString. cbv zeta.
  pose proof (shortest_nonneg (Z.abs z) (Z.abs_nonneg z)) as Hv.
  destruct (z <? 0).
  - eexists _, _. split; [reflexivity|]. left. reflexivity.
  - cbn [app]. destruct (Z.ltb_spec (shortest (Z.abs z)) (10 ^ 21)) as [Hs|Hl].
    + destruct (decimal_shape (Z.to_N (shortest (Z.abs z)))) as [c [more [E _]]].
      pose proof (decimal_digits (Z.to_N (shortest (Z.abs z)))) as Hd.
      rewrite E in Hd. apply List.Forall_inv in Hd.
      exists c, more. split; [exact E|]. right. exact Hd.
    + assert (Hv0 : 0 < shortest (Z.abs z)) by (assert (0 < 10 ^ 21) by reflexivity; lia).
      destruct (exponent_form_head _ Hv0) as [c [more [E Hc]]].
      exists c, more. split; [exact E|]. right. exact Hc.
Qed.

Lemma is_double_round (z : Z) : is_double z -> round_double z = z.
Proof. intros H. symmetry. exact (to_double_Num_eq z z H). Qed.

Lemma to_double_same_round (a b : Z) :
  round_double a = round_double b -> to_double a = to_double b.
Proof. unfold to_double. intros ->. reflexivity. Qed.

Lemma round_double_abs (z : Z) : round_double z = z -> round_double (Z.abs z) = Z.abs z.
Proof.
  intros H. destruct (Z.le_gt_cases 0 z) as [Hz|Hz].
  - rewrite Z.abs_eq by lia. exact H.
  - rewrite Z.abs_neq by lia. rewrite round_double_opp, H. reflexivity.
Qed.

(** The literal of a double denotes an integer that rounds to it. *)
Lemma integer_of_literal_of (z : Z) :
  is_double z -> integer_of (fst (literal_of z)) (snd (literal_of z)) = Some z.
Proof.
  intros Hz. pose proof (is_double_round z Hz) as Hr.
  pose proof (shortest_reads_back (Z.abs z) (round_double_abs z Hr)) as Hback.
  pose proof (shortest_nonneg (Z.abs z) (Z.abs_nonneg z)) as Hv.
  assert (Hint : literal_integer (fst (literal_of z)) (snd (literal_of z))
                 = Some ((if z <? 0 then -1 else 1) * shortest (Z.abs z))).
  { unfold literal_of. cbv zeta. set (v := shortest (Z.abs z)) in *.
    destruct (Z.ltb_spec v (10 ^ 21)) as [Hs|Hl]; cbn [fst snd]; unfold literal_integer.
    - simpl. rewrite Z.mul_1_r. reflexivity.
    - set (ds := decimal_of_N (Z.to_N v)).
      set (sig := rev (drop_leading_zeros (rev ds))).
      pose proof (significant_value ds) as Hval. cbv zeta in Hval. fold sig in Hval.
      destruct (significant_split ds) as [k Hk]. fold sig in Hk.
      assert (Hlen : length ds = (length sig + k)%nat)
        by (rewrite Hk at 1; rewrite length_app, repeat_length; reflexivity).
      assert (Hsig : (1 <= length sig)%nat).
      { destruct sig; [|simpl; lia]. exfalso. simpl in Hk.
        pose proof (digits_value_decimal (Z.to_N v)) as Hv'. fold ds in Hv'.
        rewrite Hk, digits_value_zeros in Hv'. assert (0 < 10 ^ 21) by reflexivity. lia. }
      replace (Z.of_nat (length ds - 1) - Z.of_nat (length sig - 1))
        with (Z.of_nat (length ds) - Z.of_nat (length sig)) by lia.
      destruct (Z.leb_spec 0 (Z.of_nat (length ds) - Z.of_nat (length sig))); [|lia].
      f_equal. rewrite <- Z.mul_assoc, <- Hval.
      unfold ds. rewrite digits_value_decimal, Z2N.id by lia. reflexivity. }
  unfold integer_of. rewrite Hint. cbn [mbind option_bind].
  rewrite (to_double_same_round _ z).
  - rewrite Hz. reflexivity.
  - rewrite Hr. destruct (Z.ltb_spec z 0).
    + replace (-1 * shortest (Z.abs z)) with (- shortest (Z.abs z)) by lia.
      rewrite round_double_opp, Hback. lia.
    + rewrite Z.mul_1_l, Hback. lia.
Qed.

Lemma stringify_number_double (z : Z) :
  is_double z -> stringify_number z 0 = Number_toString z.
Proof.
  intros Hz. unfold stringify_number, literal_integer. simpl.
  rewrite Z.mul_1_r, Hz. reflexivity.
Qed.

(** ** String literals *)

Lemma hex_value_digit (x : N) : (x < 16)%N -> hex_value (hex_digit x) = Some x.
Proof.
  intros Hx. unfold hex_value, hex_digit.
  destruct (N.ltb_spec x 10).
  - replace ((48 <=? 48 + x)%N && (48 + x <=? 57)%N) with true
      by (symmetry; apply andb_true_iff; rewrite !N.leb_le; lia).
    f_equal. lia.
  - replace ((48 <=? 87 + x)%N && (87 + x <=? 57)%N) with false
      by (symmetry; apply andb_false_iff; right; apply N.leb_gt; lia).
    replace ((97 <=? 87 + x)%N && (87 + x <=? 102)%N) with true
      by (symmetry; apply andb_true_iff; rewrite !N.leb_le; lia).
    f_equal. lia.
Qed.

Lemma hex4_of_hex_fixed (c : N) :
  (c < 65536)%N ->
  exists h1 h2 h3 h4,
    hex_fixed 4 c = [h1; h2; h3; h4] /\ hex4_value h1 h2 h3 h4 = Some c.
Proof.
  intros Hc.
  exists (hex_digit (c / 16 / 16 / 16 mod 16)), (hex_digit (c / 16 / 16 mod 16)),
         (hex_digit (c / 16 mod 16)), (hex_digit (c mod 16)).
  split; [reflexivity|]. unfold hex4_value.
  rewrite !hex_value_digit by (apply N.mod_lt; discriminate). simpl.
  f_equal.
  pose proof (N.div_mod c 16 ltac:(discriminate)).
  pose proof (N.div_mod (c / 16) 16 ltac:(discriminate)).
  pose proof (N.div_mod (c / 16 / 16) 16 ltac:(discriminate)).
  pose proof (N.div_mod (c / 16 / 16 / 16) 16 ltac:(discriminate)).
  assert (c / 16 / 16 / 16 / 16 = 0)%N.
  { rewrite !N.Div0.div_div. apply N.div_small. exact Hc. }
  lia.
Qed.

Lemma parse_unicode_escape (c : N) (r : jsstring) :
  (c < 65536)%N ->
  parse_string_body (unicode_escape c ++ r)
  = '(body, rest) ← parse_string_body r; Some (c :: body, rest).
Proof.
  intros Hc. destruct (hex4_of_hex_fixed c Hc) as [h1 [h2 [h3 [h4 [E Hv]]]]].
  unfold unicode_escape. rewrite E. simpl. rewrite Hv. reflexivity.
Qed.

Lemma parse_plain_unit (c : N) (r : jsstring) :
  (c =? 34)%N = false -> (c =? 92)%N = false -> (c <? 32)%N = false ->
  parse_string_body (c :: r)
  = '(body, rest) ← parse_string_body r; Some (c :: body, rest).
Proof. intros H1 H2 H3. simpl. rewrite H1, H2, H3. reflexivity. Qed.

Lemma parse_quote_unit (c : N) (r : jsstring) :
  is_high_surrogate c = false -> is_low_surrogate c = false ->
  parse_string_body (quote_unit c ++ r)
  = '(body, rest) ← parse_string_body r; Some (c :: body, rest).
Proof.
  intros _ _. unfold quote_unit.
  destruct (N.eqb_spec c 8) as [->|H8]; [reflexivity|].
  destruct (N.eqb_spec c 9) as [->|H9]; [reflexivity|].
  destruct (N.eqb_spec c 10) as [->|H10]; [reflexivity|].
  destruct (N.eqb_spec c 12) as [->|H12]; [reflexivity|].
  destruct (N.eqb_spec c 13) as [->|H13]; [reflexivity|].
  destruct (N.eqb_spec c 34) as [->|H34]; [reflexivity|].
  destruct (N.eqb_spec c 92) as [->|H92]; [reflexivity|].
  destruct (N.ltb_spec c 32) as [Hlt|Hge].
  - apply parse_unicode_escape. lia.
  - apply parse_plain_unit; [apply N.eqb_neq; exact H34|apply N.eqb_neq; exact H92|].
    apply N.ltb_ge. exact Hge.
Qed.

Lemma surrogate_is_plain (c : N) :
  is_high_surrogate c = true \/ is_low_surrogate c = true ->
  (c =? 34)%N = false /\ (c =? 92)%N = false /\ (c <? 32)%N = false /\ (c < 65536)%N.
Proof.
  unfold is_high_surrogate, is_low_surrogate.
  rewrite !andb_true_iff, !N.leb_le, !N.eqb_neq, N.ltb_ge. lia.
Qed.

Lemma quote_body_cons (c : N) (s : jsstring) :
  quote_body (c :: s)
  = if is_high_surrogate c then
      match s with
      | d :: s' =>
          if is_low_surrogate d then c :: d :: quote_body s'
          else unicode_escape c ++ quote_body s
      | [] => unicode_escape c
      end
    else if is_low_surrogate c then unicode_escape c ++ quote_body s
    else quote_unit c ++ quote_body s.
Proof. destruct s; reflexivity. Qed.

(** A printed string literal is read back. *)
Lemma parse_quote_body (s rest : jsstring) :
  parse_string_body (quote_body s ++ 34%N :: rest) = Some (s, rest).
Proof.
  remember (length s) as n eqn:Hn.
  assert (Hle : (length s <= n)%nat) by lia. clear Hn.
  revert s Hle. induction n as [|n IH]; intros s Hle.
  - destruct s; [reflexivity|simpl in Hle; lia].
  - destruct s as [|c s]; [reflexivity|]. simpl in Hle. rewrite quote_body_cons.
    destruct (is_high_surrogate c) eqn:Hh.
    + destruct (surrogate_is_plain c (or_introl Hh)) as [H1 [H2 [H3 H4]]].
      destruct s as [|d s].
      * rewrite parse_unicode_escape by exact H4. reflexivity.
      * destruct (is_low_surrogate d) eqn:Hl.
        -- destruct (surrogate_is_plain d (or_intror Hl)) as [G1 [G2 [G3 _]]].
           rewrite <- !app_comm_cons.
           rewrite parse_plain_unit by assumption.
           rewrite parse_plain_unit by assumption.
           rewrite IH by (simpl in Hle; lia). reflexivity.
        -- rewrite <- app_assoc, parse_unicode_escape by exact H4.
           rewrite IH by lia. reflexivity.
    + destruct (is_low_surrogate c) eqn:Hl.
      * destruct (surrogate_is_plain c (or_intror Hl)) as [_ [_ [_ H4]]].
        rewrite <- app_assoc, parse_unicode_escape by exact H4.
        rewrite IH by lia. reflexivity.
      * rewrite <- app_assoc, parse_quote_unit by assumption.
        rewrite IH by lia. reflexivity.
Qed.

(** ** Values, members and elements *)

Lemma quote_app (k rest : jsstring) :
  quote k ++ rest = 34%N :: quote_body k ++ 34%N :: rest.
Proof. unfold quote. simpl. rewrite <- app_assoc. reflexivity. Qed.

Lemma parse_value_string (f : nat) (v rest : jsstring) :
  parse_value (S f) (quote v ++ rest) = Some (JString v, rest).
Proof. rewrite quote_app. simpl. rewrite parse_quote_body. reflexivity. Qed.

Lemma parse_value_number (f : nat) (z : Z) (rest : jsstring) :
  parse_value (S f) (Number_toString z ++ 44%N :: rest)
  = Some (JNumber (fst (literal_of z)) (snd (literal_of z)), 44%N :: rest).
Proof.
  rewrite <- parse_number_written.
  destruct (Number_toString_head z) as [c [more [E Hc]]]. rewrite E.
  assert (H : is_json_space c = false /\ (c =? 34)%N = false /\ (c =? 91)%N = false
              /\ (c =? 123)%N = false /\ (c =? 110)%N = false
              /\ (c =? 116)%N = false /\ (c =? 102)%N = false).
  { destruct Hc as [->|Hc]; [repeat split; reflexivity|].
    unfold is_digit in Hc. apply andb_true_iff in Hc. rewrite !N.leb_le in Hc.
    unfold is_json_space. rewrite !orb_false_iff, !N.eqb_neq. lia. }
  destruct H as [H0 [H1 [H2 [H3 [H4 [H5 H6]]]]]].
  simpl. rewrite H0, H1, H2, H3, H4, H5, H6. reflexivity.
Qed.

Lemma parse_members_more (f : nat) (k vtext more : jsstring) (v : JSON)
  (ms : list (jsstring * JSON)) (rest : jsstring) :
  parse_value f (vtext ++ 44%N :: more) = Some (v, 44%N :: more) ->
  parse_members f more = Some (ms, rest) ->
  parse_members (S f) (quote k ++ 58%N :: vtext ++ 44%N :: more)
  = Some ((k, v) :: ms, rest).
Proof.
  intros Hv Hms. rewrite quote_app. simpl. rewrite parse_quote_body. simpl.
  rewrite Hv. simpl. rewrite Hms. reflexivity.
Qed.

Lemma parse_members_last (f : nat) (k vtext : jsstring) (v : JSON) (rest : jsstring) :
  parse_value f (vtext ++ 125%N :: rest) = Some (v, 125%N :: rest) ->
  parse_members (S f) (quote k ++ 58%N :: vtext ++ 125%N :: rest)
  = Some ([(k, v)], rest).
Proof.
  intros Hv. rewrite quote_app. simpl. rewrite parse_quote_body. simpl.
  rewrite Hv. reflexivity.
Qed.

Lemma transaction_text_eq (t : Transaction) (rest : jsstring) :
  is_double (amount t) ->
  transaction_text t ++ rest
  = 123%N :: quote (str "id") ++ 58%N :: quote (id t) ++ 44%N
    :: quote (str "name") ++ 58%N :: quote (name t) ++ 44%N
    :: quote (str "amount") ++ 58%N :: Number_toString (amount t) ++ 44%N
    :: quote (str "type") ++ 58%N :: quote (TransactionType_literal (type t)) ++ 44%N
    :: quote (str "createdAt") ++ 58%N :: quote (createdAt t) ++ 125%N :: rest.
Proof.
  intros Hd. unfold transaction_text, transaction_to_JSON.
  cbn [JSON_stringify List.map join fst snd]. rewrite (stringify_number_double _ Hd).
  repeat (rewrite <- ?app_assoc, <- ?app_comm_cons). reflexivity.
Qed.

(** The text of one record is read back as the record's object. *)
Lemma parse_transaction_text (f : nat) (t : Transaction) (rest : jsstring) :
  is_double (amount t) ->
  parse_value (7 + f) (transaction_text t ++ rest) = Some (transaction_as_read t, rest).
Proof.
  intros Hd. rewrite (transaction_text_eq t rest Hd).
  change (7 + f)%nat with (S (S (S (S (S (S (S f))))))).
  assert (Hm : parse_members (S (S (S (S (S (S f))))))
                 (quote (str "id") ++ 58%N :: quote (id t) ++ 44%N
                  :: quote (str "name") ++ 58%N :: quote (name t) ++ 44%N
                  :: quote (str "amount") ++ 58%N :: Number_toString (amount t) ++ 44%N
                  :: quote (str "type") ++ 58%N
                  :: quote (TransactionType_literal (type t)) ++ 44%N
                  :: quote (str "createdAt") ++ 58%N :: quote (createdAt t)
                  ++ 125%N :: rest)
               = Some ([ (str "id", JString (id t));
                         (str "name", JString (name t));
                         (str "amount",
                          JNumber (fst (literal_of (amount t))) (snd (literal_of (amount t))));
                         (str "type", JString (TransactionType_literal (type t)));
                         (str "createdAt", JString (createdAt t)) ], rest)).
  { apply parse_members_more; [apply parse_value_string|].
    apply parse_members_more; [apply parse_value_string|].
    apply parse_members_more; [apply parse_value_number|].
    apply parse_members_more; [apply parse_value_string|].
    apply parse_members_last. apply parse_value_string. }
  remember (S (S (S (S (S (S f)))))) as f6.
  remember (quote (str "id") ++ 58%N :: quote (id t) ++ 44%N
            :: quote (str "name") ++ 58%N :: quote (name t) ++ 44%N
            :: quote (str "amount") ++ 58%N :: Number_toString (amount t) ++ 44%N
            :: quote (str "type") ++ 58%N
            :: quote (TransactionType_literal (type t)) ++ 44%N
            :: quote (str "createdAt") ++ 58%N :: quote (createdAt t)
            ++ 125%N :: rest) as body eqn:Hbody.
  assert (Hhead : exists r, body = 34%N :: r).
  { rewrite Hbody, quote_app. eexists. reflexivity. }
  destruct Hhead as [r Hr].
  cbn [parse_value skip_space is_json_space N.eqb Pos.eqb orb].
  rewrite Hr. cbn [skip_space is_json_space N.eqb Pos.eqb orb]. rewrite <- Hr.
  rewrite Hm. reflexivity.
Qed.

Lemma transaction_text_head (t : Transaction) :
  exists r, transaction_text t = 123%N :: 34%N :: r.
Proof.
  unfold transaction_text, transaction_to_JSON.
  cbn [JSON_stringify List.map join fst snd]. unfold quote at 1. cbn [app].
  eexists. reflexivity.
Qed.

Lemma parse_elements_transactions (l : list Transaction) (f : nat) (rest : jsstring) :
  l <> [] ->
  List.Forall (fun t => is_double (amount t)) l ->
  parse_elements (length l + 7 + f) (join 44 (List.map transaction_text l) ++ 93%N :: rest)
  = Some (List.map transaction_as_read l, rest).
Proof.
  induction l as [|t l IH]; intros Hne Hd; [congruence|].
  pose proof (List.Forall_inv Hd) as Ht. pose proof (List.Forall_inv_tail Hd) as Hl.
  destruct l as [|t' l].
  - change (length [t] + 7 + f)%nat with (S (7 + f)).
    cbn [List.map join parse_elements].
    rewrite (parse_transaction_text f t (93%N :: rest) Ht). reflexivity.
  - change (join 44 (List.map transaction_text (t :: t' :: l)))
      with (transaction_text t ++ 44%N :: join 44 (List.map transaction_text (t' :: l))).
    rewrite <- app_assoc, <- app_comm_cons.
    change (length (t :: t' :: l) + 7 + f)%nat
      with (S (length (t' :: l) + 7 + f)).
    cbn [parse_elements].
    replace (length (t' :: l) + 7 + f)%nat with (7 + (length (t' :: l) + f))%nat at 1 by lia.
    rewrite parse_transaction_text by exact Ht.
    cbn [mbind option_bind skip_space is_json_space N.eqb Pos.eqb orb].
    rewrite IH by (discriminate || exact Hl). reflexivity.
Qed.

Lemma transaction_text_length (t : Transaction) : (2 <= length (transaction_text t))%nat.
Proof. destruct (transaction_text_head t) as [r ->]. simpl. lia. Qed.

Lemma join_length (l : list Transaction) :
  (2 * length l <= length (join 44 (List.map transaction_text l)))%nat.
Proof.
  induction l as [|t l IH]; [simpl; lia|].
  pose proof (transaction_text_length t).
  destruct l as [|t' l]; [simpl in *; lia|].
  change (join 44 (List.map transaction_text (t :: t' :: l)))
    with (transaction_text t ++ 44%N :: join 44 (List.map transaction_text (t' :: l))).
  rewrite length_app. simpl length in *. lia.
Qed.

Lemma stringify_transactions (l : list Transaction) :
  JSON_stringify (transactions_to_JSON l)
  = 91%N :: join 44 (List.map transaction_text l) ++ [93%N].
Proof.
  unfold transactions_to_JSON. cbn [JSON_stringify]. rewrite List.map_map. reflexivity.
Qed.

(** [JSON.parse] reads the text of a collection back as its array. *)
Lemma parse_stringified_transactions (l : list Transaction) :
  List.Forall (fun t => is_double (amount t)) l ->
  JSON_parse (JSON_stringify (transactions_to_JSON l))
  = Some (JArray (List.map transaction_as_read l)).
Proof.
  intros Hd. destruct l as [|t l]; [reflexivity|].
  rewrite stringify_transactions. unfold JSON_parse.
  set (body := join 44 (List.map transaction_text (t :: l))).
  pose proof (join_length (t :: l)) as Hlen. fold body in Hlen. simpl length in Hlen.
  assert (Hhead : exists r, body ++ [93%N] = 123%N :: r).
  { unfold body. destruct (transaction_text_head t) as [r Hr].
    destruct l; cbn [List.map join]; rewrite Hr; eexists; reflexivity. }
  destruct Hhead as [r Hr].
  replace (2 * length (91%N :: body ++ [93%N]) + 2)%nat
    with (S (length (t :: l) + 7 + (2 * length body - length l + 4 - 7)))%nat
    by (simpl length; rewrite length_app; simpl length; lia).
  cbn [parse_value skip_space is_json_space N.eqb Pos.eqb orb].
  rewrite Hr. cbn [skip_space is_json_space N.eqb Pos.eqb orb]. rewrite <- Hr.
  unfold body. rewrite parse_elements_transactions by (discriminate || exact Hd).
  reflexivity.
Qed.

Lemma literal_roundtrip (ty : TransactionType) :
  TransactionType_of_literal (TransactionType_literal ty) = Some ty.
Proof. destruct ty; vm_compute; reflexivity. Qed.

Lemma transaction_of_as_read (t : Transaction) :
  is_double (amount t) -> transaction_of_JSON (transaction_as_read t) = Some t.
Proof.
  intros Hd. destruct t as [i n a ty c]. unfold transaction_as_read, transaction_of_JSON.
  cbn [id name amount type createdAt] in *.
  change (member (str "id") _) with (Some (JString i)) at 1.
  change (member (str "name") _) with (Some (JString n)) at 1.
  change (member (str "amount") _)
    with (Some (JNumber (fst (literal_of a)) (snd (literal_of a)))) at 1.
  change (member (str "type") _) with (Some (JString (TransactionType_literal ty))) at 1.
  change (member (str "createdAt") _) with (Some (JString c)) at 1.
  cbv beta iota. rewrite (integer_of_literal_of a Hd). cbn [mbind option_bind].
  rewrite literal_roundtrip. reflexivity.
Qed.

Lemma transactions_of_as_read (l : list Transaction) :
  List.Forall (fun t => is_double (amount t)) l ->
  transactions_of_JSON (JArray (List.map transaction_as_read l)) = Some l.
Proof.
  unfold transactions_of_JSON.
  induction 1 as [|t l Ht _ IH]; [reflexivity|].
  cbn [List.map mapM]. rewrite (transaction_of_as_read t Ht). cbn [mbind option_bind].
  rewrite IH. reflexivity.
Qed.

(** ** The store *)

Lemma hydrate_stored_text (ls : Storage) (st0 : Home) (l : list Transaction) :
  List.Forall (fun t => is_double (amount t)) l ->
  blocked ls = false ->
  items ls !! STORAGE_KEY = Some (JSON_stringify (transactions_to_JSON l)) ->
  hydrate ls st0 = Some (setTransactions (fun _ => l) st0).
Proof.
  intros Hd Hb Hget. unfold hydrate, getItem. rewrite Hb, Hget.
  replace (nonempty (JSON_stringify (transactions_to_JSON l))) with true
    by (rewrite stringify_transactions; reflexivity).
  rewrite (parse_stringified_transactions l Hd).
  cbn [Array_isArray]. rewrite (transactions_of_as_read l Hd). reflexivity.
Qed.



(** * Further properties of the page *)

(** ** Submitting and deleting *)

Lemma add_outcome (ev : Submission) (st : Home) :
  handleAddTransaction ev st = st
  \/ exists t, handleAddTransaction ev st
               = resetForm (setTransactions (fun prev => t :: prev) st)
               /\ id t = new_id ev.
Proof.
  unfold handleAddTransaction.
  destruct (negb (nonempty (trim (form_name st)))
            || isNaN (parseInt10 (remove_non_digits (form_amount st)))
            || num_le (parseInt10 (remove_non_digits (form_amount st))) (Num 0));
    [left; reflexivity|].
  destruct (parseInt10 (remove_non_digits (form_amount st))) as [| |n|];
    try (left; reflexivity).
  right. eexists. split; reflexivity.
Qed.

(** X1: a submission right after another one changes nothing.  After a
    successful add the form is empty, so a second submit (a double click,
    the Enter key held down) cannot add the record twice. *)
Theorem second_submit_changes_nothing (ev1 ev2 : Submission) (st : Home) :
  handleAddTransaction ev2 (handleAddTransaction ev1 st)
  = handleAddTransaction ev1 st.
Proof.
  remember (handleAddTransaction ev1 st) as s1 eqn:E1.
  unfold handleAddTransaction in E1.
  destruct (negb (nonempty (trim (form_name st)))
            || isNaN (parseInt10 (remove_non_digits (form_amount st)))
            || num_le (parseInt10 (remove_non_digits (form_amount st))) (Num 0)) eqn:G.
  - subst s1. unfold handleAddTransaction. rewrite G. reflexivity.
  - destruct (parseInt10 (remove_non_digits (form_amount st))) as [| |n|] eqn:P;
      subst s1; try (unfold handleAddTransaction; rewrite P, G; reflexivity).
    reflexivity.
Qed.

(** X2: deleting the id that a submission has just used undoes the
    submission when the id was new to the collection. *)
Theorem delete_undoes_add (ev : Submission) (st : Home) :
  ~ In (new_id ev) (List.map id (transactions st)) ->
  transactions (handleDeleteTransaction (new_id ev) (handleAddTransaction ev st))
  = transactions st.
Proof.
  intros Hfresh. destruct (add_outcome ev st) as [E|[t [E Ht]]]; rewrite E; simpl.
  - apply keep_others_absent. exact Hfresh.
  - rewrite Ht. rewrite bool_decide_eq_true_2 by reflexivity. simpl.
    apply keep_others_absent. exact Hfresh.
Qed.

Lemma delete_undoes_add_witness :
  transactions
    (handleDeleteTransaction (new_id at_midnight)
       (handleAddTransaction at_midnight (form [salary] (str "Coffee") (str "50.000") ChiTieu)))
  = [salary].
Proof.
  apply (delete_undoes_add at_midnight (form [salary] (str "Coffee") (str "50.000") ChiTieu)).
  simpl. intros [H|[]]. vm_compute in H. discriminate H.
Defined.

Lemma filter_filter_comm {A : Type} (f g : A -> bool) (l : list A) :
  List.filter f (List.filter g l) = List.filter g (List.filter f l).
Proof.
  induction l as [|x l IH]; simpl; [reflexivity|].
  destruct (f x) eqn:Ef, (g x) eqn:Eg; simpl; rewrite ?Ef, ?Eg, IH; reflexivity.
Qed.

(** X3: deletes commute: the records left after deleting two ids do not
    depend on the order of the two clicks, and neither does the rest of
    the state. *)
Theorem deletes_commute (i j : jsstring) (st : Home) :
  handleDeleteTransaction i (handleDeleteTransaction j st)
  = handleDeleteTransaction j (handleDeleteTransaction i st).
Proof.
  unfold handleDeleteTransaction, setTransactions. simpl.
  rewrite filter_filter_comm. reflexivity.
Qed.

(** ** What the page shows *)

Lemma filter_sublist {A : Type} (f : A -> bool) (l : list A) :
  sublist (List.filter f l) l.
Proof.
  induction l as [|x l IH]; simpl; [constructor|].
  destruct (f x); constructor; exact IH.
Qed.

Lemma filtered_is_sublist (R : Runtime) (st : Home) :
  sublist (filteredTransactions R st) (transactions st).
Proof.
  unfold filteredTransactions. destruct (filterMode st).
  - reflexivity.
  - apply filter_sublist.
  - destruct (negb (nonempty (filterMonth st))); [reflexivity|].
    destruct (not_opt _ || not_opt _); [reflexivity|apply filter_sublist].
Qed.

Lemma visible_is_sublist (l : list Transaction) (lf : ListFilterType) :
  sublist (visibleListTransactions l lf) l.
Proof.
  unfold visibleListTransactions. destruct lf; [reflexivity|apply filter_sublist].
Qed.

(** X4: whatever the filter settings and the time zone are, the filtered
    list and the visible list are made of records of the collection, in
    the order of the collection, each at most as often as it is stored; so
    the counter "shown / all" never shows more than all. *)
Theorem shown_records_are_stored (R : Runtime) (st : Home) :
  sublist (filteredTransactions R st) (transactions st)
  /\ sublist (visibleListTransactions (filteredTransactions R st) (listFilter st))
       (filteredTransactions R st)
  /\ (length (visibleListTransactions (filteredTransactions R st) (listFilter st))
      <= length (filteredTransactions R st) <= length (transactions st))%nat.
Proof.
  pose proof (filtered_is_sublist R st) as H1.
  pose proof (visible_is_sublist (filteredTransactions R st) (listFilter st)) as H2.
  split; [exact H1|]. split; [exact H2|].
  split; apply sublist_length; assumption.
Qed.



Lemma fold_amounts_pos (l : list Transaction) (acc : Z) :
  0 < acc -> Forall (fun t => 0 < amount t) l ->
  0 < fold_left (fun sum t => double_add sum (amount t)) l acc.
Proof.
  intros Hacc H. revert acc Hacc.
  induction H as [|t l Ht _ IH]; intros acc Hacc; simpl; [exact Hacc|].
  apply IH. unfold double_add. rewrite round_double_nonneg by lia.
  apply round_nat_pos. lia.
Qed.

(** A sum of positive amounts is positive, rounded or not. *)
Lemma sum_amounts_pos (t : Transaction) (l : list Transaction) :
  Forall (fun t => 0 < amount t) (t :: l) -> 0 < sum_amounts (t :: l).
Proof.
  intros H. apply Forall_cons in H. destruct H as [Ht Hl].
  unfold sum_amounts. simpl. apply fold_amounts_pos; [|exact Hl].
  unfold double_add. rewrite round_double_nonneg by lia. apply round_nat_pos. lia.
Qed.

Lemma Forall_filter_keeps {A : Type} (P : A -> Prop) (f : A -> bool) (l : list A) :
  Forall P l -> Forall P (List.filter f l).
Proof.
  induction 1 as [|x l Hx _ IH]; simpl; [constructor|].
  destruct (f x); [constructor; assumption | exact IH].
Qed.

(** X6: when every amount is positive, the chart is replaced by its
    placeholder exactly when the filtered list is empty. *)
Theorem chart_shown_iff_something_filtered (l : list Transaction) :
  Forall (fun t => 0 < amount t) l ->
  (hasChartData (totalExpense l) (totalIncome l) = false <-> l = []).
Proof.
  intros Hpos. unfold hasChartData, totalExpense, totalIncome. split.
  - intros H. apply orb_false_iff in H. destruct H as [He Hi].
    destruct l as [|t l]; [reflexivity|exfalso].
    pose proof (Forall_filter_keeps _ (fun t => TransactionType_eqb (type t) ChiTieu) _ Hpos) as HC.
    pose proof (Forall_filter_keeps _ (fun t => TransactionType_eqb (type t) ThuNhap) _ Hpos) as HT.
    simpl in He, Hi, HC, HT. destruct (type t); simpl in He, Hi, HC, HT.
    + pose proof (sum_amounts_pos _ _ HC).
      destruct (Z.gtb_spec (sum_amounts
        (t :: List.filter (fun t => TransactionType_eqb (type t) ChiTieu) l)) 0);
        [discriminate | lia].
    + pose proof (sum_amounts_pos _ _ HT).
      destruct (Z.gtb_spec (sum_amounts
        (t :: List.filter (fun t => TransactionType_eqb (type t) ThuNhap) l)) 0);
        [discriminate | lia].
  - intros ->. reflexivity.
Qed.

Lemma chart_shown_iff_something_filtered_witness :
  hasChartData (totalExpense [salary; coffee]) (totalIncome [salary; coffee]) = false
  <-> [salary; coffee] = [].
Proof.
  apply (chart_shown_iff_something_filtered [salary; coffee]).
  repeat constructor.
Defined.

Lemma filter_keeps_sublist {A : Type} (f : A -> bool) (l' l : list A) :
  sublist l' l -> sublist (List.filter f l') (List.filter f l).
Proof.
  induction 1 as [|x l1 l2 _ IH|x l1 l2 _ IH]; simpl.
  - constructor.
  - destruct (f x); [constructor; exact IH | exact IH].
  - destruct (f x); [apply sublist_cons; exact IH | exact IH].
Qed.

(** Leaving records out never raises a sum of amounts that are not
    negative: rounding is monotone. *)
Lemma fold_amounts_sublist (l' l : list Transaction) :
  sublist l' l -> Forall (fun t => 0 <= amount t) l ->
  forall acc' acc, 0 <= acc' <= acc -> round_double acc = acc ->
  fold_left (fun sum t => double_add sum (amount t)) l' acc'
  <= fold_left (fun sum t => double_add sum (amount t)) l acc.
Proof.
  induction 1 as [|t l1 l2 _ IH|t l1 l2 _ IH]; intros Hpos acc' acc Hacc Hrep.
  - simpl. lia.
  - apply Forall_cons in Hpos. destruct Hpos as [Ht Hpos]. simpl.
    apply IH; [exact Hpos | | apply round_double_idempotent].
    unfold double_add. split.
    + rewrite round_double_nonneg by lia. apply round_nat_nonneg. lia.
    + apply round_double_monotone. lia.
  - apply Forall_cons in Hpos. destruct Hpos as [Ht Hpos]. simpl.
    apply IH; [exact Hpos | | apply round_double_idempotent].
    unfold double_add. pose proof (round_double_monotone acc (acc + amount t) ltac:(lia)).
    lia.
Qed.

Lemma sum_amounts_sublist (l' l : list Transaction) :
  sublist l' l -> Forall (fun t => 0 <= amount t) l -> sum_amounts l' <= sum_amounts l.
Proof.
  intros Hs Hpos. unfold sum_amounts.
  apply (fold_amounts_sublist l' l Hs Hpos 0 0); [lia | reflexivity].
Qed.

(** X7: when no amount is negative, no filter setting makes a total
    larger: the expense and income totals of the filtered list are at most
    those of the whole collection. *)
Theorem filtering_never_raises_totals (R : Runtime) (st : Home) :
  Forall (fun t => 0 <= amount t) (transactions st) ->
  totalExpense (filteredTransactions R st) <= totalExpense (transactions st)
  /\ totalIncome (filteredTransactions R st) <= totalIncome (transactions st).
Proof.
  intros Hpos. unfold totalExpense, totalIncome.
  pose proof (filtered_is_sublist R st) as Hs.
  split; (apply sum_amounts_sublist;
          [apply filter_keeps_sublist; exact Hs | apply Forall_filter_keeps; exact Hpos]).
Qed.

Lemma filtering_never_raises_totals_witness :
  totalExpense
    (filteredTransactions ho_chi_minh (page [salary; undated; coffee] range [] [] []))
  <= totalExpense [salary; undated; coffee].
Proof.
  apply (filtering_never_raises_totals ho_chi_minh
           (page [salary; undated; coffee] range [] [] [])).
  repeat constructor; vm_compute; discriminate.
Defined.

(** ** Edges of the date filter *)

Lemma filter_none {A : Type} (f : A -> bool) (l : list A) :
  (forall x, f x = false) -> List.filter f l = [].
Proof.
  intros H. induction l as [|x l IH]; simpl; [reflexivity|].
  rewrite H. exact IH.
Qed.

Lemma in_window_NaN_bound (R : Runtime) (lo hi : number) (t : Transaction) :
  lo = NaN \/ hi = NaN -> in_window R lo hi t = false.
Proof.
  unfold in_window, num_ge, getTime. intros [-> | ->].
  - destruct (Date_parse R (createdAt t)); reflexivity.
  - destruct (Date_parse R (createdAt t)); simpl; rewrite ?andb_false_r; reflexivity.
Qed.

(** X8: in range mode a bound that is filled in but is no date does not
    count as absent: [startOfDay] and [endOfDay] of an invalid date are
    invalid, every comparison with them fails, and the filtered list is
    empty.  (A date input hands over the empty text or a date; other text
    reaches the filter where the input falls back to a text box.) *)
Theorem range_with_unreadable_bound_shows_nothing (R : Runtime) (st : Home) :
  filterMode st = range ->
  (filterStart st <> [] /\ Date_parse R (filterStart st) = NaN)
  \/ (filterEnd st <> [] /\ Date_parse R (filterEnd st) = NaN) ->
  filteredTransactions R st = [].
Proof.
  intros Hmode H. unfold filteredTransactions. rewrite Hmode.
  apply filter_none. intros t. apply in_window_NaN_bound.
  destruct H as [[Hne Hnan]|[Hne Hnan]].
  - left. destruct (filterStart st) as [|c s]; [congruence|].
    simpl nonempty. cbv iota. rewrite Hnan. reflexivity.
  - right. destruct (filterEnd st) as [|c s]; [congruence|].
    simpl nonempty. cbv iota. rewrite Hnan. reflexivity.
Qed.

Lemma range_with_unreadable_bound_shows_nothing_witness :
  filteredTransactions ho_chi_minh (page [salary; coffee] range (str "x") [] []) = [].
Proof.
  apply (range_with_unreadable_bound_shows_nothing ho_chi_minh
           (page [salary; coffee] range (str "x") [] [])).
  - reflexivity.
  - left. split; [discriminate|vm_compute; reflexivity].
Defined.

(** The two dates that month mode builds, for a year that the [Date]
    constructor takes as it is. *)
Lemma month_window_dates (R : Runtime) (y m : Z) :
  plain_year y -> 1 <= m <= 12 -> fixed_zone R ->
  Date_of_fields R (Num y) (Num (m - 1)) (Num 1) (Num 0) (Num 0) (Num 0) (Num 0)
  = Num (first_instant_of_month R y m)
  /\ Date_of_fields R (Num y) (Num m) (Num 0) (Num 23) (Num 59) (Num 59) (Num 999)
     = Num (last_instant_of_month R y m).
Proof.
  intros Hplain Hm Hz. split.
  - apply (Date_of_fields_local R y m 1 0 0 0 0 Hplain
             (first_day_is_calendar_date y m Hm) Hz).
    unfold MakeTime, msPerDay, msPerHour, msPerMinute, msPerSecond. lia.
  - unfold Date_of_fields. destruct Hplain as [Hlo Hhi].
    replace ((0 <=? y) && (y <=? 99)) with false
      by (symmetry; apply andb_false_iff; right; apply Z.leb_gt; lia).
    rewrite (MakeDay_day_zero y m Hm).
    change (UTC R (MakeDate (civil_day y m (month_length y m)) (MakeTime 23 59 59 999)))
      with (local_instant R y m (month_length y m) 86399999).
    apply TimeClip_local_instant;
      [split; assumption|apply last_day_is_calendar_date; exact Hm|exact Hz|].
    unfold msPerDay. lia.
Qed.

Lemma Date_of_fields_short_year (R : Runtime) (y : Z) (m d h mi s ms : number) :
  0 <= y <= 99 ->
  Date_of_fields R (Num y) m d h mi s ms
  = Date_of_fields R (Num (1900 + y)) m d h mi s ms.
Proof.
  intros Hy. unfold Date_of_fields.
  destruct m as [| |m|], d as [| |d|], h as [| |h|], mi as [| |mi|],
    s as [| |s|], ms as [| |ms|]; try reflexivity.
  replace ((0 <=? y) && (y <=? 99)) with true
    by (symmetry; apply andb_true_iff; rewrite !Z.leb_le; lia).
  replace ((0 <=? 1900 + y) && (1900 + y <=? 99)) with false
    by (symmetry; apply andb_false_iff; right; apply Z.leb_gt; lia).
  reflexivity.
Qed.

(** X9: a month filter whose year reads as 1 to 99 selects the month of
    the year 1900 + y: the records between the first and the last instant
    of that month of the twentieth century, both included. *)
Theorem month_filter_of_short_year (R : Runtime) (st : Home) (y m : Z) :
  filterMode st = month ->
  reads_as (year_field (filterMonth st)) y ->
  reads_as (month_field (filterMonth st)) m ->
  y <= 99 -> m <= 12 -> fixed_zone R ->
  filteredTransactions R st
  = List.filter
      (created_within R (first_instant_of_month R (1900 + y) m)
         (last_instant_of_month R (1900 + y) m))
      (transactions st).
Proof.
  intros Hmode Hy Hm Hy99 Hm12 Hz.
  assert (Hy0 : 0 < y) by (destruct Hy as [s [_ [_ H]]]; exact H).
  assert (Hm1 : 1 <= m <= 12) by (destruct Hm as [s [_ [_ H]]]; lia).
  rewrite (month_filter_tests_window R st y m Hmode Hy Hm).
  rewrite !(Date_of_fields_short_year R y) by lia.
  destruct (month_window_dates R (1900 + y) m) as [-> ->];
    [unfold plain_year; lia|exact Hm1|exact Hz|].
  apply filter_ext. intros t. apply in_window_finite.
Qed.

Lemma month_filter_of_short_year_witness :
  filteredTransactions ho_chi_minh (page [of_1999; of_year_99] month [] [] (str "99-12"))
  = [of_1999].
Proof.
  rewrite (month_filter_of_short_year ho_chi_minh
             (page [of_1999; of_year_99] month [] [] (str "99-12")) 99 12).
  - vm_compute. reflexivity.
  - reflexivity.
  - exists (str "99"). split; [reflexivity|split; [reflexivity|lia]].
  - exists (str "12"). split; [reflexivity|split; [reflexivity|lia]].
  - lia.
  - lia.
  - unfold fixed_zone. vm_compute. split; reflexivity.
Defined.

Lemma created_between_within (R : Runtime) (lo hi : Z) (t : Transaction) :
  created_between R (Num lo) (Num hi) t = created_within R lo hi t.
Proof. unfold created_between, created_within. destruct (Date_parse R (createdAt t)); reflexivity. Qed.

(** X10: at or east of Greenwich, filtering by a month shows the same
    records as filtering by the range from the first to the last day of
    that month. *)
Theorem month_filter_is_range_over_the_month
  (R : Runtime) (by_month by_range : Home) (y m : Z) :
  transactions by_range = transactions by_month ->
  filterMode by_month = month ->
  reads_as (year_field (filterMonth by_month)) y ->
  reads_as (month_field (filterMonth by_month)) m ->
  m <= 12 ->
  filterMode by_range = range ->
  denotes_day R (filterStart by_range) y m 1 ->
  denotes_day R (filterEnd by_range) y m (month_length y m) ->
  east_of_utc R ->
  filteredTransactions R by_month = filteredTransactions R by_range.
Proof.
  intros Htx Hmode Hy Hm Hm12 Hrange Hs He Hz.
  assert (Hplain : plain_year y) by (destruct Hs as [_ [_ [H _]]]; exact H).
  rewrite (month_filter_is_calendar_month R by_month y m Hmode Hy Hm Hplain Hm12
             (east_is_fixed R Hz)).
  rewrite (range_filter_east_of_utc R by_range (Some (y, m, 1))
             (Some (y, m, month_length y m)) Hrange Hz Hs He).
  rewrite Htx. apply filter_ext. intros t. symmetry. apply created_between_within.
Qed.

Lemma month_filter_is_range_over_the_month_witness :
  filteredTransactions ho_chi_minh
    (page [last_of_january; first_of_february] month [] [] (str "2026-02"))
  = filteredTransactions ho_chi_minh
      (page [last_of_january; first_of_february] range
         (str "2026-02-01") (str "2026-02-28") []).
Proof.
  apply (month_filter_is_range_over_the_month ho_chi_minh _ _ 2026 2).
  - reflexivity.
  - reflexivity.
  - exists (str "2026"). split; [reflexivity|split; [reflexivity|lia]].
  - exists (str "02"). split; [reflexivity|split; [reflexivity|lia]].
  - lia.
  - reflexivity.
  - split; [discriminate|]. split; [split; [lia|vm_compute; split; discriminate]|].
    split; [unfold plain_year; lia|]. vm_compute. reflexivity.
  - split; [discriminate|]. split; [split; [lia|vm_compute; split; discriminate]|].
    split; [unfold plain_year; lia|]. vm_compute. reflexivity.
  - unfold east_of_utc. vm_compute. split; [discriminate|reflexivity].
Defined.

(** ** The storage area *)

Lemma persist_outcome (ls : Storage) (st : Home) :
  let text := JSON_stringify (transactions_to_JSON (transactions st)) in
  (blocked ls = false
   /\ (used (<[STORAGE_KEY := text]> (items ls)) <= quota ls)%N
   /\ persist ls st
      = {| items := <[STORAGE_KEY := text]> (items ls);
           quota := quota ls; blocked := blocked ls |})
  \/ ((blocked ls = true \/ (quota ls < used (<[STORAGE_KEY := text]> (items ls)))%N)
      /\ persist ls st = ls).
Proof.
  simpl. unfold persist, setItem. destruct (blocked ls) eqn:Hb.
  - right. split; [left; reflexivity|reflexivity].
  - destruct (N.ltb_spec (quota ls)
                (used (<[STORAGE_KEY :=
                           JSON_stringify (transactions_to_JSON (transactions st))]>
                         (items ls)))) as [Hq|Hq].
    + right. split; [right; exact Hq|reflexivity].
    + left. split; [reflexivity|]. split; [exact Hq|reflexivity].
Qed.

(** X12: writing touches one entry.  Every other key of the storage area
    keeps its value, the quota and the access flag stay as they are, and
    when the write fails (no access, or the text does not fit) the storage
    area is exactly as before, the previous text included. *)
Theorem persist_touches_one_entry (ls : Storage) (st : Home) :
  (forall key, key <> STORAGE_KEY ->
     items (persist ls st) !! key = items ls !! key)
  /\ quota (persist ls st) = quota ls
  /\ blocked (persist ls st) = blocked ls
  /\ (blocked ls = true
      \/ (quota ls
          < used (<[STORAGE_KEY := JSON_stringify (transactions_to_JSON (transactions st))]>
                    (items ls)))%N ->
      persist ls st = ls).
Proof.
  destruct (persist_outcome ls st) as [[Hb [Hq E]]|[H E]]; rewrite E.
  - split; [|split; [reflexivity|split; [reflexivity|]]].
    + intros key Hk. simpl. apply lookup_insert_ne. congruence.
    + intros [H|H]; [congruence|lia].
  - split; [reflexivity|]. split; [reflexivity|]. split; [reflexivity|].
    reflexivity.
Qed.

Lemma second_write_replaces_first (ls : Storage) (st1 st2 : Home) :
  blocked ls = false ->
  (used (<[STORAGE_KEY := JSON_stringify (transactions_to_JSON (transactions st2))]>
           (items ls)) <= quota ls)%N ->
  persist (persist ls st1) st2 = persist ls st2.
Proof.
  intros Hb Hq.
  destruct (persist_outcome ls st2) as [[_ [_ E2]]|[[H|H] _]]; [|congruence|lia].
  rewrite E2.
  destruct (persist_outcome ls st1) as [[_ [_ E1]]|[_ E1]]; rewrite E1; [|exact E2].
  unfold persist, setItem. cbn [items quota blocked].
  rewrite Hb, insert_insert_eq.
  destruct (N.ltb_spec (quota ls)
              (used (<[STORAGE_KEY :=
                         JSON_stringify (transactions_to_JSON (transactions st2))]>
                       (items ls)))); [lia|reflexivity].
Qed.

(** X13: the last write wins.  When the text of a collection fits, writing
    it after any earlier write leaves the storage area as if only it had
    been written; in particular writing the same collection twice is
    writing it once. *)
Theorem last_write_wins (ls : Storage) (st1 st2 : Home) :
  blocked ls = false ->
  (used (<[STORAGE_KEY := JSON_stringify (transactions_to_JSON (transactions st2))]>
           (items ls)) <= quota ls)%N ->
  persist (persist ls st1) st2 = persist ls st2
  /\ persist (persist ls st2) st2 = persist ls st2.
Proof.
  intros Hb Hq. split; apply second_write_replaces_first; assumption.
Qed.

Lemma last_write_wins_witness :
  persist (persist empty_storage (page [coffee] all [] [] []))
    (page [salary; coffee] all [] [] [])
  = persist empty_storage (page [salary; coffee] all [] [] []).
Proof.
  apply (last_write_wins empty_storage (page [coffee] all [] [] [])
           (page [salary; coffee] all [] [] [])).
  - reflexivity.
  - vm_compute. discriminate.
Defined.


(** ** The amount field *)

Lemma digit_is_no_space (c : N) : is_digit c = true -> is_whitespace c = false.
Proof.
  unfold is_digit. rewrite andb_true_iff, !N.leb_le. intros H.
  assert (E : (c = 48 \/ c = 49 \/ c = 50 \/ c = 51 \/ c = 52 \/ c = 53 \/ c = 54
               \/ c = 55 \/ c = 56 \/ c = 57)%N) by lia.
  repeat (destruct E as [E|E]; [subst c; reflexivity|]). subst c. reflexivity.
Qed.

Lemma digit_is_no_plus (c : N) : is_digit c = true -> (c =? 43)%N = false.
Proof.
  unfold is_digit. rewrite andb_true_iff, !N.leb_le. intros H.
  apply N.eqb_neq. lia.
Qed.

Lemma digit_prefix_all (ds : jsstring) :
  Forall (fun c => is_digit c = true) ds -> digit_prefix ds = ds.
Proof.
  intros H. pose proof (digit_prefix_app ds [] H I) as E.
  rewrite app_nil_r in E. exact E.
Qed.

(** [parseInt] of a run of digits is the double nearest to the number
    they spell. *)
Lemma parseInt10_digits (ds : jsstring) :
  Forall (fun c => is_digit c = true) ds -> ds <> [] ->
  parseInt10 ds = to_double (digits_value ds).
Proof.
  intros Hd Hne. destruct ds as [|c r]; [congruence|].
  pose proof (Forall_inv Hd) as Hc.
  unfold parseInt10. simpl trimStart. rewrite (digit_is_no_space c Hc).
  rewrite (digit_is_no_sign c Hc), (digit_is_no_plus c Hc). simpl orb. cbv iota.
  rewrite (digit_prefix_all (c :: r) Hd). f_equal. lia.
Qed.

Lemma remove_non_digits_digits (s : jsstring) :
  Forall (fun c => is_digit c = true) (remove_non_digits s).
Proof.
  apply List.Forall_forall. intros c Hc. apply filter_In in Hc. tauto.
Qed.

Lemma remove_non_digits_id (ds : jsstring) :
  Forall (fun c => is_digit c = true) ds -> remove_non_digits ds = ds.
Proof. apply filter_all_true. Qed.

Lemma group_thousands_digits (l : jsstring) :
  remove_non_digits (group_thousands l) = remove_non_digits l.
Proof.
  remember (length l) as n eqn:Hn.
  assert (Hle : (length l <= n)%nat) by lia. clear Hn.
  revert l Hle. induction n as [|n IH]; intros l Hle.
  - destruct l; [reflexivity|simpl in Hle; lia].
  - destruct l as [|a [|b [|c [|d r]]]]; try reflexivity.
    change (group_thousands (a :: b :: c :: d :: r))
      with (a :: b :: c :: 46%N :: group_thousands (d :: r)).
    unfold remove_non_digits in *.
    change (a :: b :: c :: 46%N :: group_thousands (d :: r))
      with ([a; b; c] ++ 46%N :: group_thousands (d :: r)).
    change (a :: b :: c :: d :: r) with ([a; b; c] ++ d :: r).
    rewrite !List.filter_app. f_equal.
    change (List.filter is_digit (46%N :: group_thousands (d :: r)))
      with (List.filter is_digit (group_thousands (d :: r))).
    apply IH. simpl in *. lia.
Qed.

(** Taking the separators out of a formatted number gives its digits. *)
Lemma toLocaleString_digits (n : N) :
  remove_non_digits (toLocaleString_viVN n) = decimal_of_N n.
Proof.
  unfold toLocaleString_viVN, remove_non_digits.
  rewrite List.filter_rev.
  fold (remove_non_digits (group_thousands (rev (decimal_of_N n)))).
  rewrite group_thousands_digits. unfold remove_non_digits.
  rewrite <- List.filter_rev, rev_involutive.
  apply filter_all_true. apply decimal_digits.
Qed.

Lemma decimal_nonempty (n : N) : decimal_of_N n <> [].
Proof. destruct (decimal_shape n) as [c [more [E _]]]. rewrite E. discriminate. Qed.

Lemma digits_value_nonneg (ds : jsstring) :
  Forall (fun c => is_digit c = true) ds -> 0 <= digits_value ds.
Proof. intros H. apply (digits_value_from ds 0 H). lia. Qed.

(** What [formatCurrencyInput] leaves in the field: nothing when the text
    has no digit, else the double nearest to the number that its digits
    spell. *)
Lemma formatCurrencyInput_eq (value : jsstring) :
  formatCurrencyInput value
  = match remove_non_digits value with
    | [] => []
    | ds =>
        match to_double (digits_value ds) with
        | NaN => []
        | Num n => toLocaleString_viVN (Z.to_N (shortest n))
        | PosInfinity => [8734%N]
        | NegInfinity => [45%N; 8734%N]
        end
    end.
Proof.
  unfold formatCurrencyInput.
  pose proof (remove_non_digits_digits value) as Hd.
  destruct (remove_non_digits value) as [|c r] eqn:E; [reflexivity|].
  simpl nonempty. cbv iota beta. simpl negb. cbv iota.
  rewrite parseInt10_digits by (assumption || discriminate). reflexivity.
Qed.

(** A finite number in the field: its digits are those of [shortest]. *)
Lemma formatted_digits (value : jsstring) (n : Z) :
  parseInt10 (remove_non_digits value) = Num n ->
  remove_non_digits (formatCurrencyInput value) = decimal_of_N (Z.to_N (shortest n)).
Proof.
  intros Hn. rewrite formatCurrencyInput_eq.
  pose proof (remove_non_digits_digits value) as Hd.
  destruct (remove_non_digits value) as [|c r] eqn:E; [discriminate Hn|].
  rewrite parseInt10_digits in Hn by (assumption || discriminate).
  rewrite Hn. apply toLocaleString_digits.
Qed.

Lemma parseInt10_nonneg_digits (ds : jsstring) (n : Z) :
  Forall (fun c => is_digit c = true) ds -> parseInt10 ds = Num n -> 0 <= n.
Proof.
  intros Hd Hn. destruct ds as [|c r]; [discriminate Hn|].
  rewrite parseInt10_digits in Hn by (assumption || discriminate).
  apply to_double_Num_eq in Hn. subst n.
  pose proof (digits_value_nonneg _ Hd).
  rewrite round_double_nonneg by lia. apply round_nat_nonneg. lia.
Qed.

(** The digits in the field read back as the number they were made of. *)
Lemma formatted_reads_back (value : jsstring) (n : Z) :
  parseInt10 (remove_non_digits value) = Num n ->
  parseInt10 (remove_non_digits (formatCurrencyInput value)) = Num n.
Proof.
  intros Hn. rewrite (formatted_digits value n Hn).
  pose proof (parseInt10_nonneg_digits _ n (remove_non_digits_digits value) Hn) as H0.
  assert (Hd : to_double n = Num n).
  { pose proof (remove_non_digits_digits value) as Hds.
    destruct (remove_non_digits value) as [|c r]; [discriminate Hn|].
    rewrite parseInt10_digits in Hn by (assumption || discriminate).
    exact (to_double_Num _ _ Hn). }
  rewrite parseInt10_digits by (apply decimal_digits || apply decimal_nonempty).
  rewrite digits_value_decimal, Z2N.id by (apply shortest_nonneg; exact H0).
  rewrite <- Hd. apply to_double_same_round.
  pose proof (is_double_round n Hd) as Hr.
  rewrite (shortest_reads_back n Hr). symmetry. exact Hr.
Qed.

(** X14: formatting the amount field is stable.  As long as the digits
    typed spell a number below 2^1024, where [parseInt] gives Infinity, the
    number that a submission reads from the formatted field is the number
    it would read from the typed text, and formatting a formatted text
    changes nothing. *)
Theorem amount_formatting_is_stable (value : jsstring) :
  parseInt10 (remove_non_digits value) <> PosInfinity ->
  parseInt10 (remove_non_digits (formatCurrencyInput value))
  = parseInt10 (remove_non_digits value)
  /\ formatCurrencyInput (formatCurrencyInput value) = formatCurrencyInput value.
Proof.
  intros Hfin.
  destruct (parseInt10 (remove_non_digits value)) as [| |n|] eqn:Hn; [| | |congruence].
  - assert (E : formatCurrencyInput value = []).
    { unfold formatCurrencyInput. rewrite Hn.
      destruct (negb (nonempty (remove_non_digits value))); reflexivity. }
    rewrite E. split; reflexivity.
  - exfalso. pose proof (remove_non_digits_digits value) as Hd.
    destruct (remove_non_digits value) as [|c r]; [discriminate Hn|].
    rewrite parseInt10_digits in Hn by (assumption || discriminate).
    pose proof (digits_value_nonneg _ Hd) as H0.
    unfold to_double in Hn. rewrite round_double_nonneg in Hn by lia.
    pose proof (round_nat_nonneg _ H0).
    destruct (2 ^ 1024 <=? round_nat (digits_value (c :: r))); [discriminate|].
    destruct (Z.leb_spec (round_nat (digits_value (c :: r))) (- 2 ^ 1024));
      [|discriminate].
    assert (0 < 2 ^ 1024) by (apply Z.pow_pos_nonneg; lia). lia.
  - pose proof (formatted_reads_back value n Hn) as Hback.
    split; [exact Hback|].
    assert (Hne : remove_non_digits value <> []) by (intros E; rewrite E in Hn; discriminate).
    assert (Hne' : remove_non_digits (formatCurrencyInput value) <> [])
      by (rewrite (formatted_digits value n Hn); apply decimal_nonempty).
    unfold formatCurrencyInput at 1 3. rewrite Hback, Hn.
    destruct (remove_non_digits value); [congruence|].
    destruct (remove_non_digits (formatCurrencyInput value)); [congruence|].
    reflexivity.
Qed.

Lemma amount_formatting_is_stable_witness :
  formatCurrencyInput (str "9007199254740993") = str "9.007.199.254.740.992"
  /\ formatCurrencyInput (formatCurrencyInput (str "9007199254740993"))
     = formatCurrencyInput (str "9007199254740993").
Proof.
  split; [vm_compute; reflexivity|].
  destruct (amount_formatting_is_stable (str "9007199254740993")) as [_ H];
    [vm_compute; discriminate | exact H].
Defined.



(** ** The ids *)

Lemma app_pivot_inj {A : Type} (x : A) (l1 l2 h1 h2 : list A) :
  ~ In x h1 -> ~ In x h2 ->
  l1 ++ x :: h1 = l2 ++ x :: h2 -> l1 = l2 /\ h1 = h2.
Proof.
  intros H1 H2. revert l2. induction l1 as [|a l1 IH]; intros [|b l2] E; simpl in E.
  - injection E as ->. split; reflexivity.
  - injection E as <- ->. exfalso. apply H1. apply in_or_app. right. left. reflexivity.
  - injection E as -> <-. exfalso. apply H2. apply in_or_app. right. left. reflexivity.
  - injection E as -> E. destruct (IH l2 E) as [-> ->]. split; reflexivity.
Qed.

Lemma hex_digits_value_app (s r : jsstring) (acc : N) :
  fold_left (fun a c => 16 * a + default 0 (hex_value c))%N (s ++ r) acc
  = fold_left (fun a c => 16 * a + default 0 (hex_value c))%N r
      (fold_left (fun a c => 16 * a + default 0 (hex_value c))%N s acc).
Proof. apply fold_left_app. Qed.

Lemma hex_digits_value_fixed (w : nat) (n : N) :
  hex_digits_value (hex_fixed w n) = (n mod 16 ^ N.of_nat w)%N.
Proof.
  unfold hex_digits_value. revert n. induction w as [|w IH]; intros n.
  - simpl. rewrite N.mod_1_r. reflexivity.
  - cbn [hex_fixed]. rewrite hex_digits_value_app, IH. cbn [fold_left].
    rewrite hex_value_digit by (apply N.mod_lt; discriminate). cbn [default].
    rewrite Nat2N.inj_succ, N.pow_succ_r'.
    rewrite (N.Div0.mod_mul_r n 16 (16 ^ N.of_nat w)). apply N.add_comm.
Qed.

Lemma hex_fixed_length (w : nat) (n : N) : length (hex_fixed w n) = w.
Proof.
  revert n. induction w as [|w IH]; intros n; [reflexivity|].
  cbn [hex_fixed]. rewrite length_app, IH. simpl. lia.
Qed.

Lemma drop_zeros_split (l : jsstring) :
  l = repeat 48%N (length l - length (drop_zeros l)) ++ drop_zeros l.
Proof.
  induction l as [|c l IH]; [reflexivity|].
  destruct (N.eq_dec c 48%N) as [->|Hc].
  - change (drop_zeros (48%N :: l)) with (drop_zeros l).
    assert (Hlen : (length (drop_zeros l) <= length l)%nat).
    { clear IH. induction l as [|d l IHl]; [simpl; lia|].
      destruct (N.eq_dec d 48%N) as [->|Hd].
      - change (drop_zeros (48%N :: l)) with (drop_zeros l). simpl. lia.
      - replace (drop_zeros (d :: l)) with (d :: l); [lia|].
        destruct d as [|p]; [reflexivity|].
        repeat (destruct p as [p|p|]; try reflexivity). congruence. }
    replace (length (48%N :: l) - length (drop_zeros l))%nat
      with (S (length l - length (drop_zeros l))) by (simpl; lia).
    simpl. f_equal. exact IH.
  - replace (drop_zeros (c :: l)) with (c :: l).
    + rewrite Nat.sub_diag. reflexivity.
    + destruct c as [|p]; [reflexivity|].
      repeat (destruct p as [p|p|]; try reflexivity). congruence.
Qed.

Lemma strip_trailing_zeros (s : jsstring) :
  let x := rev (drop_zeros (rev s)) in
  s = x ++ repeat 48%N (length s - length x).
Proof.
  simpl. pose proof (drop_zeros_split (rev s)) as H.
  apply (f_equal (@rev N)) in H.
  rewrite rev_involutive, rev_app_distr, rev_repeat in H.
  rewrite !length_rev in *. exact H.
Qed.

Lemma hex_digits_value_zeros (x : jsstring) (j : nat) :
  hex_digits_value (x ++ repeat 48%N j) = (hex_digits_value x * 16 ^ N.of_nat j)%N.
Proof.
  unfold hex_digits_value. rewrite hex_digits_value_app.
  generalize (fold_left (fun a c => 16 * a + default 0 (hex_value c))%N x 0%N) as v.
  induction j as [|j IH]; intros v.
  - simpl. lia.
  - cbn [repeat fold_left]. rewrite IH.
    change (default 0%N (hex_value 48)) with 0%N.
    rewrite Nat2N.inj_succ, N.pow_succ_r'. lia.
Qed.

Lemma random_digits_eq (k : N) :
  slice_from 2 (random_toString16 k)
  = if (k =? 0)%N then [] else rev (drop_zeros (rev (hex_fixed 14 (8 * k)))).
Proof. unfold random_toString16. destruct (k =? 0)%N; reflexivity. Qed.

(** The digits of a draw spell the draw. *)
Lemma fraction_of_random_digits (k : N) :
  (k < 2 ^ 53)%N ->
  fraction_of_digits (slice_from 2 (random_toString16 k)) = (8 * k)%N.
Proof.
  intros Hk. rewrite random_digits_eq. destruct (N.eqb_spec k 0) as [->|Hne].
  - reflexivity.
  - set (s := hex_fixed 14 (8 * k)). set (x := rev (drop_zeros (rev s))).
    pose proof (strip_trailing_zeros s) as Hs. fold x in Hs. cbv zeta in Hs.
    pose proof (hex_digits_value_fixed 14 (8 * k)) as Hv. fold s in Hv.
    assert (Hlen : length s = 14%nat) by apply hex_fixed_length.
    assert (Hx : (length x <= 14)%nat).
    { pose proof (f_equal (@length N) Hs) as HL.
      rewrite length_app, Hlen in HL. lia. }
    rewrite Hs, hex_digits_value_zeros in Hv.
    unfold fraction_of_digits. rewrite Hlen in Hv.
    replace (14 - N.of_nat (length x))%N with (N.of_nat (14 - length x)) by lia.
    rewrite Hv. apply N.mod_small.
    change (16 ^ N.of_nat 14)%N with (8 * 2 ^ 53)%N. lia.
Qed.

Lemma hex_digit_is_no_hyphen (d : N) : hex_digit d <> 45%N.
Proof. unfold hex_digit. destruct (d <? 10)%N; lia. Qed.

Lemma hex_fixed_no_hyphen (w : nat) (n : N) : ~ In 45%N (hex_fixed w n).
Proof.
  revert n. induction w as [|w IH]; intros n; [intros []|].
  cbn [hex_fixed]. intros H. apply in_app_or in H. destruct H as [H|[H|[]]].
  - exact (IH _ H).
  - exact (hex_digit_is_no_hyphen _ H).
Qed.

Lemma drop_zeros_incl (l : jsstring) (c : N) : In c (drop_zeros l) -> In c l.
Proof.
  induction l as [|d l IH]; [tauto|].
  destruct (N.eq_dec d 48%N) as [->|Hd].
  - change (drop_zeros (48%N :: l)) with (drop_zeros l). intros H. right. exact (IH H).
  - replace (drop_zeros (d :: l)) with (d :: l); [tauto|].
    destruct d as [|p]; [reflexivity|].
    repeat (destruct p as [p|p|]; try reflexivity). congruence.
Qed.

Lemma random_digits_no_hyphen (k : N) :
  ~ In 45%N (slice_from 2 (random_toString16 k)).
Proof.
  rewrite random_digits_eq. destruct (k =? 0)%N; [intros []|].
  intros H. apply in_rev, drop_zeros_incl, in_rev in H.
  exact (hex_fixed_no_hyphen _ _ H).
Qed.

Lemma integer_of_decimal_of_Z (z : Z) : integer_of_decimal (decimal_of_Z z) = z.
Proof.
  unfold decimal_of_Z. destruct (Z.ltb_spec z 0).
  - simpl. rewrite digits_value_decimal, Z2N.id by lia. lia.
  - destruct (decimal_shape (Z.to_N z)) as [c [more [E _]]].
    pose proof (decimal_digits (Z.to_N z)) as Hd.
    pose proof (digits_value_decimal (Z.to_N z)) as Hv.
    rewrite E in *. apply Forall_inv in Hd.
    unfold integer_of_decimal. rewrite (digit_is_no_sign c Hd), Hv.
    apply Z2N.id. lia.
Qed.

(** X16: two submissions get the same id only if they read the same
    clock value and draw the same random number: the id determines both. *)
Theorem same_id_same_clock_and_draw (ev1 ev2 : Submission) :
  (Math_random ev1 < 2 ^ 53)%N ->
  (Math_random ev2 < 2 ^ 53)%N ->
  new_id ev1 = new_id ev2 ->
  Date_now ev1 = Date_now ev2 /\ Math_random ev1 = Math_random ev2.
Proof.
  intros H1 H2 E. unfold new_id in E.
  change (str "-" ++ ?x) with (45%N :: x) in E.
  apply app_pivot_inj in E; try apply random_digits_no_hyphen.
  destruct E as [Ed Eh]. split.
  - rewrite <- (integer_of_decimal_of_Z (Date_now ev1)), Ed.
    apply integer_of_decimal_of_Z.
  - apply (f_equal fraction_of_digits) in Eh.
    rewrite !fraction_of_random_digits in Eh by assumption. lia.
Qed.

Lemma same_id_same_clock_and_draw_witness :
  Date_now at_midnight = Date_now at_midnight
  /\ Math_random at_midnight = Math_random at_midnight.
Proof.
  apply (same_id_same_clock_and_draw at_midnight at_midnight).
  - vm_compute. reflexivity.
  - vm_compute. reflexivity.
  - reflexivity.
Defined.

(** ** From an instant back to its calendar day *)

Lemma year_of_day (D : Z) :
  let y := YearFromDay D in
  0 <= D - DayFromYear y < DaysInYear y.
Proof.
  simpl. pose proof (YearFromDay_spec D) as H.
  rewrite DayFromYear_succ in H. lia.
Qed.

(** Every day number is the day number of its calendar date. *)
Lemma calendar_of_day (D : Z) :
  let y := YearFromDay D in
  let m0 := month_of_yday (leap y) (D - DayFromYear y) in
  let d := D - DayFromYear y - days_before_month (leap y) m0 + 1 in
  is_calendar_date y (m0 + 1) d /\ civil_day y (m0 + 1) d = D.
Proof.
  cbv zeta. pose proof (year_of_day D) as H. cbv zeta in H.
  set (y := YearFromDay D) in *. set (yd := D - DayFromYear y) in *.
  unfold is_calendar_date, civil_day, month_of_yday, DaysInYear, month_length in *.
  destruct (leap y); decide_comparisons; simpl; lia.
Qed.

Lemma calendar_of_time (t : Z) :
  is_calendar_date (YearFromTime t) (MonthFromTime t + 1) (DateFromTime t)
  /\ civil_day (YearFromTime t) (MonthFromTime t + 1) (DateFromTime t) = Day t.
Proof.
  pose proof (calendar_of_day (Day t)) as H. cbv zeta in H.
  unfold DateFromTime, MonthFromTime, InLeapYear, DayWithinYear, YearFromTime.
  exact H.
Qed.

Lemma Day_decomposition (t : Z) : t = Day t * msPerDay + TimeWithinDay t.
Proof.
  unfold Day, TimeWithinDay, msPerDay.
  pose proof (Z.div_mod t 86400000 ltac:(lia)). lia.
Qed.

Lemma TimeWithinDay_range (t : Z) : 0 <= TimeWithinDay t < msPerDay.
Proof. unfold TimeWithinDay, msPerDay. apply Z.mod_pos_bound. lia. Qed.

(** [startOfDay] and [endOfDay] of an instant, in any fixed zone. *)
Lemma day_bounds_of_instant (R : Runtime) (t : Z) :
  fixed_zone R -> plain_year (YearFromTime (LocalTime R t)) ->
  startOfDay R (Num t) = Num (t - TimeWithinDay (LocalTime R t))
  /\ endOfDay R (Num t) = Num (t - TimeWithinDay (LocalTime R t) + 86399999).
Proof.
  intros Hz Hy. set (lt := LocalTime R t) in *.
  destruct (calendar_of_time lt) as [Hc Hd].
  pose proof (Day_decomposition lt) as Hlt.
  unfold startOfDay, endOfDay, getFullYear, getMonth, getDate. fold lt.
  replace (MonthFromTime lt) with (MonthFromTime lt + 1 - 1) at 1 2 by lia.
  rewrite !(Date_of_fields_local R _ _ _ _ _ _ _ Hy Hc Hz)
    by (unfold MakeTime, msPerDay, msPerHour, msPerMinute, msPerSecond; lia).
  unfold local_instant. rewrite Hd.
  unfold MakeTime, msPerHour, msPerMinute, msPerSecond.
  unfold lt, LocalTime in *. split; f_equal; lia.
Qed.

(** X17: in any fixed time zone, [startOfDay] and [endOfDay] of an instant
    enclose it, lie 23:59:59.999 apart, and are the same for every instant
    between them: they are the two ends of the local day of the instant. *)
Theorem day_bounds_enclose_the_instant (R : Runtime) (t : Z) :
  fixed_zone R -> plain_year (YearFromTime (LocalTime R t)) ->
  exists s e,
    startOfDay R (Num t) = Num s /\ endOfDay R (Num t) = Num e
    /\ s <= t <= e /\ e = s + 86399999
    /\ forall t', s <= t' <= e ->
         startOfDay R (Num t') = Num s /\ endOfDay R (Num t') = Num e.
Proof.
  intros Hz Hy. destruct (day_bounds_of_instant R t Hz Hy) as [Hs He].
  pose proof (TimeWithinDay_range (LocalTime R t)) as Hr.
  exists (t - TimeWithinDay (LocalTime R t)),
         (t - TimeWithinDay (LocalTime R t) + 86399999).
  split; [exact Hs|]. split; [exact He|].
  unfold msPerDay in Hr. split; [lia|]. split; [reflexivity|].
  intros t' Ht'.
  assert (Hday : Day (LocalTime R t') = Day (LocalTime R t)
                 /\ TimeWithinDay (LocalTime R t')
                    = t' - (t - TimeWithinDay (LocalTime R t))).
  { pose proof (Day_decomposition (LocalTime R t)) as Hd.
    unfold Day, TimeWithinDay, LocalTime, msPerDay in *.
    set (q := (t + LocalTZA R) / 86400000) in *.
    assert (E : t' + LocalTZA R
                = q * 86400000 + (t' - (t - (t + LocalTZA R) mod 86400000))) by lia.
    split.
    - symmetry. apply (Z.div_unique _ _ _ (t' - (t - (t + LocalTZA R) mod 86400000)));
        lia.
    - symmetry. apply (Z.mod_unique _ _ q); lia. }
  destruct Hday as [HD HT].
  assert (Hy' : plain_year (YearFromTime (LocalTime R t'))).
  { unfold YearFromTime in *. rewrite HD. exact Hy. }
  destruct (day_bounds_of_instant R t' Hz Hy') as [Hs' He'].
  rewrite Hs', He', HT. split; f_equal; lia.
Qed.

Lemma day_bounds_enclose_the_instant_witness :
  exists s e,
    startOfDay utc_minus_5 (Num 1773118799999) = Num s
    /\ endOfDay utc_minus_5 (Num 1773118799999) = Num e
    /\ s <= 1773118799999 <= e /\ e = s + 86399999
    /\ forall t', s <= t' <= e ->
         startOfDay utc_minus_5 (Num t') = Num s /\ endOfDay utc_minus_5 (Num t') = Num e.
Proof.
  apply (day_bounds_enclose_the_instant utc_minus_5 1773118799999).
  - unfold fixed_zone. vm_compute. split; reflexivity.
  - unfold plain_year. vm_compute. split; discriminate.
Defined.

(** ** Padded numerals *)

(** A numeral of [n] has at most [w] digits when [n < 10 ^ w]. *)
Lemma decimal_length (w : nat) (n : N) :
  (1 <= w)%nat -> Z.of_N n < 10 ^ Z.of_nat w -> (length (decimal_of_N n) <= w)%nat.
Proof.
  intros Hw Hn. destruct (decimal_shape n) as [c [more [E Hz]]].
  pose proof (digits_value_decimal n) as Hv.
  pose proof (decimal_digits n) as Hd. rewrite E in *.
  destruct (Nat.le_gt_cases (length (c :: more)) w) as [Hle|Hgt]; [exact Hle|exfalso].
  apply Forall_cons in Hd. destruct Hd as [Hc Hmore].
  assert (Hc48 : (c =? 48)%N = false).
  { destruct more; [simpl in Hgt; lia|].
    destruct (c =? 48)%N; [discriminate Hz|reflexivity]. }
  apply N.eqb_neq in Hc48. apply digit_value_range in Hc as Hr.
  assert (Hc1 : 1 <= digit_value c) by (unfold digit_value in *; lia).
  unfold digits_value in Hv. cbn [fold_left] in Hv. rewrite fold_digits_shift in Hv.
  pose proof (digits_value_nonneg more Hmore) as Hnn.
  assert (Hp : 10 ^ Z.of_nat w <= 10 ^ Z.of_nat (length more)).
  { apply Z.pow_le_mono_r; [lia|]. simpl in Hgt. lia. }
  assert (0 < 10 ^ Z.of_nat (length more)) by (apply Z.pow_pos_nonneg; lia).
  nia.
Qed.

Lemma pad_digits (w : nat) (n : N) : Forall (fun c => is_digit c = true) (pad w n).
Proof.
  unfold pad. apply Forall_app. split; [|apply decimal_digits].
  apply List.Forall_forall. intros c Hc. apply repeat_spec in Hc. subst c. reflexivity.
Qed.

Lemma pad_length (w : nat) (n : N) :
  (1 <= w)%nat -> Z.of_N n < 10 ^ Z.of_nat w -> length (pad w n) = w.
Proof.
  intros Hw Hn. pose proof (decimal_length w n Hw Hn).
  unfold pad. rewrite length_app, repeat_length. lia.
Qed.

Lemma pad_value (w : nat) (n : N) : digits_value (pad w n) = Z.of_N n.
Proof.
  unfold pad, digits_value. rewrite fold_left_app.
  replace (fold_left (fun a c => 10 * a + digit_value c)
             (repeat 48%N (w - length (decimal_of_N n))) 0) with 0.
  - apply digits_value_decimal.
  - induction (w - length (decimal_of_N n))%nat as [|k IH]; [reflexivity|exact IH].
Qed.

Lemma read_digits_all (ds rest : jsstring) (acc : Z) :
  Forall (fun c => is_digit c = true) ds ->
  read_digits (length ds) acc (ds ++ rest)
  = Some (fold_left (fun a c => 10 * a + digit_value c) ds acc, rest).
Proof.
  intros H. revert acc. induction H as [|c ds Hc _ IH]; intros acc; [reflexivity|].
  cbn [length read_digits app fold_left]. rewrite Hc. apply IH.
Qed.

(** Reading [w] digits from a numeral padded to [w] digits gives its
    number. *)
Lemma read_digits_pad (w : nat) (n : N) (rest : jsstring) :
  (1 <= w)%nat -> Z.of_N n < 10 ^ Z.of_nat w ->
  read_digits w 0 (pad w n ++ rest) = Some (Z.of_N n, rest).
Proof.
  intros Hw Hn. pose proof (read_digits_all (pad w n) rest 0 (pad_digits w n)) as H.
  rewrite (pad_length w n Hw Hn) in H. rewrite H. f_equal. f_equal. apply pad_value.
Qed.

Lemma pad_head (w : nat) (n : N) :
  exists c r, pad w n = c :: r /\ is_digit c = true.
Proof.
  pose proof (pad_digits w n) as Hd.
  destruct (pad w n) as [|c r] eqn:E.
  - exfalso. unfold pad in E. apply app_eq_nil in E. destruct E as [_ E].
    exact (decimal_nonempty n E).
  - exists c, r. split; [reflexivity|]. exact (Forall_inv Hd).
Qed.

Lemma read_year_digit (c : N) (r : jsstring) :
  is_digit c = true -> read_year (c :: r) = read_digits 4 0 (c :: r).
Proof.
  unfold is_digit. rewrite andb_true_iff, !N.leb_le. intros H.
  assert (E : (c = 48 \/ c = 49 \/ c = 50 \/ c = 51 \/ c = 52 \/ c = 53 \/ c = 54
               \/ c = 55 \/ c = 56 \/ c = 57)%N) by lia.
  repeat (destruct E as [E|E]; [subst c; reflexivity|]). subst c. reflexivity.
Qed.

Lemma days_in_month_length (y m : Z) :
  1 <= m <= 12 -> days_in_month y m = month_length y m.
Proof.
  intros Hm. unfold days_in_month, month_length.
  month_cases m; simpl; destruct (leap y); reflexivity.
Qed.

(** The date part [yyyy-mm-dd] of a calendar date is read as that date. *)
Lemma read_date_of_fields (y m d : Z) (rest : jsstring) :
  0 <= y <= 9999 -> is_calendar_date y m d ->
  read_date (pad 4 (Z.to_N y) ++ 45%N :: pad 2 (Z.to_N m) ++ 45%N
             :: pad 2 (Z.to_N d) ++ rest)
  = Some (y, m, d, rest).
Proof.
  intros Hy [Hm Hd]. unfold read_date.
  destruct (pad_head 4 (Z.to_N y)) as [c [r [E Hc]]].
  assert (Hml : month_length y m <= 31).
  { unfold month_length. destruct (m =? 2); [destruct (leap y); lia|].
    destruct ((m =? 4) || (m =? 6) || (m =? 9) || (m =? 11)); lia. }
  assert (Ey : read_year (pad 4 (Z.to_N y) ++ 45%N :: pad 2 (Z.to_N m) ++ 45%N
                          :: pad 2 (Z.to_N d) ++ rest)
               = Some (y, 45%N :: pad 2 (Z.to_N m) ++ 45%N :: pad 2 (Z.to_N d) ++ rest)).
  { rewrite E. cbn [app]. rewrite (read_year_digit c _ Hc).
    rewrite app_comm_cons, <- E.
    rewrite read_digits_pad by (rewrite ?Z2N.id; simpl; lia).
    rewrite Z2N.id by lia. reflexivity. }
  rewrite Ey. cbn [mbind option_bind].
  rewrite read_digits_pad by (rewrite ?Z2N.id; simpl; lia).
  rewrite Z2N.id by lia. cbn [mbind option_bind].
  replace ((1 <=? m) && (m <=? 12)) with true
    by (symmetry; apply andb_true_iff; rewrite !Z.leb_le; lia).
  rewrite read_digits_pad by (rewrite ?Z2N.id; simpl; lia).
  rewrite Z2N.id by lia. cbn [mbind option_bind].
  rewrite (days_in_month_length y m Hm).
  replace ((1 <=? d) && (d <=? month_length y m)) with true
    by (symmetry; apply andb_true_iff; rewrite !Z.leb_le; lia).
  reflexivity.
Qed.

(** The time part [HH:mm:ss.sss] is read as the milliseconds it spells. *)
Lemma read_time_of_fields (h mi s ms : Z) (rest : jsstring) :
  0 <= h <= 23 -> 0 <= mi <= 59 -> 0 <= s <= 59 -> 0 <= ms <= 999 ->
  read_time (pad 2 (Z.to_N h) ++ 58%N :: pad 2 (Z.to_N mi) ++ 58%N
             :: pad 2 (Z.to_N s) ++ 46%N :: pad 3 (Z.to_N ms) ++ rest)
  = Some (MakeTime h mi s ms, rest).
Proof.
  intros Hh Hmi Hs Hms. unfold read_time.
  rewrite read_digits_pad by (rewrite ?Z2N.id; simpl; lia).
  rewrite Z2N.id by lia. cbn [mbind option_bind].
  rewrite read_digits_pad by (rewrite ?Z2N.id; simpl; lia).
  rewrite Z2N.id by lia. cbn [mbind option_bind].
  replace ((h <=? 23) && (mi <=? 59)) with true
    by (symmetry; apply andb_true_iff; rewrite !Z.leb_le; lia).
  rewrite read_digits_pad by (rewrite ?Z2N.id; simpl; lia).
  rewrite Z2N.id by lia. cbn [mbind option_bind].
  replace (s <=? 59) with true by (symmetry; apply Z.leb_le; lia).
  rewrite read_digits_pad by (rewrite ?Z2N.id; simpl; lia).
  rewrite Z2N.id by lia. reflexivity.
Qed.

(** ** The timestamp of a record *)

Lemma time_fields (t : Z) :
  0 <= HourFromTime t <= 23 /\ 0 <= MinFromTime t <= 59
  /\ 0 <= SecFromTime t <= 59 /\ 0 <= msFromTime t <= 999
  /\ MakeTime (HourFromTime t) (MinFromTime t) (SecFromTime t) (msFromTime t)
     = TimeWithinDay t.
Proof.
  unfold HourFromTime, MinFromTime, SecFromTime, msFromTime, MakeTime, TimeWithinDay,
    msPerHour, msPerMinute, msPerSecond, msPerDay.
  Z.div_mod_to_equations. lia.
Qed.

Lemma toISOString_eq (t : Z) :
  0 <= YearFromTime t <= 9999 ->
  toISOString t
  = pad 4 (Z.to_N (YearFromTime t)) ++ 45%N
    :: pad 2 (Z.to_N (MonthFromTime t + 1)) ++ 45%N
    :: pad 2 (Z.to_N (DateFromTime t)) ++ 84%N
    :: pad 2 (Z.to_N (HourFromTime t)) ++ 58%N
    :: pad 2 (Z.to_N (MinFromTime t)) ++ 58%N
    :: pad 2 (Z.to_N (SecFromTime t)) ++ 46%N
    :: pad 3 (Z.to_N (msFromTime t)) ++ [90%N].
Proof.
  intros Hy. unfold toISOString.
  replace ((0 <=? YearFromTime t) && (YearFromTime t <=? 9999)) with true
    by (symmetry; apply andb_true_iff; rewrite !Z.leb_le; lia).
  reflexivity.
Qed.

Lemma year_range_time (t : Z) :
  0 <= YearFromTime t <= 9999 -> Z.abs t <= maxTime.
Proof.
  intros Hy. pose proof (YearFromDay_spec (Day t)) as H.
  fold (YearFromTime t) in H.
  pose proof (DayFromYear_mono 0 (YearFromTime t) ltac:(lia)) as H1.
  pose proof (DayFromYear_mono (YearFromTime t + 1) 10000 ltac:(lia)) as H2.
  change (DayFromYear 0) with (-719528) in H1.
  change (DayFromYear 10000) with 2932897 in H2.
  pose proof (Day_decomposition t) as Hd.
  pose proof (TimeWithinDay_range t) as Hr.
  unfold maxTime, msPerDay in *. lia.
Qed.

(** [new Date(d.toISOString())] is [d], for the years that print with four
    digits. *)
Lemma parse_toISOString (R : Runtime) (t : Z) :
  0 <= YearFromTime t <= 9999 -> Date_parse R (toISOString t) = Num t.
Proof.
  intros Hy. destruct (calendar_of_time t) as [Hc Hd].
  destruct (time_fields t) as [Hh [Hmi [Hs [Hms Ht]]]].
  unfold Date_parse, parse_iso. rewrite (toISOString_eq t Hy).
  rewrite (read_date_of_fields _ _ _ _ Hy Hc). cbn [mbind option_bind].
  rewrite (read_time_of_fields _ _ _ _ _ Hh Hmi Hs Hms). cbn [mbind option_bind read_offset].
  rewrite (MakeDay_civil _ _ _ (proj1 Hc)), Hd, Ht.
  unfold MakeDate. rewrite Z.sub_0_r, <- Day_decomposition.
  unfold TimeClip. pose proof (year_range_time t Hy).
  destruct (Z.gtb_spec (Z.abs t) maxTime); [lia|reflexivity].
Qed.

(** X18: the timestamp that a submission writes is read back by the filter
    as the instant of the submission, in every time zone: the new record
    passes a window exactly when that instant lies in it. *)
Theorem new_record_is_dated_now (R : Runtime) (ev : Submission) (st : Home) (n : Z)
  (lo hi : number) :
  trim (form_name st) <> [] ->
  parseInt10 (remove_non_digits (form_amount st)) = Num n ->
  0 < n ->
  0 <= YearFromTime (new_Date ev) <= 9999 ->
  exists t, transactions (handleAddTransaction ev st) = t :: transactions st
            /\ Date_parse R (createdAt t) = Num (new_Date ev)
            /\ in_window R lo hi t
               = num_ge (Num (new_Date ev)) lo && num_le (Num (new_Date ev)) hi.
Proof.
  intros Hname Hnum Hpos Hy.
  rewrite (add_guard_accepts ev st n Hname Hnum Hpos).
  eexists. split; [reflexivity|]. cbn [createdAt].
  split; [apply parse_toISOString; exact Hy|].
  unfold in_window, getTime. cbn [createdAt]. rewrite parse_toISOString by exact Hy.
  reflexivity.
Qed.

Lemma new_record_is_dated_now_witness :
  exists t,
    transactions
      (handleAddTransaction at_midnight (form [salary] (str "Coffee") (str "50.000") ChiTieu))
    = t :: transactions (form [salary] (str "Coffee") (str "50.000") ChiTieu)
    /\ Date_parse utc_minus_5 (createdAt t) = Num (new_Date at_midnight)
    /\ in_window utc_minus_5 NegInfinity PosInfinity t
       = num_ge (Num (new_Date at_midnight)) NegInfinity
         && num_le (Num (new_Date at_midnight)) PosInfinity.
Proof.
  apply (new_record_is_dated_now utc_minus_5 at_midnight
           (form [salary] (str "Coffee") (str "50.000") ChiTieu) 50000).
  - vm_compute. discriminate.
  - vm_compute. reflexivity.
  - lia.
  - vm_compute. split; discriminate.
Defined.

(** ** The values of the month and date inputs *)

Lemma split_on_absent (sep : N) (s : jsstring) :
  ~ In sep s -> split_on sep s = [s].
Proof.
  induction s as [|c s IH]; intros H; [reflexivity|].
  cbn [split_on]. destruct (N.eqb_spec c sep) as [E|E].
  - exfalso. apply H. left. exact E.
  - rewrite IH by (intros G; apply H; right; exact G). reflexivity.
Qed.

Lemma split_on_first (sep : N) (a b : jsstring) :
  ~ In sep a -> split_on sep (a ++ sep :: b) = a :: split_on sep b.
Proof.
  induction a as [|c a IH]; intros H.
  - cbn [app split_on]. rewrite N.eqb_refl. reflexivity.
  - cbn [app split_on]. destruct (N.eqb_spec c sep) as [E|E].
    + exfalso. apply H. left. exact E.
    + rewrite IH by (intros G; apply H; right; exact G). reflexivity.
Qed.

Lemma digits_no_hyphen (ds : jsstring) :
  Forall (fun c => is_digit c = true) ds -> ~ In 45%N ds.
Proof.
  intros H G. rewrite List.Forall_forall in H. specialize (H _ G). discriminate H.
Qed.

Lemma parseInt10_of_pad (w : nat) (n : N) :
  Z.of_N n <= 2 ^ 53 -> parseInt10 (pad w n) = Num (Z.of_N n).
Proof.
  intros Hn.
  rewrite parseInt10_digits;
    [rewrite pad_value; apply to_double_safe; lia|apply pad_digits|].
  destruct (pad_head w n) as [c [r [E _]]]. rewrite E. discriminate.
Qed.

(** The value ["yyyy-mm"] of a month input reads as its year and month. *)
Lemma month_input_fields (y m : Z) :
  0 < y <= 2 ^ 53 -> 0 < m <= 2 ^ 53 ->
  reads_as (year_field (month_input y m)) y
  /\ reads_as (month_field (month_input y m)) m.
Proof.
  intros Hy Hm. unfold year_field, month_field, month_input.
  change (str "-" ++ pad 2 (Z.to_N m)) with (45%N :: pad 2 (Z.to_N m)).
  rewrite split_on_first by (apply digits_no_hyphen, pad_digits).
  rewrite split_on_absent by (apply digits_no_hyphen, pad_digits).
  split.
  - exists (pad 4 (Z.to_N y)). split; [reflexivity|].
    rewrite parseInt10_of_pad, Z2N.id by (rewrite ?Z2N.id; lia). split; [reflexivity|lia].
  - exists (pad 2 (Z.to_N m)). split; [reflexivity|].
    rewrite parseInt10_of_pad, Z2N.id by (rewrite ?Z2N.id; lia). split; [reflexivity|lia].
Qed.

(** X19: with the value of a month input in the month field, the filter
    shows exactly the records of that calendar month in local time: from
    the first instant of the month to its last, both included (years 100
    to 9999, any fixed zone). *)
Theorem month_input_selects_the_month (R : Runtime) (st : Home) (y m : Z) :
  filterMode st = month ->
  filterMonth st = month_input y m ->
  100 <= y <= 9999 -> 1 <= m <= 12 -> fixed_zone R ->
  filteredTransactions R st
  = List.filter
      (created_within R (first_instant_of_month R y m) (last_instant_of_month R y m))
      (transactions st).
Proof.
  intros Hmode Hfm Hy Hm Hz.
  assert (H53 : 9999 < 2 ^ 53) by reflexivity.
  destruct (month_input_fields y m) as [Hyf Hmf]; [lia|lia|].
  rewrite <- Hfm in Hyf, Hmf.
  apply (month_filter_is_calendar_month R st y m Hmode Hyf Hmf);
    [unfold plain_year; lia|lia|exact Hz].
Qed.

Lemma month_input_selects_the_month_witness :
  filteredTransactions utc_minus_5
    (page [last_of_january; first_of_february] month [] [] (month_input 2026 1))
  = [last_of_january].
Proof.
  rewrite (month_input_selects_the_month utc_minus_5
             (page [last_of_january; first_of_february] month [] [] (month_input 2026 1))
             2026 1).
  - vm_compute. reflexivity.
  - reflexivity.
  - reflexivity.
  - lia.
  - lia.
  - unfold fixed_zone. vm_compute. split; reflexivity.
Defined.

(** The value ["yyyy-mm-dd"] of a date input parses to midnight UTC of its
    day. *)
Lemma date_input_parses (R : Runtime) (y m d : Z) :
  0 <= y <= 9999 -> is_calendar_date y m d ->
  date_input y m d <> []
  /\ Date_parse R (date_input y m d) = Num (civil_day y m d * msPerDay).
Proof.
  intros Hy Hc. split.
  - unfold date_input. destruct (pad_head 4 (Z.to_N y)) as [c [r [E _]]].
    rewrite E. discriminate.
  - unfold Date_parse, parse_iso, date_input.
    change (str "-" ++ pad 2 (Z.to_N m) ++ str "-" ++ pad 2 (Z.to_N d))
      with (45%N :: pad 2 (Z.to_N m) ++ 45%N :: pad 2 (Z.to_N d)).
    rewrite <- (app_nil_r (pad 2 (Z.to_N d))).
    rewrite (read_date_of_fields y m d [] Hy Hc). cbn [mbind option_bind].
    rewrite (MakeDay_civil _ _ _ (proj1 Hc)).
    unfold MakeDate. rewrite Z.add_0_r.
    assert (Hb : Z.abs (civil_day y m d * msPerDay) <= maxTime).
    { pose proof (civil_day_in_year y m d Hc) as H.
      pose proof (DayFromYear_mono 0 y ltac:(lia)) as H1.
      pose proof (DayFromYear_mono (y + 1) 10000 ltac:(lia)) as H2.
      change (DayFromYear 0) with (-719528) in H1.
      change (DayFromYear 10000) with 2932897 in H2.
      unfold maxTime, msPerDay. lia. }
    unfold TimeClip.
    destruct (Z.gtb_spec (Z.abs (civil_day y m d * msPerDay)) maxTime); [lia|reflexivity].
Qed.

Lemma date_input_denotes (R : Runtime) (y m d : Z) :
  100 <= y <= 9999 -> is_calendar_date y m d ->
  denotes_day R (date_input y m d) y m d.
Proof.
  intros Hy Hc. destruct (date_input_parses R y m d) as [Hne Hp]; [lia|exact Hc|].
  split; [exact Hne|]. split; [exact Hc|]. split; [unfold plain_year; lia|exact Hp].
Qed.

(** X20: at or east of Greenwich, with the values of two date inputs in
    the range fields, the filter shows exactly the records from
    00:00:00.000 local time of the start day to 23:59:59.999 local time of
    the end day, both included (years 100 to 9999). *)
Theorem date_inputs_select_the_days (R : Runtime) (st : Home) (y1 m1 d1 y2 m2 d2 : Z) :
  filterMode st = range ->
  filterStart st = date_input y1 m1 d1 ->
  filterEnd st = date_input y2 m2 d2 ->
  100 <= y1 <= 9999 -> is_calendar_date y1 m1 d1 ->
  100 <= y2 <= 9999 -> is_calendar_date y2 m2 d2 ->
  east_of_utc R ->
  filteredTransactions R st
  = List.filter
      (created_within R (first_instant_of_day R y1 m1 d1) (last_instant_of_day R y2 m2 d2))
      (transactions st).
Proof.
  intros Hmode Hs He Hy1 Hc1 Hy2 Hc2 Hz.
  rewrite (range_filter_east_of_utc R st (Some (y1, m1, d1)) (Some (y2, m2, d2)) Hmode Hz).
  - apply filter_ext. intros t. apply created_between_within.
  - cbn [field_denotes]. rewrite Hs. apply date_input_denotes; assumption.
  - cbn [field_denotes]. rewrite He. apply date_input_denotes; assumption.
Qed.

Lemma date_inputs_select_the_days_witness :
  filteredTransactions ho_chi_minh
    (page [last_of_january; first_of_february] range
       (date_input 2026 2 1) (date_input 2026 2 28) [])
  = [first_of_february].
Proof.
  rewrite (date_inputs_select_the_days ho_chi_minh
             (page [last_of_january; first_of_february] range
                (date_input 2026 2 1) (date_input 2026 2 28) [])
             2026 2 1 2026 2 28).
  - vm_compute. reflexivity.
  - reflexivity.
  - reflexivity.
  - reflexivity.
  - lia.
  - split; [lia|vm_compute; split; discriminate].
  - lia.
  - split; [lia|vm_compute; split; discriminate].
  - unfold east_of_utc. vm_compute. split; [discriminate|reflexivity].
Defined.

(** ** The date range west of Greenwich *)

Lemma year_of_previous_day (y m d : Z) :
  is_calendar_date y m d ->
  y - 1 <= YearFromDay (civil_day y m d - 1) <= y.
Proof.
  intros Hc. pose proof (civil_day_in_year y m d Hc) as H.
  pose proof (YearFromDay_spec (civil_day y m d - 1)) as S.
  set (Y := YearFromDay (civil_day y m d - 1)) in *.
  destruct (Z_lt_le_dec Y (y - 1)) as [L|L].
  - pose proof (DayFromYear_mono (Y + 1) (y - 1) ltac:(lia)).
    pose proof (DayFromYear_strict (y - 1) y ltac:(lia)). lia.
  - destruct (Z_lt_le_dec y Y) as [G|G]; [|lia].
    pose proof (DayFromYear_mono (y + 1) Y ltac:(lia)). lia.
Qed.

Lemma day_bounds_west (R : Runtime) (y m d : Z) :
  101 <= y <= 9999 -> is_calendar_date y m d -> west_of_utc R ->
  startOfDay R (Num (civil_day y m d * msPerDay))
  = Num (first_instant_of_day R y m d - msPerDay)
  /\ endOfDay R (Num (civil_day y m d * msPerDay))
     = Num (last_instant_of_day R y m d - msPerDay).
Proof.
  intros Hy Hc Hw. unfold west_of_utc in Hw.
  assert (Hz : fixed_zone R) by (unfold fixed_zone; lia).
  assert (HD : Day (LocalTime R (civil_day y m d * msPerDay)) = civil_day y m d - 1
               /\ TimeWithinDay (LocalTime R (civil_day y m d * msPerDay))
                  = msPerDay + LocalTZA R).
  { unfold Day, TimeWithinDay, LocalTime, msPerDay in *. split.
    - symmetry. apply (Z.div_unique _ _ _ (86400000 + LocalTZA R)); lia.
    - symmetry. apply (Z.mod_unique _ _ (civil_day y m d - 1)); lia. }
  destruct HD as [HD HT].
  assert (Hplain : plain_year (YearFromTime (LocalTime R (civil_day y m d * msPerDay)))).
  { unfold YearFromTime. rewrite HD. pose proof (year_of_previous_day y m d Hc).
    unfold plain_year. lia. }
  destruct (day_bounds_of_instant R _ Hz Hplain) as [-> ->]. rewrite HT.
  unfold first_instant_of_day, last_instant_of_day, local_instant, msPerDay.
  split; f_equal; lia.
Qed.

(** X21: west of Greenwich the bounds of the date range are those of the
    day before: with the values of date inputs in the range fields, the
    filter shows the records from 00:00:00.000 local time of the day
    before the start day to 23:59:59.999 of the day before the end day; an
    empty field is still no bound (years 101 to 9999). *)
Theorem date_range_is_a_day_early_west_of_utc
  (R : Runtime) (st : Home) (lo hi : option (Z * Z * Z)) :
  filterMode st = range ->
  filterStart st = range_field lo ->
  filterEnd st = range_field hi ->
  day_of_years 101 9999 lo -> day_of_years 101 9999 hi ->
  west_of_utc R ->
  filteredTransactions R st
  = List.filter
      (created_between R (a_day_earlier (lower_bound R lo))
         (a_day_earlier (upper_bound R hi)))
      (transactions st).
Proof.
  intros Hmode Hs He Hlo Hhi Hw. unfold filteredTransactions. rewrite Hmode, Hs, He.
  assert (E1 : match (if nonempty (range_field lo)
                      then Some (startOfDay R (Date_parse R (range_field lo)))
                      else None) with
               | Some d => getTime d
               | None => NegInfinity
               end = a_day_earlier (lower_bound R lo)).
  { destruct lo as [[[y m] d]|]; [|reflexivity]. destruct Hlo as [Hy Hc].
    destruct (date_input_parses R y m d) as [Hne Hp]; [lia|exact Hc|].
    cbn [range_field]. destruct (date_input y m d) as [|c s] eqn:E; [congruence|].
    cbn [nonempty]. rewrite Hp. unfold getTime.
    apply (day_bounds_west R y m d Hy Hc Hw). }
  assert (E2 : match (if nonempty (range_field hi)
                      then Some (endOfDay R (Date_parse R (range_field hi)))
                      else None) with
               | Some d => getTime d
               | None => PosInfinity
               end = a_day_earlier (upper_bound R hi)).
  { destruct hi as [[[y m] d]|]; [|reflexivity]. destruct Hhi as [Hy Hc].
    destruct (date_input_parses R y m d) as [Hne Hp]; [lia|exact Hc|].
    cbn [range_field]. destruct (date_input y m d) as [|c s] eqn:E; [congruence|].
    cbn [nonempty]. rewrite Hp. unfold getTime.
    apply (day_bounds_west R y m d Hy Hc Hw). }
  cbv zeta. rewrite E1, E2. apply filter_ext. intros t. apply in_window_between.
Qed.

Lemma date_range_is_a_day_early_west_of_utc_witness :
  filteredTransactions utc_minus_5
    (page [early_on_10_march; late_on_9_march] range (range_field (Some (2026, 3, 10)))
       (range_field None) [])
  = [early_on_10_march; late_on_9_march].
Proof.
  rewrite (date_range_is_a_day_early_west_of_utc utc_minus_5
             (page [early_on_10_march; late_on_9_march] range
                (range_field (Some (2026, 3, 10))) (range_field None) [])
             (Some (2026, 3, 10)) None).
  - vm_compute. reflexivity.
  - reflexivity.
  - reflexivity.
  - reflexivity.
  - split; [lia|split; [lia|vm_compute; split; discriminate]].
  - exact I.
  - unfold west_of_utc. vm_compute. split; reflexivity.
Defined.

(** ** Collections made by the page *)

Lemma add_keeps_timestamps (R : Runtime) (ev : Submission) (st : Home) :
  0 <= YearFromTime (new_Date ev) <= 9999 ->
  Forall (fun t => has_timestamp R t = true) (transactions st) ->
  Forall (fun t => has_timestamp R t = true) (transactions (handleAddTransaction ev st)).
Proof.
  intros Hy H. destruct (add_outcome ev st) as [E|[t [E _]]].
  - rewrite E. exact H.
  - unfold handleAddTransaction in *.
    destruct (negb (nonempty (trim (form_name st)))
              || isNaN (parseInt10 (remove_non_digits (form_amount st)))
              || num_le (parseInt10 (remove_non_digits (form_amount st))) (Num 0));
      [exact H|].
    destruct (parseInt10 (remove_non_digits (form_amount st))) as [| |n|]; try exact H.
    cbn [transactions resetForm setTransactions]. constructor; [|exact H].
    unfold has_timestamp. cbn [createdAt]. rewrite parse_toISOString by exact Hy.
    reflexivity.
Qed.

Lemma run_keeps_timestamps (R : Runtime) (st st' : Home) :
  rtc dated_step st st' ->
  Forall (fun t => has_timestamp R t = true) (transactions st) ->
  Forall (fun t => has_timestamp R t = true) (transactions st').
Proof.
  intros Hrun. induction Hrun as [st|st st1 st' Hstep _ IH]; [tauto|].
  intros H. apply IH. destruct Hstep as [ev st Hy|i st|st st1 E].
  - apply add_keeps_timestamps; assumption.
  - apply List.Forall_forall. intros t Ht. cbn in Ht. apply filter_In in Ht.
    rewrite List.Forall_forall in H. apply H. tauto.
  - rewrite E. exact H.
Qed.

(** X22: in a collection that the page has built itself, from the empty
    one, by submissions and deletes, every [createdAt] is a valid
    timestamp in every time zone; so the date range with both fields empty
    shows the whole collection. *)
Theorem built_collections_are_dated (R : Runtime) (st : Home) :
  rtc dated_step initial st ->
  Forall (fun t => has_timestamp R t = true) (transactions st)
  /\ (filterMode st = range -> filterStart st = [] -> filterEnd st = [] ->
      filteredTransactions R st = transactions st).
Proof.
  intros Hrun.
  assert (H : Forall (fun t => has_timestamp R t = true) (transactions st)).
  { apply (run_keeps_timestamps R initial st Hrun). constructor. }
  split; [exact H|].
  intros Hmode Hs He. unfold filteredTransactions. rewrite Hmode, Hs, He.
  cbn [nonempty]. apply filter_all_true.
  apply List.Forall_forall. intros t Ht. rewrite in_window_unbounded.
  rewrite List.Forall_forall in H. apply H. exact Ht.
Qed.

Lemma built_collections_are_dated_witness :
  Forall (fun t => has_timestamp utc_minus_5 t = true)
    (transactions
       (handleAddTransaction at_midnight (form [] (str "Coffee") (str "50.000") ChiTieu))).
Proof.
  apply (built_collections_are_dated utc_minus_5
           (handleAddTransaction at_midnight (form [] (str "Coffee") (str "50.000") ChiTieu))).
  eapply rtc_l.
  - apply (dated_other initial (form [] (str "Coffee") (str "50.000") ChiTieu)). reflexivity.
  - apply rtc_once. apply dated_add. vm_compute. split; discriminate.
Defined.

(** ** Totals after a submission and after a delete *)







(** ** Startup *)

Lemma persist_stored_text (ls : Storage) (st : Home) :
  items ls !! STORAGE_KEY
  = Some (JSON_stringify (transactions_to_JSON (transactions st))) ->
  persist ls st = ls.
Proof.
  intros Hget. destruct (persist_outcome ls st) as [[_ [_ E]]|[_ E]]; [|exact E].
  rewrite E. rewrite insert_id by exact Hget. destruct ls; reflexivity.
Qed.




(** X26: startup replaces what it cannot read.  When the stored text is
    not JSON, or is JSON but not an array, the page starts with the empty
    collection, and if the write goes through the storage area then holds
    the text of the empty collection: the unreadable text is gone. *)
Theorem mount_replaces_unreadable_text (ls : Storage) (raw : jsstring) :
  blocked ls = false ->
  items ls !! STORAGE_KEY = Some raw ->
  JSON_parse raw = None
  \/ (exists v, JSON_parse raw = Some v /\ Array_isArray v = false) ->
  (used (<[STORAGE_KEY := empty_text]> (items ls)) <= quota ls)%N ->
  exists ls',
    mount ls = Some (initial, ls')
    /\ items ls' !! STORAGE_KEY = Some empty_text.
Proof.
  intros Hb Hget Hbad Hq. unfold mount.
  assert (Hh : hydrate ls initial = Some initial).
  { unfold hydrate, getItem. rewrite Hb. unfold jsstring in *. rewrite Hget.
    destruct Hbad as [Hp|[v [Hp Ha]]]; rewrite Hp, ?Ha;
      destruct (nonempty raw); reflexivity. }
  rewrite Hh. cbn [mbind option_bind]. eexists. split; [reflexivity|].
  rewrite (second_write_replaces_first ls initial initial Hb) by exact Hq.
  destruct (persist_outcome ls initial) as [[_ [_ E]]|[[H|H] _]];
    [|congruence|unfold empty_text in Hq; cbn [transactions initial] in H; lia].
  rewrite E. cbn [items]. apply lookup_insert_eq.
Qed.

Lemma mount_replaces_unreadable_text_witness :
  exists ls',
    mount (storage_with (str "{oops")) = Some (initial, ls')
    /\ items ls' !! STORAGE_KEY = Some empty_text.
Proof.
  apply (mount_replaces_unreadable_text (storage_with (str "{oops")) (str "{oops")).
  - reflexivity.
  - reflexivity.
  - left. vm_compute. reflexivity.
  - vm_compute. discriminate.
Defined.

(** ** What the page builds is read back *)

Lemma parseInt10_is_double (s : jsstring) (n : Z) :
  parseInt10 s = Num n -> is_double n.
Proof.
  unfold parseInt10. cbv zeta.
  destruct (digit_prefix _) as [|c ds]; [discriminate|].
  apply to_double_Num.
Qed.

(** The amount field never holds digits that read as Infinity: for them
    [formatCurrencyInput] leaves the sign of infinity, which has no
    digit. *)
Lemma formatted_is_finite (value : jsstring) :
  parseInt10 (remove_non_digits (formatCurrencyInput value)) <> PosInfinity.
Proof.
  destruct (parseInt10 (remove_non_digits value)) as [| |n|] eqn:Hn.
  - unfold formatCurrencyInput. rewrite Hn.
    destruct (negb (nonempty (remove_non_digits value))); discriminate.
  - unfold formatCurrencyInput. rewrite Hn.
    destruct (negb (nonempty (remove_non_digits value))); discriminate.
  - rewrite (formatted_reads_back value n Hn). discriminate.
  - unfold formatCurrencyInput. rewrite Hn.
    destruct (negb (nonempty (remove_non_digits value))); discriminate.
Qed.

Lemma add_keeps_numbers (ev : Submission) (st : Home) :
  Forall (fun t => is_double (amount t)) (transactions st) ->
  Forall (fun t => is_double (amount t)) (transactions (handleAddTransaction ev st)).
Proof.
  intros H. unfold handleAddTransaction.
  destruct (negb (nonempty (trim (form_name st)))
            || isNaN (parseInt10 (remove_non_digits (form_amount st)))
            || num_le (parseInt10 (remove_non_digits (form_amount st))) (Num 0));
    [exact H|].
  destruct (parseInt10 (remove_non_digits (form_amount st))) as [| |n|] eqn:E;
    try exact H.
  cbn [transactions resetForm setTransactions]. constructor; [|exact H].
  cbn [amount]. exact (parseInt10_is_double _ _ E).
Qed.

Lemma add_keeps_field_finite (ev : Submission) (st : Home) :
  parseInt10 (remove_non_digits (form_amount st)) <> PosInfinity ->
  parseInt10 (remove_non_digits (form_amount (handleAddTransaction ev st)))
  <> PosInfinity.
Proof.
  intros H. destruct (add_outcome ev st) as [->|[t [-> _]]]; [exact H|].
  cbn [form_amount resetForm]. discriminate.
Qed.

Lemma run_keeps_numbers (st st' : Home) :
  rtc typed_step st st' ->
  Forall (fun t => is_double (amount t)) (transactions st)
  /\ parseInt10 (remove_non_digits (form_amount st)) <> PosInfinity ->
  Forall (fun t => is_double (amount t)) (transactions st')
  /\ parseInt10 (remove_non_digits (form_amount st')) <> PosInfinity.
Proof.
  induction 1 as [st|st st1 st2 Hstep _ IH]; intros [H Hf]; [split; assumption|].
  apply IH. destruct Hstep as [ev st|i st|value st|st st' E Ef].
  - split; [apply add_keeps_numbers; exact H | apply add_keeps_field_finite; exact Hf].
  - cbn [handleDeleteTransaction setTransactions transactions form_amount].
    split; [apply Forall_filter_keeps; exact H | exact Hf].
  - cbn [changeAmount transactions form_amount].
    split; [exact H | apply formatted_is_finite].
  - rewrite E, Ef. split; assumption.
Qed.

(** X27: in a run of the page from its first render, by submissions,
    deletes and typing, no submission reads Infinity from the amount field
    and every amount in the collection is a Number value; so whenever the
    write goes through, what the page reads back from the storage area is
    that collection. *)
Theorem built_collections_are_read_back (ls : Storage) (st st0 : Home) :
  rtc typed_step initial st ->
  blocked ls = false ->
  (used (<[STORAGE_KEY := JSON_stringify (transactions_to_JSON (transactions st))]>
           (items ls)) <= quota ls)%N ->
  parseInt10 (remove_non_digits (form_amount st)) <> PosInfinity
  /\ Forall (fun t => is_double (amount t)) (transactions st)
  /\ hydrate (persist ls st) st0
     = Some (setTransactions (fun _ => transactions st) st0).
Proof.
  intros Hrun Hb Hq.
  destruct (run_keeps_numbers initial st Hrun) as [Hd Hf];
    [split; [constructor | discriminate]|].
  split; [exact Hf|]. split; [exact Hd|].
  destruct (persist_outcome ls st) as [[_ [_ E]]|[[H|H] _]]; [|congruence|lia].
  rewrite E. apply hydrate_stored_text; [exact Hd | exact Hb |].
  cbn [items]. apply lookup_insert_eq.
Qed.

Lemma built_collections_are_read_back_witness :
  let st := handleAddTransaction at_midnight
              (changeAmount (str "9007199254740993")
                 (changeName (str "Land") initial)) in
  List.map amount (transactions st) = [9007199254740992]
  /\ hydrate (persist empty_storage st) initial
     = Some (setTransactions (fun _ => transactions st) initial).
Proof.
  cbv zeta. split; [vm_compute; reflexivity|].
  destruct (built_collections_are_read_back empty_storage
              (handleAddTransaction at_midnight
                 (changeAmount (str "9007199254740993")
                    (changeName (str "Land") initial)))
              initial) as [_ [_ H]].
  - eapply rtc_l; [apply (typed_other initial (changeName (str "Land") initial));
                   reflexivity|].
    eapply rtc_l; [apply typed_amount|]. apply rtc_once. apply typed_add.
  - reflexivity.
  - vm_compute. discriminate.
  - exact H.
Defined.
